(** * elections-relayer: eligibility proof and vote uniqueness

    A shallow embedding of the relayer's server variants and of the two
    library algorithms they call (the hex codecs of Node and ethers, and the
    Merkle tree of merkletreejs as the relayer configures it), followed by
    the properties of the protocol.

    - [Merkle]   : the variant with a Merkle accumulator
                   (computeGlobalTree, /admin/sync-root, /vote/:candidateId);
    - [Simple]   : the variant without accumulator (/vote with a two-argument
                   voteWithNullifier);
    - [ClientProof] : src/index.js, where the client hands in leaf and proof.

    Keccak-256 is an abstract function from byte strings to byte strings. *)

From Stdlib Require Import NArith ZArith List String Ascii Bool Lia Arith.
From Stdlib.Strings Require Import Byte.
From Equations Require Import Equations.
Import ListNotations.

Local Open Scope string_scope.
Local Open Scope list_scope.

Set Implicit Arguments.

(** ** Byte strings and their hexadecimal spellings *)

Definition Buffer := list byte.

Module Hex.

(** The sixteen lower-case digits, as [Buffer.toString('hex')] and ethers'
    [hexlify] print them. *)
Definition digit (n : N) : ascii :=
  match n with
  | 0%N => "0" | 1%N => "1" | 2%N => "2" | 3%N => "3"
  | 4%N => "4" | 5%N => "5" | 6%N => "6" | 7%N => "7"
  | 8%N => "8" | 9%N => "9" | 10%N => "a" | 11%N => "b"
  | 12%N => "c" | 13%N => "d" | 14%N => "e" | _ => "f"
  end%char.

(** Value of a hexadecimal digit of either case; [None] for any other
    character. *)
Definition unhex (c : ascii) : option N :=
  let n := N_of_ascii c in
  if ((48 <=? n) && (n <=? 57))%N then Some (n - 48)%N
  else if ((97 <=? n) && (n <=? 102))%N then Some (n - 87)%N
  else if ((65 <=? n) && (n <=? 70))%N then Some (n - 55)%N
  else None.

Definition byte_of_nibbles (h l : N) : byte :=
  match Byte.of_N (16 * h + l) with
  | Some b => b
  | None => x00
  end.

Fixpoint encode (b : Buffer) : string :=
  match b with
  | [] => EmptyString
  | x :: rest =>
      String (digit (Byte.to_N x / 16)) (String (digit (Byte.to_N x mod 16)) (encode rest))
  end.

(** [Buffer.from(s, "hex")] of Node: pairs of digits are decoded from the
    left and decoding stops, keeping what was read, at the first pair that
    is not two hexadecimal digits; a trailing single character is dropped. *)
Fixpoint decode_lenient (s : string) : Buffer :=
  match s with
  | String a (String b rest) =>
      match unhex a, unhex b with
      | Some h, Some l => byte_of_nibbles h l :: decode_lenient rest
      | _, _ => []
      end
  | _ => []
  end.

(** Strict decoding: every character a digit and an even number of them. *)
Fixpoint decode_strict (s : string) : option Buffer :=
  match s with
  | EmptyString => Some []
  | String a (String b rest) =>
      match unhex a, unhex b, decode_strict rest with
      | Some h, Some l, Some bs => Some (byte_of_nibbles h l :: bs)
      | _, _, _ => None
      end
  | String _ EmptyString => None
  end.

(** ASCII lower-casing, which is what [toLowerCase] does to the characters
    a hexadecimal spelling can hold. *)
Definition lower_char (c : ascii) : ascii :=
  let n := N_of_ascii c in
  if ((65 <=? n) && (n <=? 90))%N then ascii_of_N (n + 32) else c.

Fixpoint toLowerCase (s : string) : string :=
  match s with
  | EmptyString => EmptyString
  | String c rest => String (lower_char c) (toLowerCase rest)
  end.

(** [s.replace(/^0x/, "")] *)
Definition strip0x (s : string) : string :=
  match s with
  | String "0" (String "x" rest) => rest
  | _ => s
  end.

End Hex.

(** [toBuf] of the relayer:
    [Buffer.from(String(hex || "").replace(/^0x/, ""), "hex")]. *)
Definition toBuf (hex : string) : Buffer := Hex.decode_lenient (Hex.strip0x hex).

(** merkletreejs' [bufferToHex]: ['0x' + buffer.toString('hex')]. *)
Definition bufferToHex (b : Buffer) : string := "0x" ++ Hex.encode b.

(** ethers' [hexlify] of a byte array. *)
Definition hexlify (b : Buffer) : string := "0x" ++ Hex.encode b.

(** ethers' [arrayify] of a string: it must match [^0x[0-9A-Fa-f]*$] and
    hold an even number of digits, otherwise the call throws ([None]). *)
Definition arrayify (s : string) : option Buffer :=
  match s with
  | String "0" (String "x" rest) => Hex.decode_strict rest
  | _ => None
  end.

(** [ethers.constants.HashZero] *)
Definition HashZero : string :=
  "0x0000000000000000000000000000000000000000000000000000000000000000".

(** ** The Merkle tree of merkletreejs

    The source of merkletreejs is not part of the repository; the tree is
    modelled as [new MerkleTree(leaves, keccak256, { sortPairs: true })]
    builds it: the leaves are taken as they are (neither hashed nor
    sorted), a pair of nodes is sorted with [Buffer.compare] before it is
    concatenated and hashed, and the last node of a level of odd length
    moves up unchanged. *)

Module MerkleTreeJs.
Section WithHash.

Variable hashFn : Buffer -> Buffer.

(** [Buffer.compare]: unsigned lexicographic order, a proper prefix first. *)
Fixpoint Buffer_compare (a b : Buffer) : comparison :=
  match a, b with
  | [], [] => Eq
  | [], _ :: _ => Lt
  | _ :: _, [] => Gt
  | x :: a', y :: b' =>
      match N.compare (Byte.to_N x) (Byte.to_N y) with
      | Eq => Buffer_compare a' b'
      | c => c
      end
  end.

(** Modelled from the spec: the pairwise combine of the accumulator, absent
    from src/ with the rest of merkletreejs; the two children are sorted by
    byte value before they are concatenated and hashed
    ([combined.sort(Buffer.compare); hashFn(Buffer.concat(combined))]). *)
Definition combine (lft rgt : Buffer) : Buffer :=
  match Buffer_compare lft rgt with
  | Gt => hashFn (rgt ++ lft)
  | _ => hashFn (lft ++ rgt)
  end.

(** Modelled from the spec: one level of the accumulator, absent from src/;
    nodes are combined two by two and a last node without partner is
    carried up as it is (the rule of merkletreejs when [duplicateOdd] is
    not set). *)
Fixpoint nextLayer (nodes : list Buffer) : list Buffer :=
  match nodes with
  | lft :: rgt :: rest => combine lft rgt :: nextLayer rest
  | [odd] => [odd]
  | [] => []
  end.

(** Modelled from the spec: the levels of the accumulator from the leaves
    up, absent from src/
    ([this.layers = [nodes]; while (nodes.length > 1) { ... }]). *)
Equations? createHashes (nodes : list Buffer) : list (list Buffer)
  by wf (List.length nodes) lt :=
  createHashes nodes with le_lt_dec (List.length nodes) 1 => {
    | left _ => [nodes];
    | right _ => nodes :: createHashes (nextLayer nodes) }.
Proof.
  assert (H : forall n (l : list Buffer), List.length l <= n -> List.length (nextLayer l) <= List.length l).
  { induction n as [|n IH]; intros [|a [|b r]] Hl; simpl in *; try lia.
    specialize (IH r). lia. }
  destruct nodes as [|a [|b r]]; simpl in *; try lia.
  specialize (H (List.length r) r). lia.
Qed.

Record MerkleTree : Type := mkTree {
  leaves : list Buffer;
  layers : list (list Buffer)
}.

Definition newMerkleTree (lvs : list Buffer) : MerkleTree :=
  {| leaves := lvs; layers := createHashes lvs |}.

(** Modelled from the spec: the root, absent from src/; the first node of
    the top level, and the empty buffer when there is none
    ([this.layers[this.layers.length - 1][0] || Buffer.from([])]). *)
Definition getRoot (t : MerkleTree) : Buffer :=
  nth 0 (last (layers t) []) [].

(** Modelled from the spec: the index search of [getProof], absent from
    src/; the loop has no [break], so the last matching leaf wins; [None]
    is the initial [-1]. *)
Fixpoint findIndex (leaf : Buffer) (lvs : list Buffer) (i : nat) (index : option nat)
  : option nat :=
  match lvs with
  | [] => index
  | x :: rest =>
      findIndex leaf rest (S i)
        (match Buffer_compare leaf x with Eq => Some i | _ => index end)
  end.

(** [pairIndex = isRightNode ? index - 1 : index + 1] *)
Definition pairIndex (index : nat) : nat :=
  if Nat.odd index then index - 1 else index + 1.

(** Modelled from the spec: the inclusion proof, absent from src/; level
    by level from the leaves up, the sibling of the node on the path when
    there is one. *)
Fixpoint proofLoop (lys : list (list Buffer)) (index : nat) : list Buffer :=
  match lys with
  | [] => []
  | layer :: rest =>
      (match nth_error layer (pairIndex index) with
       | Some data => [data]
       | None => []
       end) ++ proofLoop rest (index / 2)
  end.

Definition getProof (t : MerkleTree) (leaf : Buffer) : list Buffer :=
  match findIndex leaf (leaves t) 0 None with
  | None => []
  | Some index => proofLoop (layers t) index
  end.

Definition getHexProof (t : MerkleTree) (leaf : Buffer) : list string :=
  map bufferToHex (getProof t leaf).

(** Recomputing a root from a leaf and its proof, the way the
    specification words it: each sibling in turn is combined with the
    running hash, the two sorted by byte value first. *)
Definition foldProof (proof : list Buffer) (leaf : Buffer) : Buffer :=
  fold_left combine proof leaf.

End WithHash.
End MerkleTreeJs.

(** ** JavaScript strings and the values of a JSON body

    A JavaScript string is a sequence of UTF-16 code units.  The texts the
    relayer measures, cuts or encodes are held that way; the texts it only
    compares or hands on are held as [string]. *)

Definition JsString : Type := list N.

(** A text of ASCII characters as code units. *)
Definition ascii_units (s : string) : JsString :=
  map N_of_ascii (list_ascii_of_string s).

Definition byte_of_N (n : N) : byte :=
  match Byte.of_N n with
  | Some b => b
  | None => x00
  end.

Definition is_high_surrogate (c : N) : bool := ((0xD800 <=? c) && (c <=? 0xDBFF))%N.

Definition is_low_surrogate (c : N) : bool := ((0xDC00 <=? c) && (c <=? 0xDFFF))%N.

(** UTF-8 of one code point. *)
Definition utf8_of_code_point (p : N) : Buffer :=
  (if p <? 0x80 then [byte_of_N p]
   else if p <? 0x800 then
     [byte_of_N (0xC0 + p / 64); byte_of_N (0x80 + p mod 64)]
   else if p <? 0x10000 then
     [byte_of_N (0xE0 + p / 4096); byte_of_N (0x80 + p / 64 mod 64);
      byte_of_N (0x80 + p mod 64)]
   else
     [byte_of_N (0xF0 + p / 262144); byte_of_N (0x80 + p / 4096 mod 64);
      byte_of_N (0x80 + p / 64 mod 64); byte_of_N (0x80 + p mod 64)])%N.

(** The code point of a surrogate pair. *)
Definition code_point_of_pair (hi lo : N) : N :=
  (0x10000 + (hi - 0xD800) * 0x400 + (lo - 0xDC00))%N.

(** The UTF-8 bytes of a text: a surrogate pair is one code point, and a
    surrogate without its partner is written as U+FFFD.  This is what Node
    sends for a string. *)
Fixpoint utf8 (s : JsString) : Buffer :=
  match s with
  | [] => []
  | c :: rest =>
      if is_high_surrogate c then
        match rest with
        | c2 :: rest' =>
            if is_low_surrogate c2
            then utf8_of_code_point (code_point_of_pair c c2) ++ utf8 rest'
            else utf8_of_code_point 0xFFFD ++ utf8 rest
        | [] => utf8_of_code_point 0xFFFD
        end
      else if is_low_surrogate c then utf8_of_code_point 0xFFFD ++ utf8 rest
      else utf8_of_code_point c ++ utf8 rest
  end.

(** A text as the bytes sent for it. *)
Definition print (s : JsString) : string := string_of_list_byte (utf8 s).

(** Code units below 2^16 and every surrogate with its partner. *)
Fixpoint well_formed (s : JsString) : bool :=
  match s with
  | [] => true
  | c :: rest =>
      (c <? 0x10000)%N &&
      (if is_high_surrogate c then
         match rest with
         | c2 :: rest' => is_low_surrogate c2 && well_formed rest'
         | [] => false
         end
       else negb (is_low_surrogate c) && well_formed rest)
  end.

(** A value of a parsed JSON body, as far as the routes tell values apart:
    a string by its code units; a number, an array and an object by their
    JSON text and by what the route finds out about them (whether the
    number is 0, whether the array has no items, whether [0 < obj.length]
    holds of the object). *)
Inductive JsValue : Type :=
| JsUndefined                                    (* no such field *)
| JsNull
| JsBool (b : bool)
| JsNum (text : string) (zero : bool)
| JsStr (s : JsString)
| JsArr (text : string) (empty : bool)
| JsObj (text : string) (length_positive : bool).

(** [!!v] *)
Definition truthy (v : JsValue) : bool :=
  match v with
  | JsUndefined | JsNull => false
  | JsBool b => b
  | JsNum _ zero => negb zero
  | JsStr [] => false
  | JsStr (_ :: _) => true
  | JsArr _ _ | JsObj _ _ => true
  end.

(** ** The outside world

    A handler talks to three parties: the ledger (through the provider and
    the contract object [voting] / [contract]), the registry (RNP, over
    HTTP) and the participation file.  What those parties answer is fixed by
    a [World]; what the handler asks of them, in order, is its trace.
    Console output is not part of the trace. *)

(** A thrown JavaScript value, with the fields the handlers read. *)
Record Exn : Type := mkExn {
  exn_code : string;             (* e.code *)
  exn_data : string;             (* e.data *)
  exn_error_message : string;    (* e.error.message, empty when absent *)
  exn_reason : string;           (* e.reason, empty when absent *)
  exn_message : option string    (* e.message, None when it is not a string *)
}.

(** [new Error(msg)] and the errors thrown by the libraries. *)
Definition Error (msg : string) : Exn :=
  {| exn_code := ""; exn_data := ""; exn_error_message := "";
     exn_reason := ""; exn_message := Some msg |}.

Inductive Outcome (A : Type) : Type :=
| Returns (a : A)
| Throws (e : Exn).
Arguments Returns {A} a.
Arguments Throws {A} e.

Record Receipt : Type := mkReceipt { transactionHash : string }.

(** A transaction response: [tx.hash] and what [await tx.wait()] does. *)
Record Tx : Type := mkTx {
  tx_hash : string;
  tx_wait : Outcome Receipt
}.

(** An HTTP response as [fetch] returns it: [r.ok], [r.status], the text
    [r.text()] gives and that text parsed, [None] when it is not JSON. *)
Record HttpResponse (J : Type) : Type := mkHttp {
  http_ok : bool;
  http_status : string;
  http_text : JsString;
  http_parsed : option J
}.

(** The reply of [POST /verify]; an absent or empty salt is the empty
    string. *)
Record VerifyReply : Type := mkVerify {
  verify_match : bool;
  verify_salt : string
}.

(** The reply of [GET /leaves]; [None] when it has no [leaves] array. *)
Record LeavesReply : Type := mkLeaves { reply_leaves : option (list string) }.

(** The reply of [GET /root?electionId=]; an absent root is the empty
    string. *)
Record RootReply : Type := mkRootReply { reply_root : string }.

Record World : Type := mkWorld {
  (* configuration *)
  RNP_URL : string;
  PROVIDER_URL : string;
  voting_address : string;
  abi : list string;               (* the signatures of contractCfg.abi *)
  (* ledger node and contract *)
  getCode : Outcome string;
  currentElectionId : Outcome N;
  getCurrentElectionId : Outcome N;
  merkleRootOf : N -> Outcome string;
  hasVoted : N -> string -> Outcome bool;
  setCurrentElectionMerkleRoot : string -> Outcome Tx;
  voteWithNullifier4 : string -> Z -> list string -> string -> Outcome Tx;
  voteWithNullifier2 : string -> Z -> Outcome Tx;
  (* registry *)
  rnp_verify : JsValue -> JsValue -> Outcome (HttpResponse VerifyReply);
  rnp_leaves : Outcome (HttpResponse LeavesReply);
  rnp_root : N -> Outcome (HttpResponse RootReply)
}.

Inductive Event : Type :=
| ProviderGetCode
| CallCurrentElectionId
| CallGetCurrentElectionId
| CallMerkleRootOf (eid : N)
| CallHasVoted (eid : N) (nullifier : string)
| SendSetCurrentElectionMerkleRoot (root : string)
| SendVoteWithNullifier4 (nullifier : string) (candidateId : Z)
                         (proof : list string) (leaf : string)
| SendVoteWithNullifier2 (nullifier : string) (candidateId : Z)
| TxWait (hash : string)
| RegistryVerify (dni fingerprint : JsValue)
| RegistryLeaves
| RegistryRoot (eid : N)
| AppendParticipation (dni : JsValue) (txHash : string).

(** The ledger calls that change ledger state: root publication and vote
    submission. *)
Definition state_mutating (e : Event) : bool :=
  match e with
  | SendSetCurrentElectionMerkleRoot _
  | SendVoteWithNullifier4 _ _ _ _
  | SendVoteWithNullifier2 _ _ => true
  | _ => false
  end.

(** The calls on the ledger contract, reading or writing;
    [provider.getCode] asks the node, not the contract. *)
Definition contract_call (e : Event) : bool :=
  match e with
  | CallCurrentElectionId | CallGetCurrentElectionId
  | CallMerkleRootOf _ | CallHasVoted _ _
  | SendSetCurrentElectionMerkleRoot _
  | SendVoteWithNullifier4 _ _ _ _
  | SendVoteWithNullifier2 _ _
  | TxWait _ => true
  | _ => false
  end.

(** ** Responses *)

Inductive JsonValue : Type :=
| JString (s : string)
| JNumber (n : Z)
| JBool (b : bool).

Inductive Body : Type :=
| Send (text : string)                          (* res.send(text) *)
| Json (fields : list (string * JsonValue)).    (* res.json({...}) *)

Record Response : Type := mkResponse {
  status : nat;
  body : Body
}.

(** ** Handler bodies

    A handler body runs to a value, to an early [return res...] or to a
    throw, and leaves a trace. *)

Inductive Exit (A : Type) : Type :=
| Value (a : A)
| Respond (r : Response)
| Raise (e : Exn).
Arguments Value {A} a.
Arguments Respond {A} r.
Arguments Raise {A} e.

Definition Handler (A : Type) : Type := (list Event * Exit A)%type.

Definition ret {A} (a : A) : Handler A := ([], Value a).

Definition bind {A B} (m : Handler A) (f : A -> Handler B) : Handler B :=
  match m with
  | (t, Value a) => let (t', x) := f a in (t ++ t', x)
  | (t, Respond r) => (t, Respond r)
  | (t, Raise e) => (t, Raise e)
  end.

Declare Scope handler_scope.
Delimit Scope handler_scope with handler.
Notation "x <- m ;; k" := (bind m (fun x => k))
  (at level 61, m at next level, right associativity) : handler_scope.
Notation "m ;; k" := (bind m (fun _ => k))
  (at level 61, right associativity) : handler_scope.
Local Open Scope handler_scope.

(** [return res.status(s).send(text)] *)
Definition reject {A} (s : nat) (text : string) : Handler A :=
  ([], Respond {| status := s; body := Send text |}).

(** [return res.status(s).json({...})] *)
Definition reject_json {A} (s : nat) (fields : list (string * JsonValue)) : Handler A :=
  ([], Respond {| status := s; body := Json fields |}).

(** [if (c) return res.status(s).send(text)] *)
Definition when_ (c : bool) (s : nat) (text : string) : Handler unit :=
  if c then reject s text else ret tt.

Definition raise {A} (e : Exn) : Handler A := ([], Raise e).

(** [await] of a call on the outside world. *)
Definition call {A} (ev : Event) (o : Outcome A) : Handler A :=
  ([ev], match o with Returns a => Value a | Throws e => Raise e end).

(** A library call that throws on bad input. *)
Definition orThrow {A} (o : option A) (msg : string) : Handler A :=
  match o with
  | Some a => ret a
  | None => raise (Error msg)
  end.

(** A library call that returns or throws, and asks nothing of the outside
    world. *)
Definition attempt {A} (o : Outcome A) : Handler A :=
  ([], match o with Returns a => Value a | Throws e => Raise e end).

(** [try { body } catch (e) { handler(e) }] around a whole route. *)
Definition tryCatch (m : Handler Response) (h : Exn -> Response)
  : list Event * Response :=
  match m with
  | (t, Value r) => (t, r)
  | (t, Respond r) => (t, r)
  | (t, Raise e) => (t, h e)
  end.

(** JavaScript's [a || b] on strings. *)
Definition or_str (a b : string) : string :=
  match a with
  | EmptyString => b
  | _ => a
  end.

Definition str_truthy (s : string) : bool :=
  match s with
  | EmptyString => false
  | _ => true
  end.

(** [text.slice(0,200)] followed by ['...'] when [text.length > 200]: both
    count code units. *)
Definition excerpt (text : JsString) : JsString :=
  firstn 200 text ++ (if Nat.ltb 200 (List.length text) then ascii_units "..." else []).

(** [hasFn(sig)]: [!!voting.interface.functions[sig]] *)
Definition hasFn (W : World) (sig : string) : bool :=
  existsb (String.eqb sig) (abi W).

(** ** ethers utilities *)

(** [n] as [len] big-endian bytes. *)
Fixpoint be_bytes (len : nat) (n : N) : Buffer :=
  match len with
  | O => []
  | S k => be_bytes k (n / 256) ++ [Hex.byte_of_nibbles (n mod 256 / 16) (n mod 16)]
  end.

(** The two argument types the relayer packs. *)
Inductive SolidityValue : Type :=
| bytes32 (hex : string)
| uint256 (n : N).

(** [solidityPack] of one value: a [bytes32] must spell exactly 32 bytes, a
    [uint256] is padded to 32 bytes and must fit. *)
Definition pack1 (v : SolidityValue) : option Buffer :=
  match v with
  | bytes32 hex =>
      match arrayify hex with
      | Some b => if Nat.eqb (List.length b) 32 then Some b else None
      | None => None
      end
  | uint256 n =>
      if (n <? 2 ^ 256)%N then Some (be_bytes 32 n) else None
  end.

Fixpoint solidityPack (vs : list SolidityValue) : option Buffer :=
  match vs with
  | [] => Some []
  | v :: rest =>
      match pack1 v, solidityPack rest with
      | Some b, Some bs => Some (b ++ bs)
      | _, _ => None
      end
  end.

(** The loop of [ethers.utils.toUtf8Bytes] over [str.charCodeAt(i)] for
    [i < str.length]: one, two or three bytes for a code unit, four for a
    high surrogate with the low surrogate after it; a high surrogate without
    one throws ([None]). *)
Fixpoint toUtf8Bytes_units (str : JsString) : option Buffer :=
  match str with
  | [] => Some []
  | c :: rest =>
      if (c <? 0x80)%N then
        option_map (cons (byte_of_N c)) (toUtf8Bytes_units rest)
      else if (c <? 0x800)%N then
        option_map (fun b => byte_of_N (N.lor (N.shiftr c 6) 0xc0)
                             :: byte_of_N (N.lor (N.land c 0x3f) 0x80) :: b)
          (toUtf8Bytes_units rest)
      else if (N.land c 0xfc00 =? 0xd800)%N then
        match rest with
        | c2 :: rest' =>
            if (N.land c2 0xfc00 =? 0xdc00)%N then
              let pair := (0x10000 + N.shiftl (N.land c 0x03ff) 10 + N.land c2 0x03ff)%N in
              option_map (fun b => byte_of_N (N.lor (N.shiftr pair 18) 0xf0)
                                   :: byte_of_N (N.lor (N.land (N.shiftr pair 12) 0x3f) 0x80)
                                   :: byte_of_N (N.lor (N.land (N.shiftr pair 6) 0x3f) 0x80)
                                   :: byte_of_N (N.lor (N.land pair 0x3f) 0x80) :: b)
                (toUtf8Bytes_units rest')
            else None
        | [] => None
        end
      else
        option_map (fun b => byte_of_N (N.lor (N.shiftr c 12) 0xe0)
                             :: byte_of_N (N.lor (N.land (N.shiftr c 6) 0x3f) 0x80)
                             :: byte_of_N (N.lor (N.land c 0x3f) 0x80) :: b)
          (toUtf8Bytes_units rest)
  end.

(** [ethers.utils.toUtf8Bytes(v)] for whatever value it is handed: a value
    without [length], or with a length that is not positive, gives no
    bytes; an array with items or an object with a positive length has no
    [charCodeAt], and the call throws. *)
Definition toUtf8Bytes (v : JsValue) : Outcome Buffer :=
  match v with
  | JsStr s =>
      match toUtf8Bytes_units s with
      | Some b => Returns b
      | None => Throws (Error "invalid utf-8 string")
      end
  | JsUndefined => Throws (Error "Cannot read properties of undefined (reading 'length')")
  | JsNull => Throws (Error "Cannot read properties of null (reading 'length')")
  | JsBool _ | JsNum _ _ => Returns []
  | JsArr _ empty =>
      if empty then Returns [] else Throws (Error "str.charCodeAt is not a function")
  | JsObj _ length_positive =>
      if length_positive then Throws (Error "str.charCodeAt is not a function")
      else Returns []
  end.

(** [(await contract.m()).toNumber()] throws beyond 53 bits. *)
Definition toNumber (n : N) : option N :=
  if (n <? 2 ^ 53)%N then Some n else None.

(** [ethers.BigNumber.from(number)] throws outside the safe integers. *)
Definition BigNumber_from (z : Z) : option Z :=
  if ((- (2 ^ 53 - 1) <? z) && (z <? 2 ^ 53 - 1))%Z then Some z else None.

Section WithKeccak.

(** Keccak-256, shared by ethers and by the [keccak256] package. *)
Variable keccak : Buffer -> Buffer.

(** [ethers.utils.keccak256(bytes)] *)
Definition utils_keccak256 (data : Buffer) : string := hexlify (keccak data).

(** [ethers.utils.solidityKeccak256(types, values)] *)
Definition solidityKeccak256 (vs : list SolidityValue) : Handler string :=
  b <- orThrow (solidityPack vs) "invalid value for type" ;;
  ret (utils_keccak256 b).

End WithKeccak.

(** [appendParticipation] and other calls that return nothing and cannot
    throw. *)
Definition emit (ev : Event) : Handler unit := ([ev], Value tt).

(** [const msg = e?.error?.message || e?.reason || e?.message || fallback] *)
Definition error_text (e : Exn) (fallback : string) : string :=
  or_str (exn_error_message e)
    (or_str (exn_reason e)
       (or_str (match exn_message e with Some m => m | None => "" end) fallback)).

(** ** The variant with a Merkle accumulator *)

Module Merkle.
Section WithKeccak.

Variable keccak : Buffer -> Buffer.

(** [fetchJSON(url, opts)]: throws on a non-2xx status and on a body that is
    not JSON. *)
Definition fetchJSON {J : Type} (url : string) (r : Outcome (HttpResponse J))
  : Outcome J :=
  match r with
  | Throws e => Throws e
  | Returns r =>
      if negb (http_ok r) then
        Throws (Error ("HTTP " ++ http_status r ++ " " ++ url ++ ": "
                         ++ print (excerpt (http_text r)))%string)
      else
        match http_parsed r with
        | Some j => Returns j
        | None =>
            Throws (Error ("Respuesta no JSON desde " ++ url ++ ": "
                             ++ print (excerpt (http_text r)))%string)
        end
  end.

(** [getCurrentElectionIdSafe]: a CALL_EXCEPTION with empty data counts as
    election 0; a contract with neither getter has election 0. *)
Definition getCurrentElectionIdSafe (W : World) : Handler N :=
  let guarded (ev : Event) (o : Outcome N) : Handler N :=
    emit ev ;;
    match o with
    | Returns n => ret n
    | Throws e =>
        if String.eqb (exn_code e) "CALL_EXCEPTION" && String.eqb (exn_data e) "0x"
        then ret 0%N
        else raise e
    end in
  if hasFn W "currentElectionId()" then
    guarded CallCurrentElectionId (currentElectionId W)
  else if hasFn W "getCurrentElectionId()" then
    guarded CallGetCurrentElectionId (getCurrentElectionId W)
  else ret 0%N.

Record GlobalTree : Type := mkGlobalTree {
  tree : MerkleTreeJs.MerkleTree;
  root : string;
  leaves : list string
}.

(** [computeGlobalTree]: the registry's leaves, fetched afresh, and the tree
    over them. *)
Definition computeGlobalTree (W : World) : Handler GlobalTree :=
  reply <- call RegistryLeaves
             (fetchJSON (RNP_URL W ++ "/leaves")%string (rnp_leaves W)) ;;
  match reply_leaves reply with
  | None => raise (Error "Cannot read properties of undefined (reading 'map')")
  | Some leaves =>
      let tree := MerkleTreeJs.newMerkleTree keccak (map toBuf leaves) in
      let root := ("0x" ++ Hex.encode (MerkleTreeJs.getRoot tree))%string in
      ret {| tree := tree; root := root; leaves := leaves |}
  end.

(** [GET /merkle-root] *)
Definition merkle_root (W : World) : list Event * Response :=
  tryCatch
    (g <- computeGlobalTree W ;;
     ret {| status := 200;
            body := Json [("merkleRoot", JString (root g));
                          ("count", JNumber (Z.of_nat (List.length (leaves g))))] |})
    (fun _ => {| status := 500; body := Send "No se pudo calcular la Merkle root" |}).

(** [POST /admin/sync-root] *)
Definition sync_root (W : World) : list Event * Response :=
  tryCatch
    (code <- call ProviderGetCode (getCode W) ;;
     when_ (negb (str_truthy code) || String.eqb code "0x")
       500 "No hay contrato en la address configurada" ;;
     eid <- getCurrentElectionIdSafe W ;;
     when_ (N.eqb eid 0) 400 "No hay elección activa" ;;
     g <- computeGlobalTree W ;;
     when_ (negb (hasFn W "setCurrentElectionMerkleRoot(bytes32)"))
       500 "El contrato no expone setCurrentElectionMerkleRoot(bytes32)" ;;
     tx <- call (SendSetCurrentElectionMerkleRoot (root g))
             (setCurrentElectionMerkleRoot W (root g)) ;;
     _ <- call (TxWait (tx_hash tx)) (tx_wait tx) ;;
     ret {| status := 200;
            body := Json [("root", JString (root g));
                          ("txHash", JString (tx_hash tx))] |})
    (fun e => {| status := 400; body := Send (error_text e "Error") |}).

(** A request to [POST /vote/:candidateId]: [Number(req.params.candidateId)]
    ([None] is NaN) and the two body fields, whatever JSON values they are. *)
Record VoteRequest : Type := mkVoteRequest {
  candidateId : option Z;
  dni : JsValue;
  fingerprint : JsValue
}.

(** What the handler holds when it reaches the ledger checks. *)
Record Prepared : Type := mkPrepared {
  p_root : string;
  p_leaf : string;
  p_proof : list string;
  p_eId : N;
  p_nullifier : string
}.

(** Input check, contract sanity, 1) biometric verification and salt,
    2) global tree, leaf and proof, active election, nullifier. *)
Definition verify_and_prove (W : World) (req : VoteRequest) : Handler Prepared :=
  when_ (negb (truthy (dni req)) || negb (truthy (fingerprint req))
         || match candidateId req with None => true | Some _ => false end)
    400 "dni, fingerprint y candidateId requeridos" ;;
  code <- call ProviderGetCode (getCode W) ;;
  when_ (negb (str_truthy code) || String.eqb code "0x")
    500 "No hay contrato desplegado" ;;
  verify <- call (RegistryVerify (dni req) (fingerprint req))
              (fetchJSON (RNP_URL W ++ "/verify")%string
                 (rnp_verify W (dni req) (fingerprint req))) ;;
  when_ (negb (verify_match verify)) 401 "Biometría inválida o DNI no habilitado" ;;
  when_ (negb (str_truthy (verify_salt verify))) 502 "RNP no envió salt" ;;
  g <- computeGlobalTree W ;;
  dniBytes <- attempt (toUtf8Bytes (dni req)) ;;
  let dniHash := utils_keccak256 keccak dniBytes in
  leaf <- solidityKeccak256 keccak [bytes32 (verify_salt verify); bytes32 dniHash] ;;
  let inPadron :=
    existsb (fun x => String.eqb (Hex.toLowerCase x) (Hex.toLowerCase leaf)) (leaves g) in
  when_ (negb inPadron) 401 "No está en el padrón" ;;
  let proof := MerkleTreeJs.getHexProof (tree g) (toBuf leaf) in
  eId <- getCurrentElectionIdSafe W ;;
  when_ (N.eqb eId 0) 400 "No hay elección activa" ;;
  baseNull <- solidityKeccak256 keccak [bytes32 (verify_salt verify); bytes32 dniHash] ;;
  nullifier <- solidityKeccak256 keccak [uint256 eId; bytes32 baseNull] ;;
  ret {| p_root := root g; p_leaf := leaf; p_proof := proof;
         p_eId := eId; p_nullifier := nullifier |}.

(** 4) the on-chain root: unsupported, not set, or different. *)
Definition validate_root (W : World) (p : Prepared) : Handler unit :=
  when_ (negb (hasFn W "merkleRootOf(uint256)")
         && negb (hasFn W "setCurrentElectionMerkleRoot(bytes32)"))
    500 "El contrato no soporta Merkle root" ;;
  onchainRoot <- (if hasFn W "merkleRootOf(uint256)"
                  then call (CallMerkleRootOf (p_eId p)) (merkleRootOf W (p_eId p))
                  else ret HashZero) ;;
  when_ (String.eqb onchainRoot HashZero)
    400 "Merkle root no seteada en la elección actual" ;;
  when_ (negb (String.eqb (Hex.toLowerCase onchainRoot) (Hex.toLowerCase (p_root p))))
    400 "La Merkle root calculada no coincide con la on-chain. Ejecuta /admin/sync-root".

(** 5) the optional duplicate pre-check. *)
Definition precheck_duplicate (W : World) (p : Prepared) : Handler unit :=
  if hasFn W "hasVoted(uint256,bytes32)" then
    used <- call (CallHasVoted (p_eId p) (p_nullifier p))
              (hasVoted W (p_eId p) (p_nullifier p)) ;;
    when_ used 409 "Ya votaste en esta elección"
  else ret tt.

(** 6) the contract must expose the four-argument voteWithNullifier. *)
Definition require_vote_fn (W : World) : Handler unit :=
  when_ (negb (hasFn W "voteWithNullifier(bytes32,uint256,bytes32[],bytes32)"))
    500 "El contrato no expone voteWithNullifier(bytes32,uint256,bytes32[],bytes32)".

(** Everything the handler does before it sends the transaction. *)
Definition before_submission (W : World) (req : VoteRequest) : Handler Prepared :=
  p <- verify_and_prove W req ;;
  validate_root W p ;;
  precheck_duplicate W p ;;
  require_vote_fn W ;;
  ret p.

(** The transaction, its confirmation and the participation entry. *)
Definition submit (W : World) (req : VoteRequest) (p : Prepared) : Handler Response :=
  let cid := match candidateId req with Some c => c | None => 0%Z end in
  tx <- call (SendVoteWithNullifier4 (p_nullifier p) cid (p_proof p) (p_leaf p))
          (voteWithNullifier4 W (p_nullifier p) cid (p_proof p) (p_leaf p)) ;;
  _ <- call (TxWait (tx_hash tx)) (tx_wait tx) ;;
  emit (AppendParticipation (dni req) (tx_hash tx)) ;;
  ret {| status := 200; body := Json [("txHash", JString (tx_hash tx))] |}.

(** [POST /vote/:candidateId] *)
Definition vote (W : World) (req : VoteRequest) : list Event * Response :=
  tryCatch
    (p <- before_submission W req ;; submit W req p)
    (fun e => {| status := 400; body := Send (error_text e "Error del relayer") |}).

(** What the [app.listen] callback prints. *)
Inductive StartupLog : Type :=
| ContractOk (eId : N)          (* console.log("Contrato OK. currentElectionId:", ...) *)
| NoContract                    (* console.warn: no contract at the address *)
| CannotRead (e : Exn).         (* console.error: could not read the contract *)

(** The [app.listen] callback: the server listens whatever it finds. *)
Definition startup (W : World) : list Event * StartupLog :=
  match
    (code <- call ProviderGetCode (getCode W) ;;
     if negb (str_truthy code) || String.eqb code "0x" then ret NoContract
     else eId <- getCurrentElectionIdSafe W ;; ret (ContractOk eId))
  with
  | (t, Value l) => (t, l)
  | (t, Respond _) => (t, NoContract)
  | (t, Raise e) => (t, CannotRead e)
  end.

End WithKeccak.
End Merkle.

(** ** The variant without accumulator *)

Module Simple.
Section WithKeccak.

Variable keccak : Buffer -> Buffer.

(** [getCurrentElectionIdSafe], here without a [try]. *)
Definition getCurrentElectionIdSafe (W : World) : Handler N :=
  if hasFn W "currentElectionId()" then
    call CallCurrentElectionId (currentElectionId W)
  else if hasFn W "getCurrentElectionId()" then
    call CallGetCurrentElectionId (getCurrentElectionId W)
  else ret 0%N.

(** A request to [POST /vote]: the three body fields; [candidateId] is
    [None] when undefined, the other two are whatever JSON values they
    are. *)
Record VoteRequest : Type := mkVoteRequest {
  dni : JsValue;
  fingerprint : JsValue;
  candidateId : option Z
}.

Record Prepared : Type := mkPrepared {
  p_eId : N;
  p_nullifier : string
}.

(** Input check, 0) contract sanity, 1) biometric verification and salt,
    2) per-election nullifier. *)
Definition verify_and_derive (W : World) (req : VoteRequest) : Handler Prepared :=
  when_ (negb (truthy (dni req)) || negb (truthy (fingerprint req))
         || match candidateId req with None => true | Some _ => false end)
    400 "dni, fingerprint y candidateId requeridos" ;;
  code <- call ProviderGetCode (getCode W) ;;
  when_ (negb (str_truthy code) || String.eqb code "0x")
    500 ("No hay contrato en " ++ voting_address W ++ " sobre " ++ PROVIDER_URL W)%string ;;
  vr <- call (RegistryVerify (dni req) (fingerprint req))
          (rnp_verify W (dni req) (fingerprint req)) ;;
  when_ (negb (http_ok vr)) 502 "RNP-mock no disponible" ;;
  verify <- orThrow (http_parsed vr) "Unexpected token in JSON" ;;
  when_ (negb (verify_match verify)) 401 "Biometría inválida o DNI no habilitado" ;;
  when_ (negb (str_truthy (verify_salt verify))) 502 "RNP-mock no envió salt" ;;
  eId <- getCurrentElectionIdSafe W ;;
  dniBytes <- attempt (toUtf8Bytes (dni req)) ;;
  let dniHash := utils_keccak256 keccak dniBytes in
  baseNull <- solidityKeccak256 keccak [bytes32 (verify_salt verify); bytes32 dniHash] ;;
  nullifier <- solidityKeccak256 keccak [uint256 eId; bytes32 baseNull] ;;
  ret {| p_eId := eId; p_nullifier := nullifier |}.

(** The optional on-chain pre-check. *)
Definition precheck_duplicate (W : World) (p : Prepared) : Handler unit :=
  if hasFn W "hasVoted(uint256,bytes32)" then
    used <- call (CallHasVoted (p_eId p) (p_nullifier p))
              (hasVoted W (p_eId p) (p_nullifier p)) ;;
    when_ used 409 "Ya votaste en esta elección"
  else ret tt.

(** The contract must have the two-argument voteWithNullifier. *)
Definition require_vote_fn (W : World) : Handler unit :=
  when_ (negb (hasFn W "voteWithNullifier(bytes32,uint256)"))
    500 "El contrato no tiene voteWithNullifier(bytes32,uint256). Redeploy y actualiza contract.json".

(** Everything the handler does before it sends the transaction. *)
Definition before_submission (W : World) (req : VoteRequest) : Handler Prepared :=
  p <- verify_and_derive W req ;;
  precheck_duplicate W p ;;
  require_vote_fn W ;;
  ret p.

(** 3) the transaction and 4) the participation entry. *)
Definition submit (W : World) (req : VoteRequest) (p : Prepared) : Handler Response :=
  let cid := match candidateId req with Some c => c | None => 0%Z end in
  tx <- call (SendVoteWithNullifier2 (p_nullifier p) cid)
          (voteWithNullifier2 W (p_nullifier p) cid) ;;
  _ <- call (TxWait (tx_hash tx)) (tx_wait tx) ;;
  emit (AppendParticipation (dni req) (tx_hash tx)) ;;
  ret {| status := 200; body := Json [("txHash", JString (tx_hash tx))] |}.

(** [POST /vote]; the message falls back when [e.message] is not a string. *)
Definition vote (W : World) (req : VoteRequest) : list Event * Response :=
  tryCatch
    (p <- before_submission W req ;; submit W req p)
    (fun e => {| status := 400;
                 body := Send (or_str (exn_error_message e)
                                 (or_str (exn_reason e)
                                    (match exn_message e with
                                     | Some m => m
                                     | None => "Error del relayer"
                                     end))) |}).

(** What the [app.listen] callback prints. *)
Inductive StartupLog : Type :=
| ContractOk (eId : N)
| CannotRead (e : Exn).

Definition startup (W : World) : list Event * StartupLog :=
  match getCurrentElectionIdSafe W with
  | (t, Value eId) => (t, ContractOk eId)
  | (t, Respond _) => (t, ContractOk 0%N)
  | (t, Raise e) => (t, CannotRead e)
  end.

End WithKeccak.
End Simple.

(** ** src/index.js: leaf and proof come from the client

    The contract object is built from the ABI written in the file, so every
    method the handlers call exists. *)

Module ClientProof.

(** [fetchJSON] of this variant: a body that is not JSON becomes an object
    without the fields the caller reads. *)
Definition fetchJSON_root (r : Outcome (HttpResponse RootReply)) : Outcome RootReply :=
  match r with
  | Throws e => Throws e
  | Returns r =>
      match http_parsed r with
      | Some j => Returns j
      | None => Returns {| reply_root := "" |}
      end
  end.

(** [String(e)] of a thrown value. *)
Definition String_of_exn (e : Exn) : string :=
  match exn_message e with
  | Some m => ("Error: " ++ m)%string
  | None => "[object Object]"
  end.

(** [(await contract.currentElectionId()).toNumber()] *)
Definition currentElectionNumber (W : World) : Handler N :=
  n <- call CallCurrentElectionId (currentElectionId W) ;;
  orThrow (toNumber n) "overflow".

(** [POST /admin/sync-root]: the root comes from the registry and is sent
    only when the ledger holds a different one. *)
Definition sync_root (W : World) : list Event * Response :=
  tryCatch
    (eid <- currentElectionNumber W ;;
     (if N.eqb eid 0 then reject_json 400 [("error", JString "no-election")]
      else ret tt) ;;
     reply <- call (RegistryRoot eid) (fetchJSON_root (rnp_root W eid)) ;;
     let root := reply_root reply in
     (if negb (str_truthy root)
      then reject_json 500 [("error", JString "no-root-from-rnp")]
      else ret tt) ;;
     onchain <- call (CallMerkleRootOf eid) (merkleRootOf W eid) ;;
     if negb (String.eqb (Hex.toLowerCase onchain) (Hex.toLowerCase root)) then
       tx <- call (SendSetCurrentElectionMerkleRoot root)
               (setCurrentElectionMerkleRoot W root) ;;
       receipt <- call (TxWait (tx_hash tx)) (tx_wait tx) ;;
       ret {| status := 200;
              body := Json [("synced", JBool true);
                            ("electionId", JNumber (Z.of_N eid));
                            ("root", JString root);
                            ("txHash", JString (transactionHash receipt))] |}
     else
       ret {| status := 200;
              body := Json [("synced", JBool false);
                            ("electionId", JNumber (Z.of_N eid));
                            ("root", JString root)] |})
    (fun e => {| status := 500;
                 body := Json [("error", JString "sync-root-failed");
                               ("detail", JString (String_of_exn e))] |}).

(** A request to [POST /vote]: [candidateId] is [None] when undefined or
    null, [electionId] is [None] when absent, [proof] is [None] when it is
    not an array, the strings are empty when missing. *)
Record VoteRequest : Type := mkVoteRequest {
  candidateId : option Z;
  electionId : option Z;
  leaf : string;
  proof : option (list string);
  root : string
}.

(** [POST /vote] *)
Definition vote (W : World) (req : VoteRequest) : list Event * Response :=
  tryCatch
    (match candidateId req with
     | None => reject_json 400 [("error", JString "candidateId requerido")]
     | Some cid =>
     match str_truthy (leaf req), proof req with
     | true, Some prf =>
         eid <- currentElectionNumber W ;;
         (match electionId req with
          | Some e =>
              if negb (Z.eqb e 0) && negb (Z.eqb e (Z.of_N eid))
              then reject_json 400 [("error", JString "electionId mismatch")]
              else ret tt
          | None => ret tt
          end) ;;
         onchainRoot <- call (CallMerkleRootOf eid) (merkleRootOf W eid) ;;
         (if str_truthy (root req)
             && negb (String.eqb (Hex.toLowerCase (root req))
                        (Hex.toLowerCase onchainRoot))
          then reject_json 400 [("error", JString "root desincronizado")]
          else ret tt) ;;
         c <- orThrow (BigNumber_from cid) "overflow" ;;
         tx <- call (SendVoteWithNullifier4 HashZero c prf (leaf req))
                 (voteWithNullifier4 W HashZero c prf (leaf req)) ;;
         receipt <- call (TxWait (tx_hash tx)) (tx_wait tx) ;;
         ret {| status := 200;
                body := Json [("ok", JBool true);
                              ("txHash", JString (transactionHash receipt));
                              ("electionId", JNumber (Z.of_N eid));
                              ("root", JString onchainRoot)] |}
     | _, _ => reject_json 400 [("error", JString "leaf y proof requeridos")]
     end
     end)
    (fun e => {| status := 500;
                 body := Json [("error", JString "vote-failed");
                               ("detail", JString (String_of_exn e))] |}).

End ClientProof.

(** ** Vocabulary of the properties *)

(** A handler body fails when it ends in an early [return res...] or in a
    throw instead of running through. *)
Definition fails {A : Type} (m : Handler A) : Prop :=
  forall a, snd m <> Value a.

(** No root publication and no vote submission in a trace. *)
Definition no_state_mutation (t : list Event) : Prop :=
  Forall (fun e => state_mutating e = false) t.

(** No call on the ledger contract at all. *)
Definition no_contract_call (t : list Event) : Prop :=
  Forall (fun e => contract_call e = false) t.

(** The calls that reach the ledger: those on the contract and the reading
    of its code from the node. *)
Definition ledger_call (e : Event) : bool :=
  match e with
  | ProviderGetCode => true
  | _ => contract_call e
  end.

(** No call that reaches the ledger. *)
Definition no_ledger_call (t : list Event) : Prop :=
  Forall (fun e => ledger_call e = false) t.

(** A body that changes nothing on the ledger. *)
Definition quiet {A : Type} (m : Handler A) : Prop := no_state_mutation (fst m).

(** A body whose early returns are all error responses. *)
Definition polite {A : Type} (m : Handler A) : Prop :=
  forall r, snd m = Respond r -> status r <> 200.

(** The nullifier as the data model words it,
    [hash(electionId, hash(salt, hash(identityKey)))], the election id being
    a 256-bit big-endian word and the identity key, a text, its UTF-8
    bytes. *)
Definition spec_nullifier (keccak : Buffer -> Buffer)
  (electionId : N) (salt : Buffer) (identityKey : JsString) : Buffer :=
  keccak (be_bytes 32 electionId ++ keccak (salt ++ keccak (utf8 identityKey))).

(** The leaf as the data model words it, [hash(salt, hash(identityKey))]. *)
Definition spec_leaf (keccak : Buffer -> Buffer)
  (salt : Buffer) (identityKey : JsString) : Buffer :=
  keccak (salt ++ keccak (utf8 identityKey)).

(** The text a key is hashed as: its own when it is a string; the empty
    text when it is a value of which [toUtf8Bytes] finds no character. *)
Definition hashed_text (key : JsValue) : JsString :=
  match key with
  | JsStr s => s
  | _ => []
  end.

(** A key that is not a string, or is a string of well-formed text. *)
Definition proper_text (key : JsValue) : bool :=
  match key with
  | JsStr s => well_formed s
  | _ => true
  end.

(** What ethers' and the standard's tests of a code unit have to agree on,
    for one code unit. *)
Definition surrogate_tests_agree (c : N) : bool :=
  Bool.eqb (N.land c 0xfc00 =? 0xd800)%N (is_high_surrogate c)
  && Bool.eqb (N.land c 0xfc00 =? 0xdc00)%N (is_low_surrogate c).

(** [f] holds of every number whose binary spelling is that of [prefix]
    followed by [bits] more digits. *)
Fixpoint all_below (bits : nat) (f : N -> bool) (prefix : N) : bool :=
  match bits with
  | O => f prefix
  | S k => all_below k f (2 * prefix)%N && all_below k f (2 * prefix + 1)%N
  end.

(** What setting the marker bits of a byte comes to, for one payload. *)
Definition marker_bits_agree (y : N) : bool :=
  ((N.lor y 0x80 =? 0x80 + y) && (N.lor (y / 2) 0xc0 =? 0xC0 + y / 2)
   && (N.lor (y / 4) 0xe0 =? 0xE0 + y / 4) && (N.lor (y / 8) 0xf0 =? 0xF0 + y / 8))%N.

(** ** Worked examples

    A 32-byte checksum stands in for Keccak-256 where an example has to be
    evaluated. *)

Definition sample_hash (b : Buffer) : Buffer :=
  let s := fold_left (fun acc x => ((acc * 131 + Byte.to_N x + 7) mod 2 ^ 64)%N) b 1%N in
  map (fun i => let w := ((s * (2 * i + 3) + i) mod 2 ^ 64 / 2 ^ 24)%N in
                Hex.byte_of_nibbles (w mod 256 / 16) (w mod 16))
      (map N.of_nat (seq 0 32)).

Definition sample_tx : Tx :=
  {| tx_hash := "0xfeed"; tx_wait := Returns {| transactionHash := "0xfeed" |} |}.

Definition sample_salt : string :=
  "0x1111111111111111111111111111111111111111111111111111111111111111".

Definition sample_dni : JsString := ascii_units "0801199912345".

(** The leaf of voter [sample_dni] under [sample_salt] and [sample_hash]. *)
Definition sample_leaf : string :=
  Eval vm_compute in
    match arrayify sample_salt with
    | Some salt => hexlify (spec_leaf sample_hash salt sample_dni)
    | None => ""
    end.

Definition sample_leaves : list string :=
  [ "0x2222222222222222222222222222222222222222222222222222222222222222";
    sample_leaf;
    "0x3333333333333333333333333333333333333333333333333333333333333333" ].

Definition full_abi : list string :=
  [ "currentElectionId()";
    "merkleRootOf(uint256)";
    "setCurrentElectionMerkleRoot(bytes32)";
    "hasVoted(uint256,bytes32)";
    "voteWithNullifier(bytes32,uint256,bytes32[],bytes32)";
    "voteWithNullifier(bytes32,uint256)" ].

(** A deployed contract with election 1 open, a registry that answers every
    verification with [matches] and [sample_salt], and a ledger that holds
    [onchainRoot] and accepts every transaction. *)
Definition sample_world (signatures : list string) (eligible : list string)
  (onchainRoot : string) (matches : bool) : World :=
  {| RNP_URL := "http://127.0.0.1:4000";
     PROVIDER_URL := "http://127.0.0.1:8545";
     voting_address := "0x5FbDB2315678afecb367f032d93F642f64180aa3";
     abi := signatures;
     getCode := Returns "0x6080";
     currentElectionId := Returns 1%N;
     getCurrentElectionId := Returns 1%N;
     merkleRootOf := fun _ => Returns onchainRoot;
     hasVoted := fun _ _ => Returns false;
     setCurrentElectionMerkleRoot := fun _ => Returns sample_tx;
     voteWithNullifier4 := fun _ _ _ _ => Returns sample_tx;
     voteWithNullifier2 := fun _ _ => Returns sample_tx;
     rnp_verify := fun _ _ =>
       Returns {| http_ok := true; http_status := "200"; http_text := [];
                  http_parsed := Some {| verify_match := matches;
                                         verify_salt := sample_salt |} |};
     rnp_leaves :=
       Returns {| http_ok := true; http_status := "200"; http_text := [];
                  http_parsed := Some {| reply_leaves := Some eligible |} |};
     rnp_root := fun _ =>
       Returns {| http_ok := true; http_status := "200"; http_text := [];
                  http_parsed := Some {| reply_root := onchainRoot |} |} |}.

(** The root [computeGlobalTree] finds for [sample_leaves]. *)
Definition sample_root : string :=
  Eval vm_compute in
    ("0x" ++ Hex.encode
       (MerkleTreeJs.getRoot
          (MerkleTreeJs.newMerkleTree sample_hash (map toBuf sample_leaves))))%string.

Definition sample_request : Merkle.VoteRequest :=
  {| Merkle.candidateId := Some 2%Z; Merkle.dni := JsStr sample_dni;
     Merkle.fingerprint := JsStr (ascii_units "loop-whorl-arch") |}.

Definition sample_simple_request : Simple.VoteRequest :=
  {| Simple.candidateId := Some 2%Z; Simple.dni := JsStr sample_dni;
     Simple.fingerprint := JsStr (ascii_units "loop-whorl-arch") |}.

(** The nullifier of [sample_dni] in election 1. *)
Definition sample_nullifier : string :=
  Eval vm_compute in
    match arrayify sample_salt with
    | Some salt => hexlify (spec_nullifier sample_hash 1 salt sample_dni)
    | None => ""
    end.

Definition other_request : Merkle.VoteRequest :=
  {| Merkle.candidateId := Some 7%Z; Merkle.dni := JsStr sample_dni;
     Merkle.fingerprint := JsStr (ascii_units "tented-arch") |}.

Definition other_simple_request : Simple.VoteRequest :=
  {| Simple.candidateId := Some 7%Z; Simple.dni := JsStr sample_dni;
     Simple.fingerprint := JsStr (ascii_units "tented-arch") |}.

(** What the vote route holds for [sample_request] once membership is
    established. *)
Definition sample_prepared : Merkle.Prepared :=
  {| Merkle.p_root := sample_root;
     Merkle.p_leaf := sample_leaf;
     Merkle.p_proof :=
       [ "0x2222222222222222222222222222222222222222222222222222222222222222";
         "0x3333333333333333333333333333333333333333333333333333333333333333" ];
     Merkle.p_eId := 1%N;
     Merkle.p_nullifier := sample_nullifier |}.

(** A contract that can publish a root but not read it back. *)
Definition abi_without_root_getter : list string :=
  [ "currentElectionId()";
    "setCurrentElectionMerkleRoot(bytes32)";
    "hasVoted(uint256,bytes32)";
    "voteWithNullifier(bytes32,uint256,bytes32[],bytes32)" ].

(** A contract without any voteWithNullifier. *)
Definition abi_without_vote : list string :=
  [ "currentElectionId()";
    "merkleRootOf(uint256)";
    "setCurrentElectionMerkleRoot(bytes32)";
    "hasVoted(uint256,bytes32)" ].

Definition stale_root : string :=
  "0xdeadbeefdeadbeefdeadbeefdeadbeefdeadbeefdeadbeefdeadbeefdeadbeef".

(** Four ledgers for the same registry: no root getter, no root set, an
    outdated root, the current root. *)
Definition world_root_absent : World :=
  sample_world abi_without_root_getter sample_leaves sample_root true.

Definition world_root_zero : World :=
  sample_world full_abi sample_leaves HashZero true.

Definition world_root_stale : World :=
  sample_world full_abi sample_leaves stale_root true.

Definition world_synced : World :=
  sample_world full_abi sample_leaves sample_root true.

(** A registry with a single enabled voter, whose leaf is then the root
    whatever the hash function, and a ledger that already holds it. *)
Definition single_leaf : string :=
  "0x2222222222222222222222222222222222222222222222222222222222222222".

Definition world_single_synced : World :=
  sample_world full_abi [single_leaf] single_leaf true.

(** A registry that does not recognise the voter. *)
Definition world_no_match : World :=
  sample_world full_abi sample_leaves sample_root false.

(** The same world behind a contract object built from other signatures. *)
Definition with_abi (W : World) (signatures : list string) : World :=
  {| RNP_URL := RNP_URL W;
     PROVIDER_URL := PROVIDER_URL W;
     voting_address := voting_address W;
     abi := signatures;
     getCode := getCode W;
     currentElectionId := currentElectionId W;
     getCurrentElectionId := getCurrentElectionId W;
     merkleRootOf := merkleRootOf W;
     hasVoted := hasVoted W;
     setCurrentElectionMerkleRoot := setCurrentElectionMerkleRoot W;
     voteWithNullifier4 := voteWithNullifier4 W;
     voteWithNullifier2 := voteWithNullifier2 W;
     rnp_verify := rnp_verify W;
     rnp_leaves := rnp_leaves W;
     rnp_root := rnp_root W |}.

(** The same world with a ledger that holds other roots. *)
Definition with_merkleRootOf (W : World) (roots : N -> Outcome string) : World :=
  {| RNP_URL := RNP_URL W;
     PROVIDER_URL := PROVIDER_URL W;
     voting_address := voting_address W;
     abi := abi W;
     getCode := getCode W;
     currentElectionId := currentElectionId W;
     getCurrentElectionId := getCurrentElectionId W;
     merkleRootOf := roots;
     hasVoted := hasVoted W;
     setCurrentElectionMerkleRoot := setCurrentElectionMerkleRoot W;
     voteWithNullifier4 := voteWithNullifier4 W;
     voteWithNullifier2 := voteWithNullifier2 W;
     rnp_verify := rnp_verify W;
     rnp_leaves := rnp_leaves W;
     rnp_root := rnp_root W |}.

(** A registry with no enabled voter yet. *)
Definition world_empty : World := sample_world full_abi [] HashZero true.

(** Contracts without a voteWithNullifier, before a registry that knows the
    voter and before one that does not. *)
Definition world_no_vote_fn : World :=
  sample_world abi_without_vote sample_leaves sample_root true.

Definition world_no_vote_fn_no_match : World :=
  sample_world abi_without_vote sample_leaves sample_root false.

Definition sample_client_request : ClientProof.VoteRequest :=
  {| ClientProof.candidateId := Some 2%Z;
     ClientProof.electionId := Some 1%Z;
     ClientProof.leaf := sample_leaf;
     ClientProof.proof :=
       Some [ "0x2222222222222222222222222222222222222222222222222222222222222222";
              "0x3333333333333333333333333333333333333333333333333333333333333333" ];
     ClientProof.root := sample_root |}.

(** An event that is not a vote transaction with a nullifier other than the
    zero hash. *)
Definition carries_zero_nullifier (e : Event) : Prop :=
  match e with
  | SendVoteWithNullifier4 n _ _ _ => n = HashZero
  | SendVoteWithNullifier2 n _ => n = HashZero
  | _ => True
  end.

(** The 32 bytes [sample_salt] spells. *)
Definition sample_salt_bytes : Buffer := repeat x11 32.

(** Requests whose identity key is a JSON number. *)
Definition numeric_simple_request : Simple.VoteRequest :=
  {| Simple.candidateId := Some 2%Z; Simple.dni := JsNum "801199912345" false;
     Simple.fingerprint := JsStr (ascii_units "loop-whorl-arch") |}.

Definition other_numeric_simple_request : Simple.VoteRequest :=
  {| Simple.candidateId := Some 2%Z; Simple.dni := JsNum "501197054321" false;
     Simple.fingerprint := JsStr (ascii_units "tented-arch") |}.

(** The nullifier of the empty text in election 1. *)
Definition sample_nullifier_of_no_text : string :=
  Eval vm_compute in hexlify (spec_nullifier sample_hash 1 sample_salt_bytes []).

(** The steps of a vote route that come before its look at the vote
    signature. *)
Definition Merkle_earlier_steps (keccak : Buffer -> Buffer) (W : World)
  (req : Merkle.VoteRequest) : Handler Merkle.Prepared :=
  p <- Merkle.verify_and_prove keccak W req ;;
  Merkle.validate_root W p ;;
  Merkle.precheck_duplicate W p ;;
  ret p.

Definition Simple_earlier_steps (keccak : Buffer -> Buffer) (W : World)
  (req : Simple.VoteRequest) : Handler Simple.Prepared :=
  p <- Simple.verify_and_derive keccak W req ;;
  Simple.precheck_duplicate W p ;;
  ret p.

(** A voter the registry recognises but whose leaf is not in its list. *)
Definition stranger_request : Merkle.VoteRequest :=
  {| Merkle.candidateId := Some 2%Z; Merkle.dni := JsStr (ascii_units "0501197054321");
     Merkle.fingerprint := JsStr (ascii_units "tented-arch") |}.

(** ** More vocabulary *)

(** An event that only asks: no transaction, no wait for one, no
    participation entry. *)
Definition only_asks (e : Event) : Prop :=
  match e with
  | SendSetCurrentElectionMerkleRoot _
  | SendVoteWithNullifier4 _ _ _ _
  | SendVoteWithNullifier2 _ _
  | TxWait _
  | AppendParticipation _ _ => False
  | _ => True
  end.

(** The state-mutating ledger calls of a trace, in order. *)
Definition mutations (t : list Event) : list Event := filter state_mutating t.

(** [s] starts with an upper-case hexadecimal prefix ["0X"]. *)
Definition upper_prefixed (s : string) : bool :=
  match s with
  | String "0" (String "X" _) => true
  | _ => false
  end.

(** The same world with a registry that answers 503 to everything. *)
Definition registry_down (W : World) : World :=
  {| RNP_URL := RNP_URL W;
     PROVIDER_URL := PROVIDER_URL W;
     voting_address := voting_address W;
     abi := abi W;
     getCode := getCode W;
     currentElectionId := currentElectionId W;
     getCurrentElectionId := getCurrentElectionId W;
     merkleRootOf := merkleRootOf W;
     hasVoted := hasVoted W;
     setCurrentElectionMerkleRoot := setCurrentElectionMerkleRoot W;
     voteWithNullifier4 := voteWithNullifier4 W;
     voteWithNullifier2 := voteWithNullifier2 W;
     rnp_verify := fun _ _ =>
       Returns {| http_ok := false; http_status := "503";
                  http_text := ascii_units "Service Unavailable"; http_parsed := None |};
     rnp_leaves :=
       Returns {| http_ok := false; http_status := "503";
                  http_text := ascii_units "Service Unavailable"; http_parsed := None |};
     rnp_root := fun _ =>
       Returns {| http_ok := false; http_status := "503";
                  http_text := ascii_units "Service Unavailable"; http_parsed := None |} |}.

(** The same world with election getters that answer [o]. *)
Definition with_election (W : World) (o : Outcome N) : World :=
  {| RNP_URL := RNP_URL W;
     PROVIDER_URL := PROVIDER_URL W;
     voting_address := voting_address W;
     abi := abi W;
     getCode := getCode W;
     currentElectionId := o;
     getCurrentElectionId := o;
     merkleRootOf := merkleRootOf W;
     hasVoted := hasVoted W;
     setCurrentElectionMerkleRoot := setCurrentElectionMerkleRoot W;
     voteWithNullifier4 := voteWithNullifier4 W;
     voteWithNullifier2 := voteWithNullifier2 W;
     rnp_verify := rnp_verify W;
     rnp_leaves := rnp_leaves W;
     rnp_root := rnp_root W |}.

(** The error of a call on a contract that has no code or no such
    function: CALL_EXCEPTION with empty data. *)
Definition empty_call_exception : Exn :=
  {| exn_code := "CALL_EXCEPTION"; exn_data := "0x"; exn_error_message := "";
     exn_reason := ""; exn_message := Some "call revert exception" |}.

(** A contract whose ABI has no getter for the current election. *)
Definition abi_without_election : list string :=
  [ "merkleRootOf(uint256)";
    "setCurrentElectionMerkleRoot(bytes32)";
    "hasVoted(uint256,bytes32)";
    "voteWithNullifier(bytes32,uint256,bytes32[],bytes32)";
    "voteWithNullifier(bytes32,uint256)" ].

(** An event other than a duplicate pre-check. *)
Definition not_hasVoted (e : Event) : Prop :=
  match e with
  | CallHasVoted _ _ => False
  | _ => True
  end.

(** The same world with a ledger on which every nullifier was used. *)
Definition already_voted (W : World) : World :=
  {| RNP_URL := RNP_URL W;
     PROVIDER_URL := PROVIDER_URL W;
     voting_address := voting_address W;
     abi := abi W;
     getCode := getCode W;
     currentElectionId := currentElectionId W;
     getCurrentElectionId := getCurrentElectionId W;
     merkleRootOf := merkleRootOf W;
     hasVoted := fun _ _ => Returns true;
     setCurrentElectionMerkleRoot := setCurrentElectionMerkleRoot W;
     voteWithNullifier4 := voteWithNullifier4 W;
     voteWithNullifier2 := voteWithNullifier2 W;
     rnp_verify := rnp_verify W;
     rnp_leaves := rnp_leaves W;
     rnp_root := rnp_root W |}.

(** The nullifier of [sample_dni] for election 0. *)
Definition sample_nullifier_0 : string :=
  Eval vm_compute in
    match arrayify sample_salt with
    | Some salt => hexlify (spec_nullifier sample_hash 0 salt sample_dni)
    | None => ""
    end.

(** A contract with the two-argument vote and nothing to tell the current
    election. *)
Definition abi_vote_only : list string :=
  [ "hasVoted(uint256,bytes32)"; "voteWithNullifier(bytes32,uint256)" ].

(** ** The participation file

    [data/participation.json], as [appendParticipation] and
    [GET /participation] see it.  Both variants with that file have the same
    code for it. *)

Module Participation.

(** An element of the array in the file: an entry this code wrote, or any
    other JSON value, kept as it is. *)
Inductive Item : Type :=
| Entry (dni : JsValue) (txHash at_ : string)
| Foreign (json : string).

(** What [fs.existsSync] and [fs.readFileSync] followed by
    [JSON.parse(text || "[]")] find. *)
Inductive File : Type :=
| Absent                       (* existsSync is false *)
| Unreadable                   (* readFileSync throws *)
| Blank                        (* the empty text, read as "[]" *)
| Array (items : list Item)    (* a JSON array *)
| NotArray                     (* JSON, but not an array: push is not a function,
                                  or the value is null *)
| Garbage.                     (* not JSON: JSON.parse throws *)

(** What happens when the file is written.  [fs.writeFileSync] opens the
    file, which empties it, then writes the text: the text is written; or
    the file cannot be opened (or [ensureDirOf] cannot make the directory)
    and stays as it was; or the call throws after the file was opened, with
    nothing or with a first part of the text in it. *)
Inductive Write : Type :=
| Written
| Refused
| Torn (partial : bool).

Record Disk : Type := mkDisk {
  file : File;
  write : Write
}.

(** The write goes through. *)
Definition writable (d : Disk) : bool :=
  match write d with
  | Written => true
  | _ => false
  end.

(** The array the code reads, or [None] when reading or parsing throws. *)
Definition read (f : File) : option (option (list Item)) :=
  match f with
  | Absent => Some (Some [])
  | Unreadable => None
  | Blank => Some (Some [])
  | Array items => Some (Some items)
  | NotArray => Some None
  | Garbage => None
  end.

(** [appendParticipation(dni, txHash)] at time [now]
    ([new Date().toISOString()]); every failure is caught and logged.  A
    first part of the text of an array is not JSON. *)
Definition appendParticipation (d : Disk) (dni : JsValue) (txHash now : string) : Disk :=
  match read (file d) with
  | Some (Some arr) =>
      match write d with
      | Written =>
          {| file := Array (arr ++ [Entry dni txHash now]); write := write d |}
      | Refused => d
      | Torn partial =>
          {| file := if partial then Garbage else Blank; write := write d |}
      end
  | Some None => d                       (* arr.push throws *)
  | None => d                            (* readFileSync or JSON.parse throws *)
  end.

(** The answers of [GET /participation]. *)
Inductive Listing : Type :=
| Items (items : list Item)    (* res.json(arr), arr an array *)
| Other                        (* res.json(arr), arr another JSON value *)
| Error500.                    (* res.status(500).send("Error") *)

(** [GET /participation] *)
Definition get_participation (d : Disk) : Listing :=
  match file d with
  | Absent => Items []
  | f =>
      match read f with
      | Some (Some arr) => Items arr
      | Some None => Other
      | None => Error500
      end
  end.

(** The effect of a trace on the disk: each participation event is one call
    of [appendParticipation]; [clock] gives the time of the n-th event of
    the trace. *)
Fixpoint replay (t : list Event) (clock : nat -> string) (n : nat) (d : Disk) : Disk :=
  match t with
  | [] => d
  | AppendParticipation dni txHash :: rest =>
      replay rest clock (S n) (appendParticipation d dni txHash (clock n))
  | _ :: rest => replay rest clock (S n) d
  end.

End Participation.

(** The disk after a write that failed once the file was opened: empty, or
    with a first part of the text. *)
Definition torn_disk (p : bool) : Participation.Disk :=
  {| Participation.file := if p then Participation.Garbage else Participation.Blank;
     Participation.write := Participation.Torn p |}.

(** ** Numbers of JavaScript *)

(** [Number(x)] of a BigNumber: the double nearest to the integer its
    decimal spelling denotes, ties to even.  Nothing is thrown. *)
Definition Number_of (n : N) : N :=
  let bits := N.size n in
  if (bits <=? 53)%N then n
  else
    let k := (bits - 53)%N in
    let q := N.shiftr n k in
    let r := N.land n (N.ones k) in
    let half := N.shiftl 1 (k - 1) in
    let up := (half <? r)%N || ((r =? half)%N && N.odd q) in
    N.shiftl (if up then q + 1 else q)%N k.

(** ** The read-only routes of the accumulator variant *)

Module MerkleViews.

(** [GET /info] *)
Definition info (W : World) : list Event * Response :=
  tryCatch
    (code <- call ProviderGetCode (getCode W) ;;
     let exists_ := str_truthy code && negb (String.eqb code "0x") in
     eid <- (if exists_ then Merkle.getCurrentElectionIdSafe W else ret 0%N) ;;
     root <- (if exists_ && hasFn W "merkleRootOf(uint256)" then
                emit (CallMerkleRootOf eid) ;;
                match merkleRootOf W eid with
                | Returns r => ret r
                | Throws _ => ret "0x"        (* catch { /* ignore */ } *)
                end
              else ret "0x") ;;
     ret {| status := 200;
            body := Json [("address", JString (voting_address W));
                          ("network", JString (PROVIDER_URL W));
                          ("exists", JBool exists_);
                          ("currentElectionId", JNumber (Z.of_N (Number_of eid)));
                          ("merkleRoot", JString root)] |})
    (fun _ => {| status := 500; body := Send "Error leyendo contrato" |}).

End MerkleViews.

(** ** The candidate lists

    [GET /candidates] only reads the ledger; its model keeps the answer and
    takes the contract's view functions as an oracle. *)

Module Candidates.

(** The tuple the contract returns for a candidate. *)
Record Candidate : Type := mkCandidate {
  c_id : N;
  c_name : string;
  c_voteCount : N
}.

(** An element of the answer. *)
Record Row : Type := mkRow {
  id : N;
  name : string;
  voteCount : N
}.

(** The view functions; a function the contract object does not have
    throws when called. *)
Record Ledger : Type := mkLedger {
  getAllCandidates : Outcome (list Candidate);
  getCandidatesCount : Outcome N;
  getCandidate : N -> Outcome Candidate;
  candidates_at : N -> Outcome string;      (* voting.candidates(i) *)
  getVotes : N -> Outcome N
}.

Inductive Reply : Type :=
| Rows (out : list Row)       (* res.json(out) *)
| Error500.                   (* res.status(500).send("Error") *)

(** [{ id: t.id.toNumber(), name: t.name, voteCount: t.voteCount.toNumber() }];
    [None] when a [toNumber] throws. *)
Definition row (t : Candidate) : option Row :=
  match toNumber (c_id t) with
  | None => None
  | Some i =>
      match toNumber (c_voteCount t) with
      | None => None
      | Some v => Some {| id := i; name := c_name t; voteCount := v |}
      end
  end.

(** [list.map(row)] *)
Fixpoint rows (l : list Candidate) : option (list Row) :=
  match l with
  | [] => Some []
  | t :: rest =>
      match row t with
      | None => None
      | Some r =>
          match rows rest with
          | None => None
          | Some out => Some (r :: out)
          end
      end
  end.

(** The first strategy of both variants: [getAllCandidates()]. *)
Definition all (L : Ledger) : Reply :=
  match getAllCandidates L with
  | Throws _ => Error500
  | Returns l =>
      match rows l with
      | Some out => Rows out
      | None => Error500
      end
  end.

(** [for (let i = ...; i < cnt; i++) out.push(row(await voting.getCandidate(i)))]
    with [n] rounds to go from index [i]; [None] when a round throws. *)
Fixpoint collect (L : Ledger) (n : nat) (i : N) : option (list Row) :=
  match n with
  | O => Some []
  | S n' =>
      match getCandidate L i with
      | Throws _ => None
      | Returns t =>
          match row t with
          | None => None
          | Some r =>
              match collect L n' (i + 1)%N with
              | None => None
              | Some out => Some (r :: out)
              end
          end
      end
  end.

(** [GET /candidates] of the accumulator variant. *)
Definition candidates (W : World) (L : Ledger) : Reply :=
  if hasFn W "getAllCandidates()" then all L
  else
    let cnt : option N :=
      if hasFn W "getCandidatesCount()" then
        match getCandidatesCount L with
        | Returns c => toNumber c
        | Throws _ => None
        end
      else Some 0%N in
    match cnt with
    | None => Error500
    | Some cnt =>
        match collect L (N.to_nat cnt) 0%N with
        | Some out => Rows out
        | None => Error500
        end
    end.

(** One round of the counting loop of the two-argument variant: by
    [getCandidate(i)] when the ABI has it, else by [candidates(i)] and
    [getVotes(i)]. *)
Definition counted_round (W : World) (L : Ledger) (i : N) : option Row :=
  if hasFn W "getCandidate(uint256)" then
    match getCandidate L i with
    | Throws _ => None
    | Returns t => row t
    end
  else
    match candidates_at L i with
    | Throws _ => None
    | Returns nm =>
        match (if hasFn W "getVotes(uint256)" then getVotes L i else Returns 0%N) with
        | Throws _ => None
        | Returns vc => Some {| id := i; name := nm; voteCount := Number_of vc |}
        end
    end.

Fixpoint counted (W : World) (L : Ledger) (n : nat) (i : N) : option (list Row) :=
  match n with
  | O => Some []
  | S n' =>
      match counted_round W L i with
      | None => None
      | Some r =>
          match counted W L n' (i + 1)%N with
          | None => None
          | Some out => Some (r :: out)
          end
      end
  end.

(** [for (...; i < 10; i++) { try { out.push(row(await voting.getCandidate(i))) }
    catch { break } }] with [n] rounds to go from index [i]. *)
Fixpoint probe (L : Ledger) (n : nat) (i : N) : list Row :=
  match n with
  | O => []
  | S n' =>
      match getCandidate L i with
      | Throws _ => []
      | Returns t =>
          match row t with
          | None => []
          | Some r => r :: probe L n' (i + 1)%N
          end
      end
  end.

(** [GET /candidates] of the two-argument variant. *)
Definition candidates_simple (W : World) (L : Ledger) : Reply :=
  if hasFn W "getAllCandidates()" then all L
  else if hasFn W "getCandidatesCount()"
          && (hasFn W "getCandidate(uint256)" || hasFn W "candidates(uint256)") then
    match getCandidatesCount L with
    | Throws _ => Error500
    | Returns c =>
        match toNumber c with
        | None => Error500
        | Some cnt =>
            match counted W L (N.to_nat cnt) 0%N with
            | Some out => Rows out
            | None => Error500
            end
        end
    end
  else Rows (probe L 10 0%N).

End Candidates.

(** A row shows a candidate: the same id, name and count, both numbers
    within the safe integers. *)
Definition shows (t : Candidates.Candidate) (r : Candidates.Row) : Prop :=
  Candidates.id r = Candidates.c_id t /\
  Candidates.name r = Candidates.c_name t /\
  Candidates.voteCount r = Candidates.c_voteCount t /\
  (Candidates.c_id t < 2 ^ 53)%N /\ (Candidates.c_voteCount t < 2 ^ 53)%N.

(** [n] rounds of a loop body from index [i], all or nothing. *)
Fixpoint rounds {A} (f : N -> option A) (n : nat) (i : N) : option (list A) :=
  match n with
  | O => Some []
  | S n' =>
      match f i with
      | None => None
      | Some r =>
          match rounds f n' (i + 1)%N with
          | None => None
          | Some out => Some (r :: out)
          end
      end
  end.

(** The round of [Candidates.collect]. *)
Definition collect_round (L : Candidates.Ledger) (i : N) : option Candidates.Row :=
  match Candidates.getCandidate L i with
  | Throws _ => None
  | Returns t => Candidates.row t
  end.

(** A ledger with three candidates. *)
Definition sample_candidates : list Candidates.Candidate :=
  [ {| Candidates.c_id := 0; Candidates.c_name := "Ada"; Candidates.c_voteCount := 7 |};
    {| Candidates.c_id := 1; Candidates.c_name := "Berta"; Candidates.c_voteCount := 0 |};
    {| Candidates.c_id := 2; Candidates.c_name := "Carla"; Candidates.c_voteCount := 3 |} ]%N.

Definition sample_candidate_ledger : Candidates.Ledger :=
  {| Candidates.getAllCandidates := Returns sample_candidates;
     Candidates.getCandidatesCount := Returns 3%N;
     Candidates.getCandidate := fun i =>
       match nth_error sample_candidates (N.to_nat i) with
       | Some t => Returns t
       | None => Throws empty_call_exception
       end;
     Candidates.candidates_at := fun i =>
       match nth_error sample_candidates (N.to_nat i) with
       | Some t => Returns (Candidates.c_name t)
       | None => Throws empty_call_exception
       end;
     Candidates.getVotes := fun i =>
       match nth_error sample_candidates (N.to_nat i) with
       | Some t => Returns (Candidates.c_voteCount t)
       | None => Throws empty_call_exception
       end |}.

(** ** The vote lists of the accumulator variant

    [GET /votes] and [GET /votes/by-candidate] only read the ledger; their
    model keeps the answer and takes the contract's view functions as an
    oracle. *)

Module Votes.

(** A JavaScript number, as far as these routes tell numbers apart: an
    integer, a number strictly between two neighbouring integers, an
    infinity, or NaN. *)
Inductive JsNumber : Type :=
| NaN
| NegInfinity
| Infinity
| Int (z : Z)
| Frac (floor : Z).      (* a number x with floor < x < floor + 1 *)

(** [Math.min(hi, n)] and [Math.max(lo, n)] for an integer bound. *)
Definition Math_min (hi : Z) (n : JsNumber) : JsNumber :=
  match n with
  | NaN => NaN
  | NegInfinity => NegInfinity
  | Infinity => Int hi
  | Int z => Int (Z.min hi z)
  | Frac f => if (f <? hi)%Z then Frac f else Int hi
  end.

Definition Math_max (lo : Z) (n : JsNumber) : JsNumber :=
  match n with
  | NaN => NaN
  | NegInfinity => Int lo
  | Infinity => Infinity
  | Int z => Int (Z.max lo z)
  | Frac f => if (lo <=? f)%Z then Frac f else Int lo
  end.

(** [const clamp = (n, lo, hi) => Math.max(lo, Math.min(hi, n))] *)
Definition clamp (n : JsNumber) (lo hi : Z) : JsNumber :=
  Math_max lo (Math_min hi n).

(** The tuple the contract returns for a vote. *)
Record Vote : Type := mkVote {
  v_id : N;
  v_candidateId : N;
  v_timestamp : N
}.

(** An element of the answer. *)
Record Item : Type := mkItem {
  id : N;
  candidateId : N;
  timestamp : N
}.

(** [mapVote] *)
Definition mapVote (v : Vote) : Item :=
  {| id := Number_of (v_id v);
     candidateId := Number_of (v_candidateId v);
     timestamp := Number_of (v_timestamp v) |}.

(** The view functions, called by their full signature; a function the
    contract object does not have throws when called.  [encode_fault] and
    [toNumber_fault] are what ethers throws for a number that is no uint256
    and for a [toNumber] beyond the safe integers. *)
Record Ledger : Type := mkLedger {
  getVotesCount0 : Outcome N;                               (* getVotesCount() *)
  getVotesRange2 : N -> N -> Outcome (list Vote);           (* getVotesRange(uint256,uint256) *)
  getVotesCount1 : N -> Outcome N;                          (* getVotesCount(uint256) *)
  getVotesRange3 : N -> N -> N -> Outcome (list Vote);
  getVotesByCandidateCount : N -> N -> Outcome N;
  getVotesByCandidateRange : N -> N -> N -> N -> Outcome (list Vote);
  encode_fault : JsNumber -> Exn;
  toNumber_fault : N -> Exn
}.

(** A number handed to the contract for a [uint256]: ethers takes the
    integers that are safe and not negative. *)
Definition uint_arg (L : Ledger) (n : JsNumber) : Outcome N :=
  match n with
  | Int z =>
      match BigNumber_from z with
      | Some z' => if (0 <=? z')%Z then Returns (Z.to_N z') else Throws (encode_fault L n)
      | None => Throws (encode_fault L n)
      end
  | _ => Throws (encode_fault L n)
  end.

(** [(await call).toNumber()] *)
Definition counted (L : Ledger) (o : Outcome N) : Outcome N :=
  match o with
  | Throws e => Throws e
  | Returns c =>
      match toNumber c with
      | Some n => Returns n
      | None => Throws (toNumber_fault L c)
      end
  end.

Definition andThen {A B} (o : Outcome A) (k : A -> Outcome B) : Outcome B :=
  match o with
  | Returns a => k a
  | Throws e => Throws e
  end.

(** [getCurrentElectionIdSafe], as in the other file of this variant. *)
Definition getCurrentElectionIdSafe (W : World) : Outcome N :=
  let guarded (o : Outcome N) : Outcome N :=
    match o with
    | Returns n => Returns n
    | Throws e =>
        if String.eqb (exn_code e) "CALL_EXCEPTION" && String.eqb (exn_data e) "0x"
        then Returns 0%N
        else Throws e
    end in
  if hasFn W "currentElectionId()" then guarded (currentElectionId W)
  else if hasFn W "getCurrentElectionId()" then guarded (getCurrentElectionId W)
  else Returns 0%N.

(** The query string: [Number(req.query.x)] for each parameter that is
    there. *)
Record Query : Type := mkQuery {
  q_start : option JsNumber;
  q_limit : option JsNumber;
  q_electionId : option JsNumber;
  q_candidateId : option JsNumber
}.

Inductive Reply : Type :=
| Page (electionId : N) (candidate : option N) (start limit total : N)
       (items : list Item)              (* res.json({ electionId, ..., items }) *)
| Fail (status : nat) (text : string).  (* res.status(status).send(text) *)

(** [e?.reason || e?.message || "Error"] *)
Definition fail_text (e : Exn) : string :=
  or_str (exn_reason e)
    (or_str (match exn_message e with Some m => m | None => "" end) "Error").

Definition catch (o : Outcome Reply) : Reply :=
  match o with
  | Returns r => r
  | Throws e => Fail 500 (fail_text e)
  end.

Definition orDefault (d : Z) (n : option JsNumber) : JsNumber :=
  match n with
  | Some n => n
  | None => Int d
  end.

(** [Number(undefined)] is NaN. *)
Definition orNaN (n : option JsNumber) : JsNumber :=
  match n with
  | Some n => n
  | None => NaN
  end.

(** [GET /votes] *)
Definition votes (W : World) (L : Ledger) (q : Query) : Reply :=
  catch
    (andThen (getCode W) (fun code =>
     if negb (str_truthy code) || String.eqb code "0x" then
       Returns (Fail 500 "No hay contrato desplegado")
     else
       let start := clamp (orDefault 0 (q_start q)) 0 (10 ^ 9) in
       let limit := clamp (orDefault 50 (q_limit q)) 0 1000 in
       match q_electionId q with
       | None =>
           andThen (getCurrentElectionIdSafe W) (fun eId =>
           let eidNum := Number_of eId in
           andThen (counted L (getVotesCount0 L)) (fun total =>
           andThen (uint_arg L start) (fun s =>
           andThen (uint_arg L limit) (fun l =>
           andThen (getVotesRange2 L s l) (fun arr =>
           Returns (Page eidNum None s l total (map mapVote arr)))))))
       | Some eidNum =>
           match eidNum with
           | NaN => Returns (Fail 400 "electionId inválido")
           | _ =>
               andThen (uint_arg L eidNum) (fun e =>
               andThen (counted L (getVotesCount1 L e)) (fun total =>
               andThen (uint_arg L start) (fun s =>
               andThen (uint_arg L limit) (fun l =>
               andThen (getVotesRange3 L e s l) (fun arr =>
               Returns (Page e None s l total (map mapVote arr)))))))
           end
       end)).

(** [GET /votes/by-candidate] *)
Definition votes_by_candidate (W : World) (L : Ledger) (q : Query) : Reply :=
  catch
    (andThen (getCode W) (fun code =>
     if negb (str_truthy code) || String.eqb code "0x" then
       Returns (Fail 500 "No hay contrato desplegado")
     else
       let eid := orNaN (q_electionId q) in
       let cid := orNaN (q_candidateId q) in
       match eid, cid with
       | NaN, _ | _, NaN => Returns (Fail 400 "electionId y candidateId requeridos")
       | _, _ =>
           let start := clamp (orDefault 0 (q_start q)) 0 (10 ^ 9) in
           let limit := clamp (orDefault 50 (q_limit q)) 0 1000 in
           andThen (uint_arg L eid) (fun e =>
           andThen (uint_arg L cid) (fun c =>
           andThen (counted L (getVotesByCandidateCount L e c)) (fun total =>
           andThen (uint_arg L start) (fun s =>
           andThen (uint_arg L limit) (fun l =>
           andThen (getVotesByCandidateRange L e c s l) (fun arr =>
           Returns (Page e (Some c) s l total (map mapVote arr))))))))
       end)).

End Votes.

(** A ledger with three votes in every list. *)
Definition sample_votes : list Votes.Vote :=
  [ {| Votes.v_id := 0; Votes.v_candidateId := 2; Votes.v_timestamp := 1700000000 |};
    {| Votes.v_id := 1; Votes.v_candidateId := 0; Votes.v_timestamp := 1700000060 |};
    {| Votes.v_id := 2; Votes.v_candidateId := 2; Votes.v_timestamp := 1700000120 |} ]%N.

Definition sample_vote_ledger : Votes.Ledger :=
  {| Votes.getVotesCount0 := Returns 3%N;
     Votes.getVotesRange2 := fun s l =>
       Returns (firstn (N.to_nat l) (skipn (N.to_nat s) sample_votes));
     Votes.getVotesCount1 := fun _ => Returns 3%N;
     Votes.getVotesRange3 := fun _ s l =>
       Returns (firstn (N.to_nat l) (skipn (N.to_nat s) sample_votes));
     Votes.getVotesByCandidateCount := fun _ _ => Returns 3%N;
     Votes.getVotesByCandidateRange := fun _ _ s l =>
       Returns (firstn (N.to_nat l) (skipn (N.to_nat s) sample_votes));
     Votes.encode_fault := fun _ =>
       {| exn_code := "NUMERIC_FAULT"; exn_data := ""; exn_error_message := "";
          exn_reason := "underflow"; exn_message := Some "underflow" |};
     Votes.toNumber_fault := fun _ =>
       {| exn_code := "NUMERIC_FAULT"; exn_data := ""; exn_error_message := "";
          exn_reason := "overflow"; exn_message := Some "overflow" |} |}.

(** [GET /votes?start=1&limit=5000] *)
Definition sample_query : Votes.Query :=
  {| Votes.q_start := Some (Votes.Int 1); Votes.q_limit := Some (Votes.Int 5000);
     Votes.q_electionId := None; Votes.q_candidateId := None |}.

(** ** The read-only routes of src/index.js *)

From Stdlib Require Import Permutation Sorted.

Module ClientViews.

(** The arguments of a [VoteRecorded] log. *)
Record Log : Type := mkLog {
  voteId : N;
  candidateId : N;
  timestamp : N
}.

(** What the route asks of the ledger besides the current election:
    [contract.queryFilter(VoteRecorded(eid, null, null), 0, "latest")],
    [contract["getVotesCount()"]()] and [contract["getVote(uint256)"](i)]. *)
Record Ledger : Type := mkLedger {
  queryFilter : N -> Outcome (list Log);
  getVotesCount0 : Outcome N;
  getVote1 : N -> Outcome Votes.Vote
}.

(** [{ id: l.args.voteId.toNumber(), candidateId: l.args.candidateId.toNumber(),
       timestamp: Number(l.args.timestamp) }]; [None] when a [toNumber]
    throws. *)
Definition item_of_log (l : Log) : option Votes.Item :=
  match toNumber (voteId l) with
  | None => None
  | Some i =>
      match toNumber (candidateId l) with
      | None => None
      | Some c =>
          Some {| Votes.id := i; Votes.candidateId := c;
                  Votes.timestamp := Number_of (timestamp l) |}
      end
  end.

(** [logs.map(item_of_log)] *)
Fixpoint items_of_logs (logs : list Log) : option (list Votes.Item) :=
  match logs with
  | [] => Some []
  | l :: rest =>
      match item_of_log l with
      | None => None
      | Some it =>
          match items_of_logs rest with
          | None => None
          | Some out => Some (it :: out)
          end
      end
  end.

(** [.sort((a, b) => a.id - b.id)]: ascending by id, items of equal id in
    their first order. *)
Fixpoint insert (x : Votes.Item) (l : list Votes.Item) : list Votes.Item :=
  match l with
  | [] => [x]
  | y :: rest =>
      if (Votes.id x <=? Votes.id y)%N then x :: y :: rest
      else y :: insert x rest
  end.

Definition sort (l : list Votes.Item) : list Votes.Item :=
  fold_right insert [] l.

(** The loop of the fallback: [n] rounds to go from index [i]. *)
Fixpoint fallback (L : Ledger) (n : nat) (i : N) : Outcome (list Votes.Item) :=
  match n with
  | O => Returns []
  | S n' =>
      match getVote1 L i with
      | Throws e => Throws e
      | Returns v =>
          match fallback L n' (i + 1)%N with
          | Throws e => Throws e
          | Returns out => Returns (Votes.mapVote v :: out)
          end
      end
  end.

Record Listing : Type := mkListing {
  electionId : N;
  total : nat;
  items : list Votes.Item
}.

(** [getAllVotesCurrentElection]: by events, and when anything there
    throws, by the count and one call for each vote. *)
Definition getAllVotesCurrentElection (W : World) (L : Ledger) : Outcome Listing :=
  match currentElectionId W with
  | Throws e => Throws e
  | Returns c =>
      match toNumber c with
      | None => Throws (Error "overflow")
      | Some eid =>
          let byEvents : option (list Votes.Item) :=
            match queryFilter L eid with
            | Throws _ => None
            | Returns logs =>
                match items_of_logs logs with
                | None => None
                | Some its => Some (sort its)
                end
            end in
          match byEvents with
          | Some its =>
              Returns {| electionId := eid; total := List.length its; items := its |}
          | None =>
              match getVotesCount0 L with
              | Throws e => Throws e
              | Returns n =>
                  match toNumber n with
                  | None => Throws (Error "overflow")
                  | Some n =>
                      match fallback L (N.to_nat n) 0%N with
                      | Throws e => Throws e
                      | Returns its =>
                          Returns {| electionId := eid; total := List.length its;
                                     items := its |}
                      end
                  end
              end
          end
      end
  end.

Inductive Reply : Type :=
| Data (data : Listing)                 (* res.json(data) *)
| Failed (error detail : string).       (* res.status(500).json({ error, detail }) *)

(** [GET /votes] *)
Definition votes (W : World) (L : Ledger) : Reply :=
  match getAllVotesCurrentElection W L with
  | Returns data => Data data
  | Throws e => Failed "votes-failed" (ClientProof.String_of_exn e)
  end.

End ClientViews.

(** Ascending by id. *)
Definition by_id (a b : Votes.Item) : Prop := (Votes.id a <= Votes.id b)%N.

(** The round of [ClientViews.fallback]. *)
Definition fallback_round (L : ClientViews.Ledger) (i : N) : option Votes.Item :=
  match ClientViews.getVote1 L i with
  | Throws _ => None
  | Returns v => Some (Votes.mapVote v)
  end.

(** Three logs, out of order. *)
Definition sample_logs : list ClientViews.Log :=
  [ {| ClientViews.voteId := 2; ClientViews.candidateId := 2;
       ClientViews.timestamp := 1700000120 |};
    {| ClientViews.voteId := 0; ClientViews.candidateId := 2;
       ClientViews.timestamp := 1700000000 |};
    {| ClientViews.voteId := 1; ClientViews.candidateId := 0;
       ClientViews.timestamp := 1700000060 |} ]%N.

Definition sample_client_ledger : ClientViews.Ledger :=
  {| ClientViews.queryFilter := fun _ => Returns sample_logs;
     ClientViews.getVotesCount0 := Returns 3%N;
     ClientViews.getVote1 := fun i =>
       match nth_error sample_votes (N.to_nat i) with
       | Some v => Returns v
       | None => Throws empty_call_exception
       end |}.

(** An item shows a log: the same vote and candidate, both safe integers,
    and the number nearest to the timestamp. *)
Definition shows_log (l : ClientViews.Log) (it : Votes.Item) : Prop :=
  Votes.id it = ClientViews.voteId l /\
  Votes.candidateId it = ClientViews.candidateId l /\
  Votes.timestamp it = Number_of (ClientViews.timestamp l) /\
  (ClientViews.voteId l < 2 ^ 53)%N /\ (ClientViews.candidateId l < 2 ^ 53)%N.

(** The listing of [sample_logs]. *)
Definition sample_listing : ClientViews.Listing :=
  {| ClientViews.electionId := 1;
     ClientViews.total := 3;
     ClientViews.items :=
       [ {| Votes.id := 0; Votes.candidateId := 2; Votes.timestamp := 1700000000 |};
         {| Votes.id := 1; Votes.candidateId := 0; Votes.timestamp := 1700000060 |};
         {| Votes.id := 2; Votes.candidateId := 2; Votes.timestamp := 1700000120 |} ]%N |}.


(** ** The order of a vote

    The place of an event in a vote: contract code, verification, the
    registry's leaves or root, current election, ledger root, duplicate
    pre-check, transaction, its confirmation, participation entry. *)
Definition protocol_step (e : Event) : nat :=
  match e with
  | ProviderGetCode => 0
  | RegistryVerify _ _ => 1
  | RegistryLeaves => 2
  | RegistryRoot _ => 2
  | CallCurrentElectionId => 3
  | CallGetCurrentElectionId => 3
  | CallMerkleRootOf _ => 4
  | CallHasVoted _ _ => 5
  | SendSetCurrentElectionMerkleRoot _ => 6
  | SendVoteWithNullifier4 _ _ _ _ => 6
  | SendVoteWithNullifier2 _ _ => 6
  | TxWait _ => 7
  | AppendParticipation _ _ => 8
  end.

(** A trace in strictly ascending order of steps, all of them from [lo] up
    to but not including [hi]. *)
Definition in_order (lo hi : nat) (t : list Event) : Prop :=
  lo <= hi /\
  StronglySorted lt (map protocol_step t) /\
  Forall (fun e => lo <= protocol_step e < hi) t.
(** ** Codec lemmas *)

Lemma nibbles_of_byte (x : byte) :
  Hex.unhex (Hex.digit (Byte.to_N x / 16)) = Some (Byte.to_N x / 16)%N /\
  Hex.unhex (Hex.digit (Byte.to_N x mod 16)) = Some (Byte.to_N x mod 16)%N /\
  Hex.byte_of_nibbles (Byte.to_N x / 16) (Byte.to_N x mod 16) = x.
Proof. destruct x; repeat split; reflexivity. Qed.

Lemma decode_lenient_encode (b : Buffer) : Hex.decode_lenient (Hex.encode b) = b.
Proof.
  induction b as [|x rest IH]; [reflexivity|].
  cbn [Hex.encode Hex.decode_lenient].
  destruct (nibbles_of_byte x) as (Hh & Hl & Hb).
  rewrite Hh, Hl, Hb, IH. reflexivity.
Qed.

Lemma decode_strict_encode (b : Buffer) : Hex.decode_strict (Hex.encode b) = Some b.
Proof.
  induction b as [|x rest IH]; [reflexivity|].
  cbn [Hex.encode Hex.decode_strict].
  destruct (nibbles_of_byte x) as (Hh & Hl & Hb).
  rewrite Hh, Hl, Hb, IH. reflexivity.
Qed.

Lemma toBuf_bufferToHex (b : Buffer) : toBuf (bufferToHex b) = b.
Proof. unfold toBuf, bufferToHex. cbn. apply decode_lenient_encode. Qed.

Lemma arrayify_hexlify (b : Buffer) : arrayify (hexlify b) = Some b.
Proof. unfold arrayify, hexlify. cbn. apply decode_strict_encode. Qed.

Lemma toBuf_hexlify (b : Buffer) : toBuf (hexlify b) = b.
Proof. exact (toBuf_bufferToHex b). Qed.

(** ** Facts about the Merkle tree *)

Section MerkleTreeFacts.

Variable hashFn : Buffer -> Buffer.

Local Abbreviation combine := (MerkleTreeJs.combine hashFn).
Local Abbreviation nextLayer := (MerkleTreeJs.nextLayer hashFn).
Local Abbreviation createHashes := (MerkleTreeJs.createHashes hashFn).
Local Abbreviation foldProof := (MerkleTreeJs.foldProof hashFn).

Lemma to_N_inj (x y : byte) : Byte.to_N x = Byte.to_N y -> x = y.
Proof.
  intros H. pose proof (Byte.of_to_N x) as Hx. rewrite H, Byte.of_to_N in Hx.
  congruence.
Qed.

Lemma Buffer_compare_eq (a b : Buffer) :
  MerkleTreeJs.Buffer_compare a b = Eq -> a = b.
Proof.
  revert b. induction a as [|x a IH]; intros [|y b]; simpl; try discriminate; auto.
  destruct (N.compare_spec (Byte.to_N x) (Byte.to_N y)) as [E|L|G]; try discriminate.
  intros H. rewrite (to_N_inj _ _ E), (IH _ H). reflexivity.
Qed.

Lemma Buffer_compare_antisym (a b : Buffer) :
  MerkleTreeJs.Buffer_compare b a = CompOpp (MerkleTreeJs.Buffer_compare a b).
Proof.
  revert b. induction a as [|x a IH]; intros [|y b]; simpl; auto.
  rewrite (N.compare_antisym (Byte.to_N x) (Byte.to_N y)).
  destruct (Byte.to_N x ?= Byte.to_N y)%N; simpl; auto.
Qed.

(** Sorting the pair first makes the combination symmetric. *)
Lemma combine_comm (a b : Buffer) : combine a b = combine b a.
Proof.
  unfold MerkleTreeJs.combine. rewrite (Buffer_compare_antisym a b).
  destruct (MerkleTreeJs.Buffer_compare a b) eqn:E; simpl; auto.
  apply Buffer_compare_eq in E. subst. reflexivity.
Qed.

(** Induction over a list two elements at a time. *)
Lemma list_pair_ind (A : Type) (P : list A -> Prop) :
  P [] -> (forall x, P [x]) -> (forall x y l, P l -> P (x :: y :: l)) ->
  forall l, P l.
Proof.
  intros H0 H1 H2.
  assert (H : forall l, P l /\ forall x, P (x :: l)).
  { induction l as [|a l [IHa IHb]]; split; auto. }
  intros l. apply H.
Qed.

Lemma nextLayer_length (l : list Buffer) :
  List.length (nextLayer l) = Nat.div2 (S (List.length l)).
Proof.
  induction l as [| x | x y l IH] using list_pair_ind; simpl in *; auto.
Qed.

Lemma pairIndex_SS (i : nat) :
  MerkleTreeJs.pairIndex (S (S i)) = S (S (MerkleTreeJs.pairIndex i)).
Proof.
  unfold MerkleTreeJs.pairIndex. rewrite Nat.odd_succ_succ.
  destruct (Nat.odd i) eqn:E; [|lia].
  destruct i; [discriminate|]. simpl. lia.
Qed.

Lemma div2_SS (i : nat) : S (S i) / 2 = S (i / 2).
Proof.
  change (S (S i)) with (1 * 2 + i) at 1.
  rewrite Nat.add_comm, Nat.div_add by lia. lia.
Qed.

(** One level up: the parent of node [i] is the node combined with its
    sibling when it has one, and the node itself when it is the odd one
    out. *)
Lemma nextLayer_parent (nodes : list Buffer) (i : nat) (x : Buffer) :
  nth_error nodes i = Some x ->
  nth_error (nextLayer nodes) (i / 2) =
    Some (fold_left combine
            (match nth_error nodes (MerkleTreeJs.pairIndex i) with
             | Some data => [data]
             | None => []
             end) x).
Proof.
  revert i. induction nodes as [| a | a b l IH] using list_pair_ind; intros i Hi.
  - destruct i; discriminate.
  - destruct i as [|i]; [|destruct i; discriminate].
    simpl in Hi. injection Hi as <-. reflexivity.
  - destruct i as [|[|i]].
    + simpl in Hi. injection Hi as <-. reflexivity.
    + simpl in Hi. injection Hi as <-. simpl. rewrite combine_comm. reflexivity.
    + rewrite pairIndex_SS, div2_SS. simpl in Hi |- *. apply IH, Hi.
Qed.

Lemma createHashes_short (nodes : list Buffer) :
  List.length nodes <= 1 -> createHashes nodes = [nodes].
Proof.
  intros H. rewrite MerkleTreeJs.createHashes_equation_1.
  destruct (le_lt_dec (List.length nodes) 1); [reflexivity | lia].
Qed.

Lemma createHashes_long (nodes : list Buffer) :
  1 < List.length nodes ->
  createHashes nodes = nodes :: createHashes (nextLayer nodes).
Proof.
  intros H. rewrite MerkleTreeJs.createHashes_equation_1.
  destruct (le_lt_dec (List.length nodes) 1); [lia | reflexivity].
Qed.

Lemma createHashes_head (nodes : list Buffer) :
  exists rest, createHashes nodes = nodes :: rest.
Proof.
  destruct (le_lt_dec (List.length nodes) 1).
  - exists []. apply createHashes_short. assumption.
  - eexists. apply createHashes_long. assumption.
Qed.

(** The proof of node [i], folded from that node, ends on the single node
    of the top layer. *)
Lemma proofLoop_sound (n : nat) :
  forall (nodes : list Buffer) (i : nat) (x : Buffer),
    List.length nodes <= n ->
    nth_error nodes i = Some x ->
    foldProof (MerkleTreeJs.proofLoop (createHashes nodes) i) x =
      nth 0 (last (createHashes nodes) []) [].
Proof.
  induction n as [|n IH]; intros nodes i x Hn Hi.
  - destruct nodes; [destruct i; discriminate | simpl in Hn; lia].
  - destruct (le_lt_dec (List.length nodes) 1) as [Hs|Hl].
    + rewrite createHashes_short by assumption.
      destruct nodes as [|a [|b l]]; simpl in Hs; try lia.
      * destruct i; discriminate.
      * destruct i as [|i]; [|destruct i; discriminate].
        simpl in Hi. injection Hi as <-. reflexivity.
    + rewrite createHashes_long by assumption.
      pose proof (nextLayer_parent nodes i Hi) as Hp.
      destruct (createHashes_head (nextLayer nodes)) as [rest Hr].
      assert (Hlen : List.length (nextLayer nodes) <= n).
      { rewrite nextLayer_length.
        pose proof (Nat.div2_odd (S (List.length nodes))) as Hd.
        destruct (Nat.odd (S (List.length nodes))); simpl Nat.b2n in Hd; lia. }
      specialize (IH (nextLayer nodes) (i / 2) _ Hlen Hp).
      cbn [MerkleTreeJs.proofLoop]. unfold MerkleTreeJs.foldProof in *.
      rewrite fold_left_app, IH, Hr. reflexivity.
Qed.

Lemma findIndex_found (leaf : Buffer) (lvs : list Buffer) :
  forall (i : nat) (index : option nat) (pre : list Buffer),
    List.length pre = i ->
    (forall j, index = Some j -> nth_error (pre ++ lvs) j = Some leaf) ->
    (In leaf lvs \/ index <> None) ->
    exists j, MerkleTreeJs.findIndex leaf lvs i index = Some j /\
              nth_error (pre ++ lvs) j = Some leaf.
Proof.
  induction lvs as [|x rest IH]; intros i index pre Hlen Hidx Hin.
  - simpl. destruct Hin as [[]|Hn]. destruct index as [j|]; [|congruence].
    exists j. split; auto.
  - simpl.
    replace (pre ++ x :: rest) with ((pre ++ [x]) ++ rest)
      by (rewrite <- app_assoc; reflexivity).
    apply IH.
    + rewrite length_app. simpl. lia.
    + intros j Hj. rewrite <- app_assoc. simpl.
      destruct (MerkleTreeJs.Buffer_compare leaf x) eqn:E.
      * injection Hj as <-. apply Buffer_compare_eq in E. subst x.
        rewrite nth_error_app2 by lia. rewrite Hlen, Nat.sub_diag. reflexivity.
      * apply Hidx, Hj.
      * apply Hidx, Hj.
    + destruct (MerkleTreeJs.Buffer_compare leaf x) eqn:E.
      * right. discriminate.
      * destruct Hin as [[->|Hin]|Hn]; auto.
        assert (MerkleTreeJs.Buffer_compare leaf leaf = Eq) as R.
        { clear. induction leaf; simpl; auto. rewrite N.compare_refl. auto. }
        congruence.
      * destruct Hin as [[->|Hin]|Hn]; auto.
        assert (MerkleTreeJs.Buffer_compare leaf leaf = Eq) as R.
        { clear. induction leaf; simpl; auto. rewrite N.compare_refl. auto. }
        congruence.
Qed.

(** For a leaf of the tree, [getProof] folds back to [getRoot]. *)
Lemma getProof_sound (lvs : list Buffer) (leaf : Buffer) :
  In leaf lvs ->
  foldProof (MerkleTreeJs.getProof (MerkleTreeJs.newMerkleTree hashFn lvs) leaf) leaf =
    MerkleTreeJs.getRoot (MerkleTreeJs.newMerkleTree hashFn lvs).
Proof.
  intros Hin. unfold MerkleTreeJs.getProof, MerkleTreeJs.getRoot. simpl.
  destruct (@findIndex_found leaf lvs 0 None [] eq_refl) as (j & Hj & Hnth).
  - intros j Hj. discriminate.
  - left. assumption.
  - rewrite Hj. simpl in Hnth. eapply proofLoop_sound; eauto.
Qed.

End MerkleTreeFacts.

(** ** UTF-8: the loop of ethers and the standard encoding *)

Lemma all_below_spec (bits : nat) (f : N -> bool) (prefix : N) :
  all_below bits f prefix = true ->
  forall c, (prefix * 2 ^ N.of_nat bits <= c < (prefix + 1) * 2 ^ N.of_nat bits)%N ->
  f c = true.
Proof.
  revert prefix. induction bits as [|k IH]; intros prefix H c Hc.
  - cbn in H. change (2 ^ N.of_nat 0)%N with 1%N in Hc.
    replace c with prefix by lia. exact H.
  - cbn [all_below] in H. apply andb_true_iff in H. destruct H as (H0 & H1).
    rewrite Nat2N.inj_succ, N.pow_succ_r' in Hc.
    destruct (N.lt_ge_cases c ((2 * prefix + 1) * 2 ^ N.of_nat k)) as [Hlt|Hge].
    + apply (IH _ H0). lia.
    + apply (IH _ H1). lia.
Qed.

Lemma surrogate_tests (c : N) :
  (c < 0x10000)%N ->
  (N.land c 0xfc00 =? 0xd800)%N = is_high_surrogate c /\
  (N.land c 0xfc00 =? 0xdc00)%N = is_low_surrogate c.
Proof.
  intros Hc.
  assert (H : surrogate_tests_agree c = true).
  { apply (@all_below_spec 16 surrogate_tests_agree 0); [vm_compute; reflexivity|].
    change (2 ^ N.of_nat 16)%N with 0x10000%N. lia. }
  unfold surrogate_tests_agree in H. apply andb_true_iff in H. destruct H as (H1 & H2).
  apply Bool.eqb_prop in H1, H2. auto.
Qed.

Lemma marker_bits (y : N) :
  (y < 64)%N ->
  N.lor y 0x80 = (0x80 + y)%N /\ N.lor (y / 2) 0xc0 = (0xC0 + y / 2)%N /\
  N.lor (y / 4) 0xe0 = (0xE0 + y / 4)%N /\ N.lor (y / 8) 0xf0 = (0xF0 + y / 8)%N.
Proof.
  intros Hy.
  assert (H : marker_bits_agree y = true).
  { apply (@all_below_spec 6 marker_bits_agree 0); [vm_compute; reflexivity|].
    change (2 ^ N.of_nat 6)%N with 64%N. lia. }
  unfold marker_bits_agree in H.
  repeat (apply andb_true_iff in H; destruct H as (H & ?)).
  repeat match goal with Hx : (_ =? _)%N = true |- _ => apply N.eqb_eq in Hx end.
  auto.
Qed.

Lemma land_63 (x : N) : N.land x 0x3f = (x mod 64)%N.
Proof. change 0x3f%N with (N.ones 6). apply N.land_ones. Qed.

Lemma land_1023 (x : N) : N.land x 0x03ff = (x mod 1024)%N.
Proof. change 0x03ff%N with (N.ones 10). apply N.land_ones. Qed.

Lemma continuation_byte (x : N) : N.lor (N.land x 0x3f) 0x80 = (0x80 + x mod 64)%N.
Proof.
  rewrite land_63. apply marker_bits. apply N.mod_lt. discriminate.
Qed.

(** One code unit that is no surrogate. *)
Lemma unit_bytes (c : N) :
  (c < 0x10000)%N ->
  (if (c <? 0x80)%N then [byte_of_N c]
   else if (c <? 0x800)%N then
     [byte_of_N (N.lor (N.shiftr c 6) 0xc0); byte_of_N (N.lor (N.land c 0x3f) 0x80)]
   else
     [byte_of_N (N.lor (N.shiftr c 12) 0xe0);
      byte_of_N (N.lor (N.land (N.shiftr c 6) 0x3f) 0x80);
      byte_of_N (N.lor (N.land c 0x3f) 0x80)])
  = utf8_of_code_point c.
Proof.
  intros Hc. unfold utf8_of_code_point.
  destruct (c <? 0x80)%N eqn:E1; [reflexivity|].
  destruct (c <? 0x800)%N eqn:E2.
  - apply N.ltb_lt in E2. rewrite continuation_byte, N.shiftr_div_pow2.
    change (2 ^ 6)%N with 64%N.
    destruct (@marker_bits (c / 64 * 2)) as (_ & H & _).
    { assert (c / 64 < 32)%N by (apply N.Div0.div_lt_upper_bound; lia). lia. }
    replace (c / 64 * 2 / 2)%N with (c / 64)%N in H by (rewrite N.div_mul; lia).
    rewrite H. reflexivity.
  - apply N.ltb_lt in Hc. rewrite Hc. apply N.ltb_lt in Hc.
    rewrite !continuation_byte, !N.shiftr_div_pow2.
    change (2 ^ 6)%N with 64%N. change (2 ^ 12)%N with 4096%N.
    destruct (@marker_bits (c / 4096 * 4)) as (_ & _ & H & _).
    { assert (c / 4096 < 16)%N by (apply N.Div0.div_lt_upper_bound; lia). lia. }
    replace (c / 4096 * 4 / 4)%N with (c / 4096)%N in H by (rewrite N.div_mul; lia).
    rewrite H. reflexivity.
Qed.

(** A surrogate pair. *)
Lemma pair_bytes (c c2 : N) :
  is_high_surrogate c = true -> is_low_surrogate c2 = true ->
  let pair := (0x10000 + N.shiftl (N.land c 0x03ff) 10 + N.land c2 0x03ff)%N in
  [byte_of_N (N.lor (N.shiftr pair 18) 0xf0);
   byte_of_N (N.lor (N.land (N.shiftr pair 12) 0x3f) 0x80);
   byte_of_N (N.lor (N.land (N.shiftr pair 6) 0x3f) 0x80);
   byte_of_N (N.lor (N.land pair 0x3f) 0x80)]
  = utf8_of_code_point (code_point_of_pair c c2).
Proof.
  unfold is_high_surrogate, is_low_surrogate. intros Hh Hl.
  apply andb_true_iff in Hh, Hl. destruct Hh as (Hh1 & Hh2). destruct Hl as (Hl1 & Hl2).
  apply N.leb_le in Hh1, Hh2, Hl1, Hl2. cbv zeta.
  assert (Ec : N.land c 0x03ff = (c - 0xD800)%N).
  { rewrite land_1023. symmetry. apply (N.mod_unique c 1024 54); lia. }
  assert (Ec2 : N.land c2 0x03ff = (c2 - 0xDC00)%N).
  { rewrite land_1023. symmetry. apply (N.mod_unique c2 1024 55); lia. }
  rewrite Ec, Ec2, N.shiftl_mul_pow2. change (2 ^ 10)%N with 0x400%N.
  fold (code_point_of_pair c c2).
  assert (Hp : (0x10000 <= code_point_of_pair c c2 < 0x110000)%N)
    by (unfold code_point_of_pair; lia).
  set (p := code_point_of_pair c c2) in *.
  unfold utf8_of_code_point.
  assert (E1 : (p <? 0x80)%N = false) by (apply N.ltb_ge; lia).
  assert (E2 : (p <? 0x800)%N = false) by (apply N.ltb_ge; lia).
  assert (E3 : (p <? 0x10000)%N = false) by (apply N.ltb_ge; lia).
  rewrite E1, E2, E3, !continuation_byte, !N.shiftr_div_pow2.
  change (2 ^ 6)%N with 64%N. change (2 ^ 12)%N with 4096%N.
  change (2 ^ 18)%N with 262144%N.
  destruct (@marker_bits (p / 262144 * 8)) as (_ & _ & _ & H).
  { assert (p / 262144 < 8)%N by (apply N.Div0.div_lt_upper_bound; lia). lia. }
  replace (p / 262144 * 8 / 8)%N with (p / 262144)%N in H by (rewrite N.div_mul; lia).
  rewrite H. reflexivity.
Qed.

Lemma not_surrogate_below (c : N) :
  (c < 0x800)%N -> is_high_surrogate c = false /\ is_low_surrogate c = false.
Proof.
  intros H. unfold is_high_surrogate, is_low_surrogate.
  split; apply andb_false_iff; left; apply N.leb_gt; lia.
Qed.

(** On well-formed text the loop of ethers gives the UTF-8 bytes. *)
Lemma toUtf8Bytes_units_utf8 (s : JsString) :
  well_formed s = true -> toUtf8Bytes_units s = Some (utf8 s).
Proof.
  remember (List.length s) as k eqn:Hk.
  revert s Hk. induction k as [k IH] using lt_wf_ind. intros s Hk Hw.
  destruct s as [|c rest]; [reflexivity|].
  cbn [well_formed] in Hw. apply andb_true_iff in Hw. destruct Hw as (Hc & Hw).
  apply N.ltb_lt in Hc.
  destruct (surrogate_tests Hc) as (Th & Tl).
  pose proof (unit_bytes Hc) as Hu.
  cbn [toUtf8Bytes_units utf8].
  destruct (c <? 0x80)%N eqn:E1.
  - apply N.ltb_lt in E1. destruct (@not_surrogate_below c ltac:(lia)) as (Nh & Nl).
    rewrite Nh, Nl in *. cbn [negb andb] in Hw.
    rewrite (IH (List.length rest)) with (s := rest); cbn in Hk; try lia; auto.
    cbn [option_map]. rewrite <- Hu. reflexivity.
  - destruct (c <? 0x800)%N eqn:E2.
    + apply N.ltb_lt in E2. destruct (@not_surrogate_below c ltac:(lia)) as (Nh & Nl).
      rewrite Nh, Nl in *. cbn [negb andb] in Hw.
      rewrite (IH (List.length rest)) with (s := rest); cbn in Hk; try lia; auto.
      cbn [option_map]. rewrite <- Hu. reflexivity.
    + rewrite Th. destruct (is_high_surrogate c) eqn:Eh.
      * destruct rest as [|c2 rest']; [discriminate|].
        apply andb_true_iff in Hw. destruct Hw as (Hl & Hw).
        assert (Hc2 : (c2 < 0x10000)%N).
        { unfold is_low_surrogate in Hl. apply andb_true_iff in Hl.
          destruct Hl as (_ & Hl). apply N.leb_le in Hl. lia. }
        destruct (surrogate_tests Hc2) as (_ & Tl2). rewrite Tl2, Hl.
        rewrite (IH (List.length rest')) with (s := rest'); cbn in Hk; try lia; auto.
        cbn [option_map]. rewrite <- (pair_bytes _ _ Eh Hl). reflexivity.
      * destruct (is_low_surrogate c) eqn:El; [discriminate|]. cbn [negb andb] in Hw.
        rewrite (IH (List.length rest)) with (s := rest); cbn in Hk; try lia; auto.
        cbn [option_map]. rewrite <- Hu. reflexivity.
Qed.

(** For a proper key, the bytes [toUtf8Bytes] returns are the UTF-8 bytes
    of the text it is hashed as. *)
Lemma toUtf8Bytes_proper (key : JsValue) (b : Buffer) :
  toUtf8Bytes key = Returns b -> proper_text key = true -> b = utf8 (hashed_text key).
Proof.
  destruct key as [| |x|t z|s|t e|t l]; cbn; try discriminate.
  - congruence.
  - congruence.
  - intros H Hw. rewrite (toUtf8Bytes_units_utf8 _ Hw) in H. congruence.
  - destruct e; [congruence|discriminate].
  - destruct l; [discriminate|congruence].
Qed.

Lemma utf8_ascii_units (s : string) :
  forallb (fun c => (N_of_ascii c <? 0x80)%N) (list_ascii_of_string s) = true ->
  utf8 (ascii_units s) = map (fun c => byte_of_N (N_of_ascii c)) (list_ascii_of_string s).
Proof.
  unfold ascii_units. induction (list_ascii_of_string s) as [|c l IH]; [reflexivity|].
  cbn [forallb map utf8]. intros H. apply andb_true_iff in H. destruct H as (Hc & Hl).
  apply N.ltb_lt in Hc.
  destruct (@not_surrogate_below (N_of_ascii c) ltac:(lia)) as (Nh & Nl).
  rewrite Nh, Nl, (IH Hl). unfold utf8_of_code_point.
  apply N.ltb_lt in Hc. rewrite Hc. reflexivity.
Qed.

(** ** Facts about handler bodies *)

Local Open Scope handler_scope.

Lemma bind_trace {A B} (m : Handler A) (f : A -> Handler B) :
  fst (bind m f) =
    fst m ++ match snd m with Value a => fst (f a) | _ => [] end.
Proof.
  destruct m as [t [a|r|e]]; simpl; rewrite ?app_nil_r; auto.
  destruct (f a); reflexivity.
Qed.

Lemma bind_exit {A B} (m : Handler A) (f : A -> Handler B) :
  snd (bind m f) =
    match snd m with
    | Value a => snd (f a)
    | Respond r => Respond r
    | Raise e => Raise e
    end.
Proof.
  destruct m as [t [a|r|e]]; simpl; auto. destruct (f a); reflexivity.
Qed.

Lemma bind_value_inv {A B} (m : Handler A) (f : A -> Handler B) (b : B) :
  snd (bind m f) = Value b ->
  exists a, snd m = Value a /\ snd (f a) = Value b.
Proof.
  rewrite bind_exit. destruct (snd m) as [a|r|e]; try discriminate. eauto.
Qed.

Lemma bind_assoc {A B C} (m : Handler A) (f : A -> Handler B) (g : B -> Handler C) :
  bind (bind m f) g = bind m (fun a => bind (f a) g).
Proof.
  destruct m as [t [a|r|e]]; simpl; auto.
  destruct (f a) as [t1 [b|r|e]]; simpl; auto.
  destruct (g b). rewrite app_assoc. reflexivity.
Qed.

Lemma bind_ret_l {A B} (a : A) (f : A -> Handler B) : bind (ret a) f = f a.
Proof. simpl. destruct (f a). reflexivity. Qed.

Lemma when_value (c : bool) (s : nat) (text : string) (u : unit) :
  snd (when_ c s text) = Value u -> c = false.
Proof. destruct c; simpl; [discriminate | reflexivity]. Qed.

Lemma call_value {A} (ev : Event) (o : Outcome A) (a : A) :
  snd (call ev o) = Value a -> o = Returns a.
Proof. destruct o; simpl; congruence. Qed.

Lemma orThrow_value {A} (o : option A) (msg : string) (a : A) :
  snd (orThrow o msg) = Value a -> o = Some a.
Proof. destruct o; simpl; congruence. Qed.

Lemma attempt_value {A} (o : Outcome A) (a : A) :
  snd (attempt o) = Value a -> o = Returns a.
Proof. destruct o; simpl; congruence. Qed.

(** A property of every event of a trace goes through [bind]. *)
Lemma bind_trace_Forall (P : Event -> Prop) {A B} (m : Handler A) (f : A -> Handler B) :
  Forall P (fst m) -> (forall a, Forall P (fst (f a))) -> Forall P (fst (bind m f)).
Proof.
  intros Hm Hf. rewrite bind_trace. apply Forall_app. split; [assumption|].
  destruct (snd m); [apply Hf | constructor | constructor].
Qed.

(** *** Bodies that change nothing on the ledger *)

Lemma quiet_bind {A B} (m : Handler A) (f : A -> Handler B) :
  quiet m -> (forall a, quiet (f a)) -> quiet (bind m f).
Proof.
  unfold quiet, no_state_mutation. intros Hm Hf. rewrite bind_trace.
  apply Forall_app. split; [assumption|].
  destruct (snd m); [apply Hf | constructor | constructor].
Qed.

Lemma quiet_ret {A} (a : A) : quiet (ret a).
Proof. constructor. Qed.

Lemma quiet_reject {A} (s : nat) (text : string) : quiet (@reject A s text).
Proof. constructor. Qed.

Lemma quiet_reject_json {A} (s : nat) fields : quiet (@reject_json A s fields).
Proof. constructor. Qed.

Lemma quiet_raise {A} (e : Exn) : quiet (@raise A e).
Proof. constructor. Qed.

Lemma quiet_when (c : bool) (s : nat) (text : string) : quiet (when_ c s text).
Proof. destruct c; constructor. Qed.

Lemma quiet_orThrow {A} (o : option A) (msg : string) : quiet (orThrow o msg).
Proof. destruct o; constructor. Qed.

Lemma quiet_attempt {A} (o : Outcome A) : quiet (attempt o).
Proof. constructor. Qed.

Lemma quiet_call {A} (ev : Event) (o : Outcome A) :
  state_mutating ev = false -> quiet (call ev o).
Proof. intros H. repeat constructor. assumption. Qed.

Lemma quiet_emit (ev : Event) : state_mutating ev = false -> quiet (emit ev).
Proof. intros H. repeat constructor. assumption. Qed.

Lemma quiet_solidityKeccak256 keccak vs : quiet (solidityKeccak256 keccak vs).
Proof.
  unfold solidityKeccak256. apply quiet_bind; [apply quiet_orThrow|].
  intros. apply quiet_ret.
Qed.

(** *** Bodies whose early returns are all errors *)

Lemma polite_bind {A B} (m : Handler A) (f : A -> Handler B) :
  polite m -> (forall a, polite (f a)) -> polite (bind m f).
Proof.
  unfold polite. intros Hm Hf r. rewrite bind_exit.
  destruct (snd m) as [a|r'|e] eqn:E.
  - apply Hf.
  - intros [= <-]. apply Hm. reflexivity.
  - discriminate.
Qed.

Lemma polite_ret {A} (a : A) : polite (ret a).
Proof. intros r. discriminate. Qed.

Lemma polite_raise {A} (e : Exn) : polite (@raise A e).
Proof. intros r. discriminate. Qed.

Lemma polite_emit (ev : Event) : polite (emit ev).
Proof. intros r. discriminate. Qed.

Lemma polite_when (c : bool) (s : nat) (text : string) :
  s <> 200 -> polite (when_ c s text).
Proof. intros H r. destruct c; simpl; [intros [= <-]; assumption | discriminate]. Qed.

Lemma polite_call {A} (ev : Event) (o : Outcome A) : polite (call ev o).
Proof. intros r. destruct o; discriminate. Qed.

Lemma polite_orThrow {A} (o : option A) (msg : string) : polite (orThrow o msg).
Proof. intros r. destruct o; discriminate. Qed.

Lemma polite_attempt {A} (o : Outcome A) : polite (attempt o).
Proof. intros r. destruct o; discriminate. Qed.

Lemma polite_solidityKeccak256 keccak vs : polite (solidityKeccak256 keccak vs).
Proof.
  unfold solidityKeccak256. apply polite_bind; [apply polite_orThrow|].
  intros. apply polite_ret.
Qed.

Create HintDb handler.

#[local] Hint Resolve quiet_ret quiet_reject quiet_reject_json quiet_raise
  quiet_when quiet_orThrow quiet_attempt quiet_solidityKeccak256 : handler.
#[local] Hint Resolve polite_ret polite_raise polite_emit polite_call
  polite_orThrow polite_attempt polite_solidityKeccak256 : handler.
#[local] Hint Extern 1 (quiet (call _ _)) => apply quiet_call; reflexivity : handler.
#[local] Hint Extern 1 (quiet (emit _)) => apply quiet_emit; reflexivity : handler.
#[local] Hint Extern 1 (polite (when_ _ _ _)) => apply polite_when; discriminate : handler.

(** Walks down a chain of binds, splitting on the branches of the body. *)
Ltac walk lemma_bind :=
  cbv zeta;
  repeat first
    [ apply lemma_bind; [ | intros ]
    | match goal with
      | |- _ (if ?c then _ else _) => destruct c
      | |- _ (match ?x with _ => _ end) => destruct x
      end
    | solve [ auto with handler ] ].

(** Peels [snd (x <- m ;; k) = Value b] into the values of its steps. *)
Ltac peel H :=
  repeat (apply bind_value_inv in H;
          let a := fresh "a" in
          let Ha := fresh "Ha" in
          destruct H as (a & Ha & H); cbv beta in H).

(** Closes a goal about an evaluated handler: an equation, or the presence
    of an event in the trace. *)
Ltac pick_event :=
  vm_compute; solve [ reflexivity | repeat (first [left; reflexivity | right]) ].

(** ** The variant with a Merkle accumulator: structure of the vote route *)

Section MerkleFacts.

Variable keccak : Buffer -> Buffer.

Lemma Merkle_getCurrentElectionIdSafe_quiet (W : World) :
  quiet (Merkle.getCurrentElectionIdSafe W).
Proof. unfold Merkle.getCurrentElectionIdSafe. walk @quiet_bind. Qed.

Lemma Merkle_getCurrentElectionIdSafe_polite (W : World) :
  polite (Merkle.getCurrentElectionIdSafe W).
Proof. unfold Merkle.getCurrentElectionIdSafe. walk @polite_bind. Qed.

Lemma Merkle_computeGlobalTree_quiet (W : World) :
  quiet (Merkle.computeGlobalTree keccak W).
Proof. unfold Merkle.computeGlobalTree. walk @quiet_bind. Qed.

Lemma Merkle_computeGlobalTree_polite (W : World) :
  polite (Merkle.computeGlobalTree keccak W).
Proof. unfold Merkle.computeGlobalTree. walk @polite_bind. Qed.

#[local] Hint Resolve Merkle_getCurrentElectionIdSafe_quiet
  Merkle_getCurrentElectionIdSafe_polite Merkle_computeGlobalTree_quiet
  Merkle_computeGlobalTree_polite : handler.

Lemma Merkle_verify_and_prove_quiet (W : World) (req : Merkle.VoteRequest) :
  quiet (Merkle.verify_and_prove keccak W req).
Proof. unfold Merkle.verify_and_prove. walk @quiet_bind. Qed.

Lemma Merkle_verify_and_prove_polite (W : World) (req : Merkle.VoteRequest) :
  polite (Merkle.verify_and_prove keccak W req).
Proof. unfold Merkle.verify_and_prove. walk @polite_bind. Qed.

Lemma Merkle_validate_root_quiet (W : World) (p : Merkle.Prepared) :
  quiet (Merkle.validate_root W p).
Proof. unfold Merkle.validate_root. walk @quiet_bind. Qed.

Lemma Merkle_validate_root_polite (W : World) (p : Merkle.Prepared) :
  polite (Merkle.validate_root W p).
Proof. unfold Merkle.validate_root. walk @polite_bind. Qed.

Lemma Merkle_precheck_duplicate_quiet (W : World) (p : Merkle.Prepared) :
  quiet (Merkle.precheck_duplicate W p).
Proof. unfold Merkle.precheck_duplicate. walk @quiet_bind. Qed.

Lemma Merkle_precheck_duplicate_polite (W : World) (p : Merkle.Prepared) :
  polite (Merkle.precheck_duplicate W p).
Proof. unfold Merkle.precheck_duplicate. walk @polite_bind. Qed.

#[local] Hint Resolve Merkle_verify_and_prove_quiet Merkle_verify_and_prove_polite
  Merkle_validate_root_quiet Merkle_validate_root_polite
  Merkle_precheck_duplicate_quiet Merkle_precheck_duplicate_polite : handler.

(** Nothing before the transaction changes the ledger. *)
Lemma Merkle_before_submission_quiet (W : World) (req : Merkle.VoteRequest) :
  quiet (Merkle.before_submission keccak W req).
Proof.
  unfold Merkle.before_submission, Merkle.require_vote_fn. walk @quiet_bind.
Qed.

(** Every early return before the transaction is an error response. *)
Lemma Merkle_before_submission_polite (W : World) (req : Merkle.VoteRequest) :
  polite (Merkle.before_submission keccak W req).
Proof.
  unfold Merkle.before_submission, Merkle.require_vote_fn. walk @polite_bind.
Qed.

(** When a step before the transaction fails, the route answers with that
    step's error and its trace is the trace of the steps taken. *)
Lemma Merkle_vote_failed (W : World) (req : Merkle.VoteRequest) :
  fails (Merkle.before_submission keccak W req) ->
  fst (Merkle.vote keccak W req) = fst (Merkle.before_submission keccak W req) /\
  status (snd (Merkle.vote keccak W req)) <> 200.
Proof.
  intros Hf. unfold Merkle.vote.
  pose proof (Merkle_before_submission_polite W req) as Hp.
  destruct (Merkle.before_submission keccak W req) as [t [p|r|e]]; simpl.
  - destruct (Hf p). reflexivity.
  - split; [reflexivity|]. apply Hp. reflexivity.
  - split; [reflexivity|]. discriminate.
Qed.

Lemma tryCatch_trace (m : Handler Response) (h : Exn -> Response) :
  fst (tryCatch m h) = fst m.
Proof. destruct m as [t [r|r|e]]; reflexivity. Qed.

Lemma not_quiet_in {A} (m : Handler A) (e : Event) :
  quiet m -> In e (fst m) -> state_mutating e = true -> False.
Proof.
  unfold quiet, no_state_mutation. rewrite Forall_forall.
  intros H Hin He. specialize (H e Hin). congruence.
Qed.

Lemma Merkle_submit_trace (W : World) (req : Merkle.VoteRequest) (p : Merkle.Prepared) e :
  In e (fst (Merkle.submit W req p)) ->
  state_mutating e = true ->
  e = SendVoteWithNullifier4 (Merkle.p_nullifier p)
        (match Merkle.candidateId req with Some c => c | None => 0%Z end)
        (Merkle.p_proof p) (Merkle.p_leaf p).
Proof.
  unfold Merkle.submit.
  destruct (voteWithNullifier4 W _ _ _ _) as [tx|x]; simpl.
  - destruct (tx_wait tx); simpl; intros H Hm;
      repeat (destruct H as [<-|H]; try discriminate; auto); destruct H.
  - intros [<-|[]] _. reflexivity.
Qed.

(** A vote transaction in the trace was sent by [submit], with the values
    the earlier steps prepared. *)
Lemma Merkle_vote_sent (W : World) (req : Merkle.VoteRequest) n cid prf lf :
  In (SendVoteWithNullifier4 n cid prf lf) (fst (Merkle.vote keccak W req)) ->
  exists p, snd (Merkle.before_submission keccak W req) = Value p /\
            n = Merkle.p_nullifier p /\ prf = Merkle.p_proof p /\
            lf = Merkle.p_leaf p.
Proof.
  unfold Merkle.vote. rewrite tryCatch_trace, bind_trace. intros H.
  apply in_app_or in H. destruct H as [H|H].
  - exfalso. eapply not_quiet_in; eauto using Merkle_before_submission_quiet.
  - destruct (snd (Merkle.before_submission keccak W req)) as [p|r|e]; try contradiction.
    exists p. apply Merkle_submit_trace in H; [|reflexivity].
    injection H as -> _ -> ->. auto.
Qed.

Lemma solidityKeccak256_value (vs : list SolidityValue) (s : string) :
  snd (solidityKeccak256 keccak vs) = Value s ->
  exists b, solidityPack vs = Some b /\ s = hexlify (keccak b).
Proof.
  unfold solidityKeccak256. intros H. peel H.
  apply orThrow_value in Ha. injection H as <-. eauto.
Qed.

Lemma solidityKeccak256_eq (vs : list SolidityValue) (s : string) :
  snd (solidityKeccak256 keccak vs) = Value s ->
  solidityKeccak256 keccak vs = ([], Value s).
Proof.
  unfold solidityKeccak256. destruct (solidityPack vs); cbn; congruence.
Qed.

Lemma pack1_bytes32 (hex : string) (b : Buffer) :
  pack1 (bytes32 hex) = Some b -> arrayify hex = Some b /\ List.length b = 32.
Proof.
  simpl. destruct (arrayify hex) as [x|]; [|discriminate].
  destruct (Nat.eqb (List.length x) 32) eqn:E; [|discriminate].
  intros [= <-]. apply Nat.eqb_eq in E. auto.
Qed.

Lemma solidityPack_two (v1 v2 : SolidityValue) (b : Buffer) :
  solidityPack [v1; v2] = Some b ->
  exists b1 b2, pack1 v1 = Some b1 /\ pack1 v2 = Some b2 /\ b = b1 ++ b2.
Proof.
  simpl. destruct (pack1 v1) as [b1|]; [|discriminate].
  destruct (pack1 v2) as [b2|]; [|discriminate].
  intros [= <-]. exists b1, b2. rewrite app_nil_r. auto.
Qed.

(** What the route holds once verification, membership and the nullifier
    derivation are through. *)
Lemma Merkle_prepared (W : World) (req : Merkle.VoteRequest) (p : Merkle.Prepared) :
  snd (Merkle.verify_and_prove keccak W req) = Value p ->
  exists reply salt g key,
    Merkle.fetchJSON (RNP_URL W ++ "/verify")%string
      (rnp_verify W (Merkle.dni req) (Merkle.fingerprint req)) = Returns reply /\
    verify_match reply = true /\
    arrayify (verify_salt reply) = Some salt /\
    List.length salt = 32 /\
    snd (Merkle.computeGlobalTree keccak W) = Value g /\
    Merkle.p_root p = Merkle.root g /\
    toUtf8Bytes (Merkle.dni req) = Returns key /\
    Merkle.p_leaf p = hexlify (keccak (salt ++ keccak key)) /\
    Merkle.p_proof p =
      MerkleTreeJs.getHexProof (Merkle.tree g) (toBuf (Merkle.p_leaf p)) /\
    snd (Merkle.getCurrentElectionIdSafe W) = Value (Merkle.p_eId p) /\
    Merkle.p_eId p <> 0%N /\
    existsb (fun x => String.eqb (Hex.toLowerCase x) (Hex.toLowerCase (Merkle.p_leaf p)))
      (Merkle.leaves g) = true /\
    Merkle.p_nullifier p =
      hexlify (keccak (be_bytes 32 (Merkle.p_eId p) ++ keccak (salt ++ keccak key))) /\
    solidityKeccak256 keccak [uint256 (Merkle.p_eId p); bytes32 (Merkle.p_leaf p)]
      = ([], Value (Merkle.p_nullifier p)).
Proof.
  unfold Merkle.verify_and_prove. intros H. peel H.
  injection H as <-.
  cbn [Merkle.p_root Merkle.p_leaf Merkle.p_proof Merkle.p_eId Merkle.p_nullifier].
  apply attempt_value in Ha6.
  assert (a11 = a7) by congruence. subst a11.
  pose proof (solidityKeccak256_eq _ Ha12) as Hagain.
  apply call_value in Ha2. apply when_value, negb_false_iff in Ha3.
  apply when_value, negb_false_iff in Ha8.
  apply when_value in Ha10. apply N.eqb_neq in Ha10.
  apply solidityKeccak256_value in Ha7, Ha12.
  clear Ha11. destruct Ha7 as (b & Hb & ->).
  apply solidityPack_two in Hb. destruct Hb as (salt & h & Hs & Hh & ->).
  apply pack1_bytes32 in Hs, Hh. destruct Hs as (Hs & Hlen).
  unfold utils_keccak256 in Hh. rewrite arrayify_hexlify in Hh.
  destruct Hh as (Hh & _). injection Hh as <-.
  destruct Ha12 as (c & Hc & ->).
  apply solidityPack_two in Hc. destruct Hc as (c1 & c2 & Hc1 & Hc2 & ->).
  apply pack1_bytes32 in Hc2. rewrite arrayify_hexlify in Hc2.
  destruct Hc2 as (Hc2 & _). injection Hc2 as <-.
  unfold pack1 in Hc1. destruct (a9 <? 2 ^ 256)%N; [|discriminate].
  injection Hc1 as <-.
  exists a2, salt, a5, a6. repeat split; auto.
Qed.

End MerkleFacts.

(** ** The variant without accumulator: structure of the vote route *)

Section SimpleFacts.

Variable keccak : Buffer -> Buffer.

(** The two hashing steps shared by the vote routes. *)
Lemma nullifier_derivation (saltHex base n : string) (key : Buffer) (eId : N) :
  snd (solidityKeccak256 keccak
         [bytes32 saltHex; bytes32 (utils_keccak256 keccak key)]) = Value base ->
  snd (solidityKeccak256 keccak [uint256 eId; bytes32 base]) = Value n ->
  exists salt, arrayify saltHex = Some salt /\ List.length salt = 32 /\
               base = hexlify (keccak (salt ++ keccak key)) /\
               n = hexlify (keccak (be_bytes 32 eId ++ keccak (salt ++ keccak key))).
Proof.
  intros Hb Hn.
  apply solidityKeccak256_value in Hb, Hn.
  destruct Hb as (b & Hb & ->). destruct Hn as (c & Hc & ->).
  apply solidityPack_two in Hb. destruct Hb as (salt & h & Hs & Hh & ->).
  apply pack1_bytes32 in Hs, Hh. destruct Hs as (Hs & Hlen).
  unfold utils_keccak256 in Hh. rewrite arrayify_hexlify in Hh.
  destruct Hh as (Hh & _). injection Hh as <-.
  apply solidityPack_two in Hc. destruct Hc as (c1 & c2 & Hc1 & Hc2 & ->).
  apply pack1_bytes32 in Hc2. rewrite arrayify_hexlify in Hc2.
  destruct Hc2 as (Hc2 & _). injection Hc2 as <-.
  unfold pack1 in Hc1. destruct (eId <? 2 ^ 256)%N; [|discriminate].
  injection Hc1 as <-.
  exists salt. auto.
Qed.

Lemma Simple_getCurrentElectionIdSafe_quiet (W : World) :
  quiet (Simple.getCurrentElectionIdSafe W).
Proof. unfold Simple.getCurrentElectionIdSafe. walk @quiet_bind. Qed.

Lemma Simple_getCurrentElectionIdSafe_polite (W : World) :
  polite (Simple.getCurrentElectionIdSafe W).
Proof. unfold Simple.getCurrentElectionIdSafe. walk @polite_bind. Qed.

#[local] Hint Resolve Simple_getCurrentElectionIdSafe_quiet
  Simple_getCurrentElectionIdSafe_polite : handler.

Lemma Simple_before_submission_quiet (W : World) (req : Simple.VoteRequest) :
  quiet (Simple.before_submission keccak W req).
Proof.
  unfold Simple.before_submission, Simple.verify_and_derive,
    Simple.precheck_duplicate, Simple.require_vote_fn.
  walk @quiet_bind.
Qed.

Lemma Simple_before_submission_polite (W : World) (req : Simple.VoteRequest) :
  polite (Simple.before_submission keccak W req).
Proof.
  unfold Simple.before_submission, Simple.verify_and_derive,
    Simple.precheck_duplicate, Simple.require_vote_fn.
  walk @polite_bind.
Qed.

Lemma Simple_vote_failed (W : World) (req : Simple.VoteRequest) :
  fails (Simple.before_submission keccak W req) ->
  fst (Simple.vote keccak W req) = fst (Simple.before_submission keccak W req) /\
  status (snd (Simple.vote keccak W req)) <> 200.
Proof.
  intros Hf. unfold Simple.vote.
  pose proof (Simple_before_submission_polite W req) as Hp.
  destruct (Simple.before_submission keccak W req) as [t [p|r|e]]; simpl.
  - destruct (Hf p). reflexivity.
  - split; [reflexivity|]. apply Hp. reflexivity.
  - split; [reflexivity|]. discriminate.
Qed.

Lemma Simple_submit_trace (W : World) (req : Simple.VoteRequest) (p : Simple.Prepared) e :
  In e (fst (Simple.submit W req p)) ->
  state_mutating e = true ->
  e = SendVoteWithNullifier2 (Simple.p_nullifier p)
        (match Simple.candidateId req with Some c => c | None => 0%Z end).
Proof.
  unfold Simple.submit.
  destruct (voteWithNullifier2 W _ _) as [tx|x]; simpl.
  - destruct (tx_wait tx); simpl; intros H Hm;
      repeat (destruct H as [<-|H]; try discriminate; auto); destruct H.
  - intros [<-|[]] _. reflexivity.
Qed.

Lemma Simple_vote_sent (W : World) (req : Simple.VoteRequest) n cid :
  In (SendVoteWithNullifier2 n cid) (fst (Simple.vote keccak W req)) ->
  exists p, snd (Simple.before_submission keccak W req) = Value p /\
            n = Simple.p_nullifier p.
Proof.
  unfold Simple.vote. rewrite tryCatch_trace, bind_trace. intros H.
  apply in_app_or in H. destruct H as [H|H].
  - exfalso. eapply not_quiet_in; eauto using Simple_before_submission_quiet.
  - destruct (snd (Simple.before_submission keccak W req)) as [p|r|e]; try contradiction.
    exists p. apply Simple_submit_trace in H; [|reflexivity].
    injection H as -> _. auto.
Qed.

Lemma Simple_prepared (W : World) (req : Simple.VoteRequest) (p : Simple.Prepared) :
  snd (Simple.verify_and_derive keccak W req) = Value p ->
  exists vr reply salt key,
    rnp_verify W (Simple.dni req) (Simple.fingerprint req) = Returns vr /\
    http_parsed vr = Some reply /\
    verify_match reply = true /\
    arrayify (verify_salt reply) = Some salt /\
    List.length salt = 32 /\
    snd (Simple.getCurrentElectionIdSafe W) = Value (Simple.p_eId p) /\
    toUtf8Bytes (Simple.dni req) = Returns key /\
    Simple.p_nullifier p =
      hexlify (keccak (be_bytes 32 (Simple.p_eId p) ++ keccak (salt ++ keccak key))).
Proof.
  unfold Simple.verify_and_derive. intros H. peel H.
  injection H as <-.
  cbn [Simple.p_eId Simple.p_nullifier].
  apply call_value in Ha2. apply orThrow_value in Ha4.
  apply when_value, negb_false_iff in Ha5.
  apply attempt_value in Ha8.
  destruct (nullifier_derivation _ _ _ Ha9 Ha10) as (salt & Hs & Hlen & _ & Hn).
  exists a2, a4, salt, a8. repeat split; auto.
Qed.

End SimpleFacts.

(** ** Properties of the protocol *)

(** *** Nullifier derivation *)

Lemma Merkle_vote_nullifier (keccak : Buffer -> Buffer) (W : World)
  (req : Merkle.VoteRequest) n cid prf lf :
  In (SendVoteWithNullifier4 n cid prf lf) (fst (Merkle.vote keccak W req)) ->
  exists reply salt eId key,
    Merkle.fetchJSON (RNP_URL W ++ "/verify")%string
      (rnp_verify W (Merkle.dni req) (Merkle.fingerprint req)) = Returns reply /\
    arrayify (verify_salt reply) = Some salt /\
    snd (Merkle.getCurrentElectionIdSafe W) = Value eId /\
    toUtf8Bytes (Merkle.dni req) = Returns key /\
    n = hexlify (keccak (be_bytes 32 eId ++ keccak (salt ++ keccak key))).
Proof.
  intros H. apply Merkle_vote_sent in H. destruct H as (p & Hp & -> & _).
  unfold Merkle.before_submission in Hp. apply bind_value_inv in Hp.
  destruct Hp as (q & Hq & Hp). peel Hp. injection Hp as <-.
  apply Merkle_prepared in Hq.
  destruct Hq as (reply & salt & g & key & Hr & _ & Hs & _ & _ & _ & Hk & _ & _ & He & _ & _
                  & Hn & _).
  exists reply, salt, (Merkle.p_eId q), key. repeat split; auto.
Qed.

Lemma Simple_vote_nullifier (keccak : Buffer -> Buffer) (W : World)
  (req : Simple.VoteRequest) n cid :
  In (SendVoteWithNullifier2 n cid) (fst (Simple.vote keccak W req)) ->
  exists vr reply salt eId key,
    rnp_verify W (Simple.dni req) (Simple.fingerprint req) = Returns vr /\
    http_parsed vr = Some reply /\
    arrayify (verify_salt reply) = Some salt /\
    snd (Simple.getCurrentElectionIdSafe W) = Value eId /\
    toUtf8Bytes (Simple.dni req) = Returns key /\
    n = hexlify (keccak (be_bytes 32 eId ++ keccak (salt ++ keccak key))).
Proof.
  intros H. apply Simple_vote_sent in H. destruct H as (p & Hp & ->).
  unfold Simple.before_submission in Hp. apply bind_value_inv in Hp.
  destruct Hp as (q & Hq & Hp). peel Hp. injection Hp as <-.
  apply Simple_prepared in Hq. rename Hq into Hp. rename q into p.
  destruct Hp as (vr & reply & salt & key & Hv & Hr & _ & Hs & _ & He & Hk & Hn).
  exists vr, reply, salt, (Simple.p_eId p), key. repeat split; auto.
Qed.

(** C1, as stated, fails for an identity key that is not sent as a string.
    The routes let every truthy JSON value through and hand it to
    toUtf8Bytes as it is; of a number that call finds no character.  The
    key 801199912345 sent as a number gets the nullifier of the empty text,
    not the one of its digits, and another voter whose key is sent as a
    number, with the same salt, gets the very same nullifier. *)
Lemma numeric_key_is_hashed_as_no_text :
  arrayify sample_salt = Some sample_salt_bytes /\
  In (SendVoteWithNullifier2 sample_nullifier_of_no_text 2)
     (fst (Simple.vote sample_hash world_synced numeric_simple_request)) /\
  sample_nullifier_of_no_text
    = hexlify (spec_nullifier sample_hash 1 sample_salt_bytes []) /\
  sample_nullifier_of_no_text
    <> hexlify (spec_nullifier sample_hash 1 sample_salt_bytes
                  (ascii_units "801199912345")) /\
  In (SendVoteWithNullifier2 sample_nullifier_of_no_text 2)
     (fst (Simple.vote sample_hash world_synced other_numeric_simple_request)).
Proof.
  split; [reflexivity|]. split; [pick_event|]. split; [reflexivity|].
  split; [vm_compute; discriminate|]. pick_event.
Qed.

(** C1, amended. In both vote routes the nullifier handed to
    voteWithNullifier is hash(electionId, hash(salt, hash(text))): Keccak-256
    over the election id as a 256-bit word followed by the hash of the salt
    bytes followed by the hash of the UTF-8 bytes of a text.  That text is
    the identity key itself when the key is sent as a string of well-formed
    text, and the empty text when it is sent as any other value the route
    lets through (a number, true, an empty array, an object without a
    positive length).  The nullifier is a function of election id, salt and
    identity key alone: two requests, in whatever worlds, that agree on the
    three send the same nullifier. *)
Theorem nullifier_is_spec_hash (keccak : Buffer -> Buffer) :
  (forall W req n cid prf lf,
     In (SendVoteWithNullifier4 n cid prf lf) (fst (Merkle.vote keccak W req)) ->
     exists reply salt eId,
       Merkle.fetchJSON (RNP_URL W ++ "/verify")%string
         (rnp_verify W (Merkle.dni req) (Merkle.fingerprint req)) = Returns reply /\
       arrayify (verify_salt reply) = Some salt /\
       snd (Merkle.getCurrentElectionIdSafe W) = Value eId /\
       (exists key, toUtf8Bytes (Merkle.dni req) = Returns key /\
                    n = hexlify (keccak (be_bytes 32 eId ++ keccak (salt ++ keccak key)))) /\
       (proper_text (Merkle.dni req) = true ->
        n = hexlify (spec_nullifier keccak eId salt (hashed_text (Merkle.dni req)))))
  /\
  (forall W req n cid,
     In (SendVoteWithNullifier2 n cid) (fst (Simple.vote keccak W req)) ->
     exists vr reply salt eId,
       rnp_verify W (Simple.dni req) (Simple.fingerprint req) = Returns vr /\
       http_parsed vr = Some reply /\
       arrayify (verify_salt reply) = Some salt /\
       snd (Simple.getCurrentElectionIdSafe W) = Value eId /\
       (exists key, toUtf8Bytes (Simple.dni req) = Returns key /\
                    n = hexlify (keccak (be_bytes 32 eId ++ keccak (salt ++ keccak key)))) /\
       (proper_text (Simple.dni req) = true ->
        n = hexlify (spec_nullifier keccak eId salt (hashed_text (Simple.dni req)))))
  /\
  (forall W1 req1 n1 cid1 prf1 lf1 W2 req2 n2 cid2 prf2 lf2 r1 r2,
     In (SendVoteWithNullifier4 n1 cid1 prf1 lf1) (fst (Merkle.vote keccak W1 req1)) ->
     In (SendVoteWithNullifier4 n2 cid2 prf2 lf2) (fst (Merkle.vote keccak W2 req2)) ->
     Merkle.fetchJSON (RNP_URL W1 ++ "/verify")%string
       (rnp_verify W1 (Merkle.dni req1) (Merkle.fingerprint req1)) = Returns r1 ->
     Merkle.fetchJSON (RNP_URL W2 ++ "/verify")%string
       (rnp_verify W2 (Merkle.dni req2) (Merkle.fingerprint req2)) = Returns r2 ->
     verify_salt r1 = verify_salt r2 ->
     snd (Merkle.getCurrentElectionIdSafe W1) = snd (Merkle.getCurrentElectionIdSafe W2) ->
     Merkle.dni req1 = Merkle.dni req2 ->
     n1 = n2)
  /\
  (forall W1 req1 n1 cid1 W2 req2 n2 cid2 v1 v2 r1 r2,
     In (SendVoteWithNullifier2 n1 cid1) (fst (Simple.vote keccak W1 req1)) ->
     In (SendVoteWithNullifier2 n2 cid2) (fst (Simple.vote keccak W2 req2)) ->
     rnp_verify W1 (Simple.dni req1) (Simple.fingerprint req1) = Returns v1 ->
     rnp_verify W2 (Simple.dni req2) (Simple.fingerprint req2) = Returns v2 ->
     http_parsed v1 = Some r1 -> http_parsed v2 = Some r2 ->
     verify_salt r1 = verify_salt r2 ->
     snd (Simple.getCurrentElectionIdSafe W1) = snd (Simple.getCurrentElectionIdSafe W2) ->
     Simple.dni req1 = Simple.dni req2 ->
     n1 = n2).
Proof.
  split; [|split; [|split]].
  - intros W req n cid prf lf H. apply Merkle_vote_nullifier in H.
    destruct H as (reply & salt & eId & key & Hr & Hs & He & Hk & ->).
    exists reply, salt, eId. repeat split; auto; [eauto|].
    intros Hp. rewrite (toUtf8Bytes_proper _ Hk Hp). reflexivity.
  - intros W req n cid H. apply Simple_vote_nullifier in H.
    destruct H as (vr & reply & salt & eId & key & Hv & Hr & Hs & He & Hk & ->).
    exists vr, reply, salt, eId. repeat split; auto; [eauto|].
    intros Hp. rewrite (toUtf8Bytes_proper _ Hk Hp). reflexivity.
  - intros W1 req1 n1 cid1 prf1 lf1 W2 req2 n2 cid2 prf2 lf2 r1 r2 H1 H2 F1 F2 Hs He Hd.
    apply Merkle_vote_nullifier in H1, H2.
    destruct H1 as (x1 & s1 & e1 & k1 & A1 & B1 & C1 & D1 & ->).
    destruct H2 as (x2 & s2 & e2 & k2 & A2 & B2 & C2 & D2 & ->).
    assert (x1 = r1) by congruence. assert (x2 = r2) by congruence. subst x1 x2.
    assert (k1 = k2) by congruence. assert (s1 = s2) by congruence.
    assert (e1 = e2) by congruence. subst. reflexivity.
  - intros W1 req1 n1 cid1 W2 req2 n2 cid2 v1 v2 r1 r2 H1 H2 F1 F2 P1 P2 Hs He Hd.
    apply Simple_vote_nullifier in H1, H2.
    destruct H1 as (y1 & x1 & s1 & e1 & k1 & A1 & A1' & B1 & C1 & D1 & ->).
    destruct H2 as (y2 & x2 & s2 & e2 & k2 & A2 & A2' & B2 & C2 & D2 & ->).
    assert (y1 = v1) by congruence. assert (y2 = v2) by congruence. subst y1 y2.
    assert (x1 = r1) by congruence. assert (x2 = r2) by congruence. subst x1 x2.
    assert (k1 = k2) by congruence. assert (s1 = s2) by congruence.
    assert (e1 = e2) by congruence. subst. reflexivity.
Qed.

Lemma nullifier_is_spec_hash_witness :
  (exists reply salt eId,
     Merkle.fetchJSON "http://127.0.0.1:4000/verify"
       (rnp_verify (sample_world full_abi sample_leaves sample_root true)
          (Merkle.dni sample_request) (Merkle.fingerprint sample_request))
       = Returns reply /\
     arrayify (verify_salt reply) = Some salt /\
     snd (Merkle.getCurrentElectionIdSafe
            (sample_world full_abi sample_leaves sample_root true)) = Value eId /\
     (exists key, toUtf8Bytes (Merkle.dni sample_request) = Returns key /\
                  sample_nullifier =
                    hexlify (sample_hash (be_bytes 32 eId
                                            ++ sample_hash (salt ++ sample_hash key)))) /\
     (proper_text (Merkle.dni sample_request) = true ->
      sample_nullifier = hexlify (spec_nullifier sample_hash eId salt sample_dni)))
  /\
  (exists vr reply salt eId,
     rnp_verify (sample_world full_abi [] "" true)
       (Simple.dni numeric_simple_request) (Simple.fingerprint numeric_simple_request)
       = Returns vr /\
     http_parsed vr = Some reply /\
     arrayify (verify_salt reply) = Some salt /\
     snd (Simple.getCurrentElectionIdSafe (sample_world full_abi [] "" true))
       = Value eId /\
     (exists key, toUtf8Bytes (Simple.dni numeric_simple_request) = Returns key /\
                  sample_nullifier_of_no_text =
                    hexlify (sample_hash (be_bytes 32 eId
                                            ++ sample_hash (salt ++ sample_hash key)))) /\
     (proper_text (Simple.dni numeric_simple_request) = true ->
      sample_nullifier_of_no_text = hexlify (spec_nullifier sample_hash eId salt [])))
  /\
  sample_nullifier = sample_nullifier
  /\
  sample_nullifier = sample_nullifier.
Proof.
  destruct (nullifier_is_spec_hash sample_hash) as (M & S & DM & DS).
  split; [|split; [|split]].
  - apply (M (sample_world full_abi sample_leaves sample_root true) sample_request
             sample_nullifier 2%Z
             [ "0x2222222222222222222222222222222222222222222222222222222222222222";
               "0x3333333333333333333333333333333333333333333333333333333333333333" ]
             sample_leaf).
    pick_event.
  - apply (S (sample_world full_abi [] "" true) numeric_simple_request
             sample_nullifier_of_no_text 2%Z).
    pick_event.
  - apply (DM (sample_world full_abi sample_leaves sample_root true) sample_request
              sample_nullifier 2%Z
              [ "0x2222222222222222222222222222222222222222222222222222222222222222";
                "0x3333333333333333333333333333333333333333333333333333333333333333" ]
              sample_leaf
              (sample_world full_abi [sample_leaf] sample_leaf true) other_request
              sample_nullifier 7%Z [] sample_leaf
              {| verify_match := true; verify_salt := sample_salt |}
              {| verify_match := true; verify_salt := sample_salt |});
      pick_event.
  - apply (DS (sample_world full_abi [] "" true) sample_simple_request
              sample_nullifier 2%Z
              (sample_world [ "getCurrentElectionId()"; "voteWithNullifier(bytes32,uint256)" ]
                 [] "" true)
              other_simple_request sample_nullifier 7%Z
              {| http_ok := true; http_status := "200"; http_text := [];
                 http_parsed := Some {| verify_match := true;
                                        verify_salt := sample_salt |} |}
              {| http_ok := true; http_status := "200"; http_text := [];
                 http_parsed := Some {| verify_match := true;
                                        verify_salt := sample_salt |} |}
              {| verify_match := true; verify_salt := sample_salt |}
              {| verify_match := true; verify_salt := sample_salt |});
      pick_event.
Defined.

(** *** Inclusion proofs *)

(** C2. For every leaf of the eligibility set the accumulator builder was
    given, the inclusion proof that [getHexProof] produces for it, folded
    from the leaf with sorted-pair hashing, recomputes exactly the root the
    builder returns for that set. *)
Theorem inclusion_proof_recomputes_root (keccak : Buffer -> Buffer) (W : World)
  (g : Merkle.GlobalTree) (x : string) :
  snd (Merkle.computeGlobalTree keccak W) = Value g ->
  In x (Merkle.leaves g) ->
  bufferToHex
    (MerkleTreeJs.foldProof keccak
       (map toBuf (MerkleTreeJs.getHexProof (Merkle.tree g) (toBuf x)))
       (toBuf x))
  = Merkle.root g.
Proof.
  unfold Merkle.computeGlobalTree. intros H Hin.
  apply bind_value_inv in H. destruct H as (reply & _ & H).
  destruct (reply_leaves reply) as [lvs|]; [|discriminate].
  injection H as <-. simpl in *.
  unfold MerkleTreeJs.getHexProof. rewrite map_map.
  rewrite (map_ext _ (fun b => b)) by (intros; apply toBuf_bufferToHex).
  rewrite map_id, getProof_sound by (apply in_map; assumption).
  reflexivity.
Qed.

Lemma inclusion_proof_recomputes_root_witness :
  bufferToHex
    (MerkleTreeJs.foldProof sample_hash
       (map toBuf
          [ "0x2222222222222222222222222222222222222222222222222222222222222222";
            "0x3333333333333333333333333333333333333333333333333333333333333333" ])
       (toBuf sample_leaf))
  = sample_root.
Proof.
  apply (@inclusion_proof_recomputes_root sample_hash
           (sample_world full_abi sample_leaves sample_root true)
           {| Merkle.tree :=
                MerkleTreeJs.newMerkleTree sample_hash (map toBuf sample_leaves);
              Merkle.root := sample_root;
              Merkle.leaves := sample_leaves |}
           sample_leaf).
  - pick_event.
  - right; left; reflexivity.
Defined.

(** *** The nullifier and the public leaf *)

(** C8. In the route with the accumulator the base nullifier is the same
    byte string as the leaf, hash(salt, hash(identityKey)), the key being
    hashed from the bytes toUtf8Bytes returns for it (for a key of
    well-formed text, its UTF-8 bytes); so the nullifier sent is
    hash(electionId, Leaf), and solidityKeccak256 over the election id and
    the leaf sent in the same transaction, a leaf that the registry lists,
    yields it. *)
Theorem nullifier_is_hash_of_leaf (keccak : Buffer -> Buffer) (W : World)
  (req : Merkle.VoteRequest) n cid prf lf :
  In (SendVoteWithNullifier4 n cid prf lf) (fst (Merkle.vote keccak W req)) ->
  exists reply salt eId g,
    Merkle.fetchJSON (RNP_URL W ++ "/verify")%string
      (rnp_verify W (Merkle.dni req) (Merkle.fingerprint req)) = Returns reply /\
    arrayify (verify_salt reply) = Some salt /\
    snd (Merkle.getCurrentElectionIdSafe W) = Value eId /\
    snd (Merkle.computeGlobalTree keccak W) = Value g /\
    existsb (fun x => String.eqb (Hex.toLowerCase x) (Hex.toLowerCase lf))
      (Merkle.leaves g) = true /\
    (exists key, toUtf8Bytes (Merkle.dni req) = Returns key /\
                 lf = hexlify (keccak (salt ++ keccak key))) /\
    (proper_text (Merkle.dni req) = true ->
     lf = hexlify (spec_leaf keccak salt (hashed_text (Merkle.dni req)))) /\
    n = hexlify (keccak (be_bytes 32 eId ++ toBuf lf)) /\
    solidityKeccak256 keccak [uint256 eId; bytes32 lf] = ([], Value n).
Proof.
  intros H. apply Merkle_vote_sent in H. destruct H as (p & Hp & -> & _ & ->).
  unfold Merkle.before_submission in Hp. apply bind_value_inv in Hp.
  destruct Hp as (q & Hq & Hp). peel Hp. injection Hp as <-.
  apply Merkle_prepared in Hq.
  destruct Hq as (reply & salt & g & key & Hr & _ & Hs & _ & Hg & _ & Hb & Hl & _ & He & _
                  & Hin & Hn & Hk).
  exists reply, salt, (Merkle.p_eId q), g.
  repeat split; auto.
  - exists key. auto.
  - intros Hp. rewrite Hl, (toUtf8Bytes_proper _ Hb Hp). reflexivity.
  - rewrite Hn, Hl, toBuf_hexlify. reflexivity.
Qed.

Lemma nullifier_is_hash_of_leaf_witness :
  exists reply salt eId g,
    Merkle.fetchJSON "http://127.0.0.1:4000/verify"
      (rnp_verify (sample_world full_abi sample_leaves sample_root true)
         (Merkle.dni sample_request) (Merkle.fingerprint sample_request))
      = Returns reply /\
    arrayify (verify_salt reply) = Some salt /\
    snd (Merkle.getCurrentElectionIdSafe
           (sample_world full_abi sample_leaves sample_root true)) = Value eId /\
    snd (Merkle.computeGlobalTree sample_hash
           (sample_world full_abi sample_leaves sample_root true)) = Value g /\
    existsb (fun x => String.eqb (Hex.toLowerCase x) (Hex.toLowerCase sample_leaf))
      (Merkle.leaves g) = true /\
    (exists key, toUtf8Bytes (Merkle.dni sample_request) = Returns key /\
                 sample_leaf = hexlify (sample_hash (salt ++ sample_hash key))) /\
    (proper_text (Merkle.dni sample_request) = true ->
     sample_leaf = hexlify (spec_leaf sample_hash salt sample_dni)) /\
    sample_nullifier = hexlify (sample_hash (be_bytes 32 eId ++ toBuf sample_leaf)) /\
    solidityKeccak256 sample_hash [uint256 eId; bytes32 sample_leaf]
      = ([], Value sample_nullifier).
Proof.
  apply (nullifier_is_hash_of_leaf sample_hash
           (sample_world full_abi sample_leaves sample_root true) sample_request
           sample_nullifier 2%Z
           [ "0x2222222222222222222222222222222222222222222222222222222222222222";
             "0x3333333333333333333333333333333333333333333333333333333333333333" ]
           sample_leaf).
  pick_event.
Defined.

(** *** Root reconciliation *)

Lemma Merkle_vote_after_prepare (keccak : Buffer -> Buffer) (W : World)
  (req : Merkle.VoteRequest) (p : Merkle.Prepared) :
  snd (Merkle.verify_and_prove keccak W req) = Value p ->
  Merkle.vote keccak W req =
    tryCatch
      (bind (fst (Merkle.verify_and_prove keccak W req), Value p)
         (fun p =>
            (Merkle.validate_root W p ;; Merkle.precheck_duplicate W p ;;
             Merkle.require_vote_fn W ;; Merkle.submit W req p)%handler))
      (fun e => {| status := 400; body := Send (error_text e "Error del relayer") |}).
Proof.
  intros H. unfold Merkle.vote, Merkle.before_submission.
  destruct (Merkle.verify_and_prove keccak W req) as [t x]. simpl in H. subst x.
  f_equal. rewrite bind_assoc. cbn [bind fst].
  rewrite ?bind_assoc.
  destruct (Merkle.validate_root W p) as [t1 [[]|r|e]]; cbn [bind]; auto.
  rewrite ?bind_assoc.
  destruct (Merkle.precheck_duplicate W p) as [t2 [[]|r|e]]; cbn [bind]; auto.
  rewrite ?bind_assoc.
  destruct (Merkle.require_vote_fn W) as [t3 [[]|r|e]]; cbn [bind]; auto.
  rewrite bind_ret_l. reflexivity.
Qed.

(** C3. Once verification and membership are through, the route reads the
    root the ledger holds for the election.  When the contract has no getter
    for it, or the getter returns the zero hash, the request is rejected
    because the root is not set; when the ledger holds another root than the
    one computed, it is rejected with the mismatch message whatever the
    proof; in none of these cases is anything sent to the ledger.  When the
    two roots are equal the check passes, and the vote is sent unless the
    duplicate pre-check or the missing vote signature stops it. *)
Theorem root_reconciliation (keccak : Buffer -> Buffer) (W : World)
  (req : Merkle.VoteRequest) (p : Merkle.Prepared) :
  snd (Merkle.verify_and_prove keccak W req) = Value p ->
  let t := fst (Merkle.verify_and_prove keccak W req) in
  let cid := match Merkle.candidateId req with Some c => c | None => 0%Z end in
  (hasFn W "merkleRootOf(uint256)" = false ->
   hasFn W "setCurrentElectionMerkleRoot(bytes32)" = true ->
   Merkle.vote keccak W req =
     (t, {| status := 400;
            body := Send "Merkle root no seteada en la elección actual" |}) /\
   no_state_mutation (fst (Merkle.vote keccak W req)))
  /\
  (hasFn W "merkleRootOf(uint256)" = true ->
   merkleRootOf W (Merkle.p_eId p) = Returns HashZero ->
   Merkle.vote keccak W req =
     (t ++ [CallMerkleRootOf (Merkle.p_eId p)],
      {| status := 400;
         body := Send "Merkle root no seteada en la elección actual" |}) /\
   no_state_mutation (fst (Merkle.vote keccak W req)))
  /\
  (forall onchainRoot,
     hasFn W "merkleRootOf(uint256)" = true ->
     merkleRootOf W (Merkle.p_eId p) = Returns onchainRoot ->
     onchainRoot <> HashZero ->
     Hex.toLowerCase onchainRoot <> Hex.toLowerCase (Merkle.p_root p) ->
     Merkle.vote keccak W req =
       (t ++ [CallMerkleRootOf (Merkle.p_eId p)],
        {| status := 400;
           body := Send "La Merkle root calculada no coincide con la on-chain. Ejecuta /admin/sync-root" |}) /\
     no_state_mutation (fst (Merkle.vote keccak W req)))
  /\
  (forall onchainRoot,
     hasFn W "merkleRootOf(uint256)" = true ->
     merkleRootOf W (Merkle.p_eId p) = Returns onchainRoot ->
     onchainRoot <> HashZero ->
     Hex.toLowerCase onchainRoot = Hex.toLowerCase (Merkle.p_root p) ->
     Merkle.validate_root W p = ([CallMerkleRootOf (Merkle.p_eId p)], Value tt) /\
     (snd (Merkle.precheck_duplicate W p) = Value tt ->
      hasFn W "voteWithNullifier(bytes32,uint256,bytes32[],bytes32)" = true ->
      In (SendVoteWithNullifier4 (Merkle.p_nullifier p) cid (Merkle.p_proof p)
            (Merkle.p_leaf p))
         (fst (Merkle.vote keccak W req)))).
Proof.
  intros Hp t cid.
  pose proof (Merkle_verify_and_prove_quiet keccak W req) as Hq.
  fold t in Hq. unfold quiet in Hq.
  rewrite (Merkle_vote_after_prepare _ _ _ Hp). fold t.
  cbn beta iota delta [bind].
  repeat split.
  - unfold Merkle.validate_root. rewrite H, H0. cbn. rewrite app_nil_r. reflexivity.
  - unfold Merkle.validate_root. rewrite H, H0. cbn. rewrite app_nil_r. assumption.
  - unfold Merkle.validate_root. rewrite H, H0. cbn. reflexivity.
  - unfold Merkle.validate_root. rewrite H, H0. cbn.
    apply Forall_app. split; [assumption | repeat constructor].
  - unfold Merkle.validate_root. rewrite H, H0.
    apply String.eqb_neq in H1, H2. cbn. rewrite H1. cbn. rewrite H2. cbn. reflexivity.
  - unfold Merkle.validate_root. rewrite H, H0.
    apply String.eqb_neq in H1, H2. cbn. rewrite H1. cbn. rewrite H2. cbn.
    apply Forall_app. split; [assumption | repeat constructor].
  - unfold Merkle.validate_root. rewrite H, H0.
    apply String.eqb_neq in H1. apply String.eqb_eq in H2.
    cbn. rewrite H1. cbn. rewrite H2. cbn. reflexivity.
  - intros Hd Hv.
    assert (Hr : Merkle.validate_root W p = ([CallMerkleRootOf (Merkle.p_eId p)], Value tt)).
    { unfold Merkle.validate_root. rewrite H, H0.
      apply String.eqb_neq in H1. apply String.eqb_eq in H2.
      cbn. rewrite H1. cbn. rewrite H2. cbn. reflexivity. }
    rewrite tryCatch_trace, Hr. cbn [bind].
    destruct (Merkle.precheck_duplicate W p) as [t2 x]. simpl in Hd. subst x.
    unfold Merkle.require_vote_fn. rewrite Hv. cbn [negb when_ ret bind].
    unfold Merkle.submit. fold cid.
    destruct (voteWithNullifier4 W (Merkle.p_nullifier p) cid (Merkle.p_proof p)
                (Merkle.p_leaf p)) as [tx|e]; cbn.
    + destruct (tx_wait tx); cbn;
        apply in_or_app; right; right; apply in_or_app; right; left; reflexivity.
    + apply in_or_app. right. right. apply in_or_app. right. left. reflexivity.
Qed.

Lemma root_reconciliation_witness :
  (Merkle.vote sample_hash world_root_absent sample_request =
     (fst (Merkle.verify_and_prove sample_hash world_root_absent sample_request),
      {| status := 400;
         body := Send "Merkle root no seteada en la elección actual" |}) /\
   no_state_mutation (fst (Merkle.vote sample_hash world_root_absent sample_request)))
  /\
  (Merkle.vote sample_hash world_root_zero sample_request =
     (fst (Merkle.verify_and_prove sample_hash world_root_zero sample_request)
        ++ [CallMerkleRootOf (Merkle.p_eId sample_prepared)],
      {| status := 400;
         body := Send "Merkle root no seteada en la elección actual" |}) /\
   no_state_mutation (fst (Merkle.vote sample_hash world_root_zero sample_request)))
  /\
  (Merkle.vote sample_hash world_root_stale sample_request =
     (fst (Merkle.verify_and_prove sample_hash world_root_stale sample_request)
        ++ [CallMerkleRootOf (Merkle.p_eId sample_prepared)],
      {| status := 400;
         body := Send "La Merkle root calculada no coincide con la on-chain. Ejecuta /admin/sync-root" |}) /\
   no_state_mutation (fst (Merkle.vote sample_hash world_root_stale sample_request)))
  /\
  In (SendVoteWithNullifier4 (Merkle.p_nullifier sample_prepared)
        match Merkle.candidateId sample_request with Some c => c | None => 0%Z end
        (Merkle.p_proof sample_prepared) (Merkle.p_leaf sample_prepared))
     (fst (Merkle.vote sample_hash world_synced sample_request)).
Proof.
  split; [|split; [|split]].
  - apply (proj1 (@root_reconciliation sample_hash world_root_absent sample_request sample_prepared
                    ltac:(pick_event)));
      reflexivity.
  - apply (proj1 (proj2 (@root_reconciliation sample_hash world_root_zero sample_request
                           sample_prepared ltac:(pick_event))));
      reflexivity.
  - apply (proj1 (proj2 (proj2 (@root_reconciliation sample_hash world_root_stale sample_request
                                  sample_prepared ltac:(pick_event)))) stale_root);
      solve [ reflexivity | vm_compute; discriminate ].
  - apply (proj2 (proj2 (proj2 (@root_reconciliation sample_hash world_synced sample_request
                                  sample_prepared ltac:(pick_event)))) sample_root);
      solve [ reflexivity | vm_compute; discriminate ].
Defined.

(** *** Failures before submission *)

(** C4, as stated, fails in its last part: a request the registry answers
    with match:false has made a ledger call.  Both routes read the
    contract's code from the ledger node before they ask the registry. *)
Lemma rejected_vote_has_read_the_ledger :
  Merkle.vote sample_hash world_no_match sample_request =
    ([ProviderGetCode;
      RegistryVerify (Merkle.dni sample_request) (Merkle.fingerprint sample_request)],
     {| status := 401; body := Send "Biometría inválida o DNI no habilitado" |}) /\
  ~ no_ledger_call (fst (Merkle.vote sample_hash world_no_match sample_request)) /\
  Simple.vote sample_hash world_no_match sample_simple_request =
    ([ProviderGetCode;
      RegistryVerify (Simple.dni sample_simple_request)
        (Simple.fingerprint sample_simple_request)],
     {| status := 401; body := Send "Biometría inválida o DNI no habilitado" |}) /\
  ~ no_ledger_call (fst (Simple.vote sample_hash world_no_match sample_simple_request)).
Proof.
  assert (M : Merkle.vote sample_hash world_no_match sample_request =
    ([ProviderGetCode;
      RegistryVerify (Merkle.dni sample_request) (Merkle.fingerprint sample_request)],
     {| status := 401; body := Send "Biometría inválida o DNI no habilitado" |}))
    by (vm_compute; reflexivity).
  assert (S : Simple.vote sample_hash world_no_match sample_simple_request =
    ([ProviderGetCode;
      RegistryVerify (Simple.dni sample_simple_request)
        (Simple.fingerprint sample_simple_request)],
     {| status := 401; body := Send "Biometría inválida o DNI no habilitado" |}))
    by (vm_compute; reflexivity).
  split; [exact M|]. split; [|split; [exact S|]].
  - rewrite M. intros H. inversion H as [|e t He Ht]. discriminate He.
  - rewrite S. intros H. inversion H as [|e t He Ht]. discriminate He.
Qed.

(** C4, amended. In both vote routes, when a step before the transaction
    fails (whether it returns early or throws) the route answers with an
    error status and its trace holds no root publication and no vote
    submission.  In particular, when the registry answers match:false the
    answer is 401, and all the route has done is the contract-code check
    and the verification request: no leaves fetched, no tree built, no call
    on the ledger contract; the reading of the contract's code, made before
    the registry is asked, is the one call of the run that reaches the
    ledger. *)
Theorem failure_before_submission_is_terminal (keccak : Buffer -> Buffer) (W : World) :
  (forall req,
     fails (Merkle.before_submission keccak W req) ->
     status (snd (Merkle.vote keccak W req)) <> 200 /\
     no_state_mutation (fst (Merkle.vote keccak W req)))
  /\
  (forall req,
     fails (Simple.before_submission keccak W req) ->
     status (snd (Simple.vote keccak W req)) <> 200 /\
     no_state_mutation (fst (Simple.vote keccak W req)))
  /\
  (forall req c code reply,
     truthy (Merkle.dni req) = true ->
     truthy (Merkle.fingerprint req) = true ->
     Merkle.candidateId req = Some c ->
     getCode W = Returns code -> str_truthy code = true -> code <> "0x" ->
     Merkle.fetchJSON (RNP_URL W ++ "/verify")%string
       (rnp_verify W (Merkle.dni req) (Merkle.fingerprint req)) = Returns reply ->
     verify_match reply = false ->
     Merkle.vote keccak W req =
       ([ProviderGetCode; RegistryVerify (Merkle.dni req) (Merkle.fingerprint req)],
        {| status := 401; body := Send "Biometría inválida o DNI no habilitado" |}) /\
     no_contract_call (fst (Merkle.vote keccak W req)) /\
     filter ledger_call (fst (Merkle.vote keccak W req)) = [ProviderGetCode])
  /\
  (forall req c code vr reply,
     truthy (Simple.dni req) = true ->
     truthy (Simple.fingerprint req) = true ->
     Simple.candidateId req = Some c ->
     getCode W = Returns code -> str_truthy code = true -> code <> "0x" ->
     rnp_verify W (Simple.dni req) (Simple.fingerprint req) = Returns vr ->
     http_ok vr = true -> http_parsed vr = Some reply ->
     verify_match reply = false ->
     Simple.vote keccak W req =
       ([ProviderGetCode; RegistryVerify (Simple.dni req) (Simple.fingerprint req)],
        {| status := 401; body := Send "Biometría inválida o DNI no habilitado" |}) /\
     no_contract_call (fst (Simple.vote keccak W req)) /\
     filter ledger_call (fst (Simple.vote keccak W req)) = [ProviderGetCode]).
Proof.
  split; [|split; [|split]].
  - intros req Hf. destruct (@Merkle_vote_failed keccak W req Hf) as (Ht & Hs).
    split; [assumption|]. rewrite Ht. apply Merkle_before_submission_quiet.
  - intros req Hf. destruct (@Simple_vote_failed keccak W req Hf) as (Ht & Hs).
    split; [assumption|]. rewrite Ht. apply Simple_before_submission_quiet.
  - intros req c code reply Hd Hfp Hc Hcode Ht Hx Hr Hm.
    apply String.eqb_neq in Hx.
    assert (E : Merkle.vote keccak W req =
       ([ProviderGetCode; RegistryVerify (Merkle.dni req) (Merkle.fingerprint req)],
        {| status := 401; body := Send "Biometría inválida o DNI no habilitado" |})).
    { unfold Merkle.vote, Merkle.before_submission, Merkle.verify_and_prove.
      rewrite Hd, Hfp, Hc, Hcode, Hr. cbn. rewrite Ht, Hx. cbn. rewrite Hm. reflexivity. }
    rewrite E. split; [reflexivity|]. split; [repeat constructor | reflexivity].
  - intros req c code vr reply Hd Hfp Hc Hcode Ht Hx Hr Hok Hp Hm.
    apply String.eqb_neq in Hx.
    assert (E : Simple.vote keccak W req =
       ([ProviderGetCode; RegistryVerify (Simple.dni req) (Simple.fingerprint req)],
        {| status := 401; body := Send "Biometría inválida o DNI no habilitado" |})).
    { unfold Simple.vote, Simple.before_submission, Simple.verify_and_derive.
      rewrite Hd, Hfp, Hc, Hcode, Hr. cbn. rewrite Ht, Hx. cbn. rewrite Hok. cbn.
      rewrite Hp. cbn. rewrite Hm. reflexivity. }
    rewrite E. split; [reflexivity|]. split; [repeat constructor | reflexivity].
Qed.

Lemma failure_before_submission_is_terminal_witness :
  (status (snd (Merkle.vote sample_hash world_no_match sample_request)) <> 200 /\
   no_state_mutation (fst (Merkle.vote sample_hash world_no_match sample_request)))
  /\
  (status (snd (Simple.vote sample_hash world_no_match sample_simple_request)) <> 200 /\
   no_state_mutation (fst (Simple.vote sample_hash world_no_match sample_simple_request)))
  /\
  (Merkle.vote sample_hash world_no_match sample_request =
     ([ProviderGetCode;
       RegistryVerify (Merkle.dni sample_request) (Merkle.fingerprint sample_request)],
      {| status := 401; body := Send "Biometría inválida o DNI no habilitado" |}) /\
   no_contract_call (fst (Merkle.vote sample_hash world_no_match sample_request)) /\
   filter ledger_call (fst (Merkle.vote sample_hash world_no_match sample_request))
     = [ProviderGetCode])
  /\
  (Simple.vote sample_hash world_no_match sample_simple_request =
     ([ProviderGetCode;
       RegistryVerify (Simple.dni sample_simple_request)
         (Simple.fingerprint sample_simple_request)],
      {| status := 401; body := Send "Biometría inválida o DNI no habilitado" |}) /\
   no_contract_call (fst (Simple.vote sample_hash world_no_match sample_simple_request)) /\
   filter ledger_call (fst (Simple.vote sample_hash world_no_match sample_simple_request))
     = [ProviderGetCode]).
Proof.
  destruct (failure_before_submission_is_terminal sample_hash world_no_match)
    as (M & S & DM & DS).
  split; [|split; [|split]].
  - apply M. intros a. vm_compute. discriminate.
  - apply S. intros a. vm_compute. discriminate.
  - apply (DM sample_request 2%Z "0x6080"
              {| verify_match := false; verify_salt := sample_salt |});
      solve [ reflexivity | vm_compute; discriminate ].
  - apply (DS sample_simple_request 2%Z "0x6080"
              {| http_ok := true; http_status := "200"; http_text := [];
                 http_parsed := Some {| verify_match := false;
                                        verify_salt := sample_salt |} |}
              {| verify_match := false; verify_salt := sample_salt |});
      solve [ reflexivity | vm_compute; discriminate ].
Defined.

(** *** Root publication *)

(** In src/index.js the publication is idempotent: with the ledger already
    holding the registry's root nothing is sent and the answer says
    [synced: false]; otherwise the root is sent. *)
Lemma ClientProof_sync_root_idempotent (W : World) (eid : N) (r : HttpResponse RootReply)
  (root onchain : string) :
  currentElectionId W = Returns eid ->
  (eid <? 2 ^ 53)%N = true -> eid <> 0%N ->
  rnp_root W eid = Returns r ->
  http_parsed r = Some {| reply_root := root |} ->
  str_truthy root = true ->
  merkleRootOf W eid = Returns onchain ->
  (Hex.toLowerCase onchain = Hex.toLowerCase root ->
   ClientProof.sync_root W =
     ([CallCurrentElectionId; RegistryRoot eid; CallMerkleRootOf eid],
      {| status := 200;
         body := Json [("synced", JBool false);
                       ("electionId", JNumber (Z.of_N eid));
                       ("root", JString root)] |}))
  /\
  (Hex.toLowerCase onchain <> Hex.toLowerCase root ->
   In (SendSetCurrentElectionMerkleRoot root) (fst (ClientProof.sync_root W))).
Proof.
  intros He Hb Hz Hr Hp Ht Ho.
  apply N.eqb_neq in Hz.
  assert (Hn : toNumber eid = Some eid) by (unfold toNumber; rewrite Hb; reflexivity).
  unfold ClientProof.sync_root, ClientProof.currentElectionNumber,
    ClientProof.fetchJSON_root.
  rewrite He. cbn -[toNumber]. rewrite Hn. cbn. rewrite Hz. cbn. rewrite Hr, Hp. cbn.
  rewrite Ht. cbn. rewrite Ho. cbn.
  split; intros H.
  - apply String.eqb_eq in H. rewrite H. reflexivity.
  - apply String.eqb_neq in H. rewrite H. cbn.
    destruct (setCurrentElectionMerkleRoot W root) as [tx|e]; cbn.
    + destruct (tx_wait tx); cbn; auto 10.
    + auto 10.
Qed.

(** The publication route of the accumulator variant does not depend on the
    root the ledger holds: it never asks for it. *)
Lemma Merkle_sync_root_ignores_ledger_root (keccak : Buffer -> Buffer) (W : World)
  (roots : N -> Outcome string) :
  Merkle.sync_root keccak (with_merkleRootOf W roots) = Merkle.sync_root keccak W.
Proof. reflexivity. Qed.

(** C5. The publication route of the accumulator variant is not idempotent.
    With the ledger already holding exactly the root computed from the
    registry's leaves (here a single leaf, which is its own root whatever the
    hash function), it still sends setCurrentElectionMerkleRoot and answers
    with a transaction hash, never reading the root the ledger holds; the
    route of src/index.js, in the same world, sends nothing and answers
    [synced: false]. *)
Theorem Merkle_sync_root_resubmits (keccak : Buffer -> Buffer) :
  merkleRootOf world_single_synced 1%N = Returns single_leaf /\
  Merkle.sync_root keccak world_single_synced =
    ([ProviderGetCode; CallCurrentElectionId; RegistryLeaves;
      SendSetCurrentElectionMerkleRoot single_leaf; TxWait "0xfeed"],
     {| status := 200;
        body := Json [("root", JString single_leaf);
                      ("txHash", JString "0xfeed")] |}) /\
  ClientProof.sync_root world_single_synced =
    ([CallCurrentElectionId; RegistryRoot 1%N; CallMerkleRootOf 1%N],
     {| status := 200;
        body := Json [("synced", JBool false);
                      ("electionId", JNumber 1%Z);
                      ("root", JString single_leaf)] |}).
Proof. repeat split; vm_compute; reflexivity. Qed.

(** *** The nullifier of src/index.js *)

(** C6. Whatever the request and the world, every vote transaction that the
    route of src/index.js sends carries the zero hash as its nullifier; and
    it does send one, for instance for [sample_client_request]. *)
Theorem ClientProof_vote_nullifier_is_zero :
  (forall W req,
     Forall carries_zero_nullifier (fst (ClientProof.vote W req)))
  /\
  fst (ClientProof.vote world_synced sample_client_request) =
    [CallCurrentElectionId; CallMerkleRootOf 1%N;
     SendVoteWithNullifier4 HashZero 2%Z
       [ "0x2222222222222222222222222222222222222222222222222222222222222222";
         "0x3333333333333333333333333333333333333333333333333333333333333333" ]
       sample_leaf;
     TxWait "0xfeed"].
Proof.
  split; [|vm_compute; reflexivity].
  intros W req. unfold ClientProof.vote, ClientProof.currentElectionNumber.
  rewrite tryCatch_trace.
  repeat first
    [ apply bind_trace_Forall; [ | intros ]
    | match goal with
      | |- Forall _ (fst (if ?c then _ else _)) => destruct c
      | |- Forall _ (fst (match ?x with _ => _ end)) => destruct x
      end
    | solve [ repeat constructor ]
    | match goal with
      | |- Forall _ (fst (orThrow ?o _)) => destruct o; constructor
      end ].
Qed.

(** *** An empty eligibility set *)

(** C7, as stated, fails: with the registry answering an empty list of
    leaves the accumulator builder does not fail. *)
Lemma empty_set_does_not_fail :
  Merkle.fetchJSON (RNP_URL world_empty ++ "/leaves")%string (rnp_leaves world_empty)
    = Returns {| reply_leaves := Some [] |} /\
  ~ fails (Merkle.computeGlobalTree sample_hash world_empty).
Proof.
  split; [reflexivity|].
  intros H.
  apply (H {| Merkle.tree := MerkleTreeJs.newMerkleTree sample_hash [];
              Merkle.root := "0x";
              Merkle.leaves := [] |}).
  vm_compute. reflexivity.
Qed.

(** C7, amended. When the registry answers an empty list of leaves, the
    accumulator builder returns the tree without nodes, whose root is the
    empty byte string, printed "0x"; GET /merkle-root answers 200 with that
    root and count 0. *)
Theorem empty_set_has_empty_root (keccak : Buffer -> Buffer) (W : World) :
  Merkle.fetchJSON (RNP_URL W ++ "/leaves")%string (rnp_leaves W)
    = Returns {| reply_leaves := Some [] |} ->
  Merkle.computeGlobalTree keccak W =
    ([RegistryLeaves],
     Value {| Merkle.tree := {| MerkleTreeJs.leaves := [];
                                MerkleTreeJs.layers := [[]] |};
              Merkle.root := "0x";
              Merkle.leaves := [] |}) /\
  Merkle.merkle_root keccak W =
    ([RegistryLeaves],
     {| status := 200;
        body := Json [("merkleRoot", JString "0x"); ("count", JNumber 0)] |}).
Proof.
  intros H.
  assert (E : Merkle.computeGlobalTree keccak W =
    ([RegistryLeaves],
     Value {| Merkle.tree := {| MerkleTreeJs.leaves := [];
                                MerkleTreeJs.layers := [[]] |};
              Merkle.root := "0x";
              Merkle.leaves := [] |})).
  { unfold Merkle.computeGlobalTree. rewrite H. cbn [call bind reply_leaves].
    unfold MerkleTreeJs.newMerkleTree. cbn [map].
    rewrite createHashes_short by (simpl; lia). reflexivity. }
  split; [exact E|].
  unfold Merkle.merkle_root. rewrite E. reflexivity.
Qed.

Lemma empty_set_has_empty_root_witness :
  Merkle.computeGlobalTree sample_hash world_empty =
    ([RegistryLeaves],
     Value {| Merkle.tree := {| MerkleTreeJs.leaves := [];
                                MerkleTreeJs.layers := [[]] |};
              Merkle.root := "0x";
              Merkle.leaves := [] |}) /\
  Merkle.merkle_root sample_hash world_empty =
    ([RegistryLeaves],
     {| status := 200;
        body := Json [("merkleRoot", JString "0x"); ("count", JNumber 0)] |}).
Proof.
  apply (@empty_set_has_empty_root sample_hash world_empty). reflexivity.
Defined.

(** *** An empty identity key *)

(** C9. A vote request with an empty identity key is answered 400 by the
    input check of either vote route, before anything is asked of the
    registry or of the ledger: the trace is empty.  The same holds of a
    request without the key and of every key that is falsy (null, 0,
    false). *)
Theorem empty_identity_is_rejected_first (keccak : Buffer -> Buffer) (W : World) :
  (forall cid fp,
     Merkle.vote keccak W
       {| Merkle.candidateId := cid; Merkle.dni := JsStr [];
          Merkle.fingerprint := fp |} =
     ([], {| status := 400; body := Send "dni, fingerprint y candidateId requeridos" |}))
  /\
  (forall cid fp,
     Simple.vote keccak W
       {| Simple.candidateId := cid; Simple.dni := JsStr [];
          Simple.fingerprint := fp |} =
     ([], {| status := 400; body := Send "dni, fingerprint y candidateId requeridos" |}))
  /\
  (forall req,
     truthy (Merkle.dni req) = false ->
     Merkle.vote keccak W req =
     ([], {| status := 400; body := Send "dni, fingerprint y candidateId requeridos" |}))
  /\
  (forall req,
     truthy (Simple.dni req) = false ->
     Simple.vote keccak W req =
     ([], {| status := 400; body := Send "dni, fingerprint y candidateId requeridos" |})).
Proof.
  split; [|split; [|split]].
  - intros cid fp; reflexivity.
  - intros cid fp; reflexivity.
  - intros req H. unfold Merkle.vote, Merkle.before_submission, Merkle.verify_and_prove.
    rewrite H. reflexivity.
  - intros req H. unfold Simple.vote, Simple.before_submission, Simple.verify_and_derive.
    rewrite H. reflexivity.
Qed.

Lemma empty_identity_is_rejected_first_witness :
  Merkle.vote sample_hash world_synced
    {| Merkle.candidateId := Some 2%Z; Merkle.dni := JsUndefined;
       Merkle.fingerprint := JsStr (ascii_units "loop-whorl-arch") |} =
  ([], {| status := 400; body := Send "dni, fingerprint y candidateId requeridos" |})
  /\
  Simple.vote sample_hash world_synced
    {| Simple.candidateId := Some 2%Z; Simple.dni := JsNum "0" true;
       Simple.fingerprint := JsStr (ascii_units "loop-whorl-arch") |} =
  ([], {| status := 400; body := Send "dni, fingerprint y candidateId requeridos" |}).
Proof.
  destruct (empty_identity_is_rejected_first sample_hash world_synced) as (_ & _ & M & S).
  split.
  - apply (M {| Merkle.candidateId := Some 2%Z; Merkle.dni := JsUndefined;
                Merkle.fingerprint := JsStr (ascii_units "loop-whorl-arch") |}).
    reflexivity.
  - apply (S {| Simple.candidateId := Some 2%Z; Simple.dni := JsNum "0" true;
                Simple.fingerprint := JsStr (ascii_units "loop-whorl-arch") |}).
    reflexivity.
Defined.

(** *** A contract without a vote signature *)

(** C10, as stated, fails: with no voteWithNullifier in the ABI the startup
    callback reports the contract as fine, the first request of a voter the
    registry does not recognise is answered 401, and a request that passes
    every check is answered 500 only at the end of its own run, after the
    registry and the ledger have been asked. *)
Lemma missing_vote_signature_is_per_request :
  hasFn world_no_vote_fn "voteWithNullifier(bytes32,uint256,bytes32[],bytes32)" = false /\
  hasFn world_no_vote_fn "voteWithNullifier(bytes32,uint256)" = false /\
  Merkle.startup world_no_vote_fn =
    ([ProviderGetCode; CallCurrentElectionId], Merkle.ContractOk 1%N) /\
  Simple.startup world_no_vote_fn =
    ([CallCurrentElectionId], Simple.ContractOk 1%N) /\
  Merkle.vote sample_hash world_no_vote_fn_no_match sample_request =
    ([ProviderGetCode;
      RegistryVerify (Merkle.dni sample_request) (Merkle.fingerprint sample_request)],
     {| status := 401; body := Send "Biometría inválida o DNI no habilitado" |}) /\
  Merkle.vote sample_hash world_no_vote_fn sample_request =
    ([ProviderGetCode;
      RegistryVerify (Merkle.dni sample_request) (Merkle.fingerprint sample_request);
      RegistryLeaves;
      CallCurrentElectionId; CallMerkleRootOf 1%N; CallHasVoted 1%N sample_nullifier],
     {| status := 500;
        body := Send "El contrato no expone voteWithNullifier(bytes32,uint256,bytes32[],bytes32)" |}).
Proof. repeat split; vm_compute; reflexivity. Qed.

Lemma Merkle_no_vote_fn_fails (keccak : Buffer -> Buffer) (W : World)
  (req : Merkle.VoteRequest) :
  hasFn W "voteWithNullifier(bytes32,uint256,bytes32[],bytes32)" = false ->
  fails (Merkle.before_submission keccak W req).
Proof.
  intros Hv p Hp. unfold Merkle.before_submission, Merkle.require_vote_fn in Hp.
  peel Hp. apply when_value in Ha2. rewrite Hv in Ha2. discriminate.
Qed.

Lemma Simple_no_vote_fn_fails (keccak : Buffer -> Buffer) (W : World)
  (req : Simple.VoteRequest) :
  hasFn W "voteWithNullifier(bytes32,uint256)" = false ->
  fails (Simple.before_submission keccak W req).
Proof.
  intros Hv p Hp. unfold Simple.before_submission, Simple.require_vote_fn in Hp.
  peel Hp. apply when_value in Ha1. rewrite Hv in Ha1. discriminate.
Qed.

(** A vote route, told by the steps before its look at the vote signature:
    when they fail the route answers with their error and has done what
    they did; when they pass, the signature is looked at and, if it is
    there, the transaction follows. *)
Lemma Merkle_vote_by_steps (keccak : Buffer -> Buffer) (W : World)
  (req : Merkle.VoteRequest) :
  Merkle.vote keccak W req =
  match Merkle_earlier_steps keccak W req with
  | (t, Value p) =>
      if hasFn W "voteWithNullifier(bytes32,uint256,bytes32[],bytes32)" then
        let (u, r) :=
          tryCatch (Merkle.submit W req p)
            (fun e => {| status := 400; body := Send (error_text e "Error del relayer") |})
        in (t ++ u, r)
      else
        (t, {| status := 500;
               body := Send "El contrato no expone voteWithNullifier(bytes32,uint256,bytes32[],bytes32)" |})
  | (t, Respond r) => (t, r)
  | (t, Raise e) =>
      (t, {| status := 400; body := Send (error_text e "Error del relayer") |})
  end.
Proof.
  unfold Merkle.vote, Merkle.before_submission, Merkle_earlier_steps,
    Merkle.require_vote_fn.
  destruct (Merkle.verify_and_prove keccak W req) as [t [p|r|e]]; [|reflexivity ..].
  cbn beta iota delta [bind].
  destruct (Merkle.validate_root W p) as [t1 [[]|r|e]]; [|reflexivity ..].
  cbn beta iota delta [bind].
  destruct (Merkle.precheck_duplicate W p) as [t2 [[]|r|e]]; [|reflexivity ..].
  cbn beta iota delta [bind ret when_ reject negb app].
  destruct (hasFn W "voteWithNullifier(bytes32,uint256,bytes32[],bytes32)").
  - cbn beta iota delta [negb when_ ret bind app]. rewrite !app_nil_r.
    destruct (Merkle.submit W req p) as [u [x|x|x]]; reflexivity.
  - cbn. rewrite !app_nil_r. reflexivity.
Qed.

Lemma Simple_vote_by_steps (keccak : Buffer -> Buffer) (W : World)
  (req : Simple.VoteRequest) :
  Simple.vote keccak W req =
  match Simple_earlier_steps keccak W req with
  | (t, Value p) =>
      if hasFn W "voteWithNullifier(bytes32,uint256)" then
        let (u, r) :=
          tryCatch (Simple.submit W req p)
            (fun e => {| status := 400;
                         body := Send (or_str (exn_error_message e)
                                         (or_str (exn_reason e)
                                            (match exn_message e with
                                             | Some m => m
                                             | None => "Error del relayer"
                                             end))) |})
        in (t ++ u, r)
      else
        (t, {| status := 500;
               body := Send "El contrato no tiene voteWithNullifier(bytes32,uint256). Redeploy y actualiza contract.json" |})
  | (t, Respond r) => (t, r)
  | (t, Raise e) =>
      (t, {| status := 400;
             body := Send (or_str (exn_error_message e)
                             (or_str (exn_reason e)
                                (match exn_message e with
                                 | Some m => m
                                 | None => "Error del relayer"
                                 end))) |})
  end.
Proof.
  unfold Simple.vote, Simple.before_submission, Simple_earlier_steps,
    Simple.require_vote_fn.
  destruct (Simple.verify_and_derive keccak W req) as [t [p|r|e]]; [|reflexivity ..].
  cbn beta iota delta [bind].
  destruct (Simple.precheck_duplicate W p) as [t2 [[]|r|e]]; [|reflexivity ..].
  cbn beta iota delta [bind ret when_ reject negb app].
  destruct (hasFn W "voteWithNullifier(bytes32,uint256)").
  - cbn beta iota delta [negb when_ ret bind app]. rewrite !app_nil_r.
    destruct (Simple.submit W req p) as [u [x|x|x]]; reflexivity.
  - cbn. rewrite !app_nil_r. reflexivity.
Qed.

(** C10, amended. When the contract exposes no voteWithNullifier of the
    shape a vote route needs, that route never sends a transaction and
    answers every request with an error; the request has done exactly what
    the earlier steps do. A request that passes all the earlier steps is
    answered 500 with the message naming the missing signature; a request
    that fails an earlier step gets that step's error, the very answer and
    trace it gets from a contract that has the signature.  The check is made
    in each request: the startup callback reports the same with or without
    the signature in the ABI.  It is the last step before submission: in any
    world a route is its earlier steps, then the look at the signature,
    then, the signature found, the transaction. *)
Theorem missing_vote_signature_rejects_each_request (keccak : Buffer -> Buffer) (W : World) :
  (hasFn W "voteWithNullifier(bytes32,uint256,bytes32[],bytes32)" = false ->
   (forall req,
      no_state_mutation (fst (Merkle.vote keccak W req)) /\
      status (snd (Merkle.vote keccak W req)) <> 200) /\
   (forall req p,
      snd (Merkle.verify_and_prove keccak W req) = Value p ->
      snd (Merkle.validate_root W p) = Value tt ->
      snd (Merkle.precheck_duplicate W p) = Value tt ->
      snd (Merkle.vote keccak W req) =
        {| status := 500;
           body := Send "El contrato no expone voteWithNullifier(bytes32,uint256,bytes32[],bytes32)" |}) /\
   (forall req,
      Merkle.vote keccak W req =
      match Merkle_earlier_steps keccak W req with
      | (t, Value _) =>
          (t, {| status := 500;
                 body := Send "El contrato no expone voteWithNullifier(bytes32,uint256,bytes32[],bytes32)" |})
      | (t, Respond r) => (t, r)
      | (t, Raise e) =>
          (t, {| status := 400; body := Send (error_text e "Error del relayer") |})
      end) /\
   (forall req,
      fails (Merkle_earlier_steps keccak W req) ->
      Merkle.vote keccak W req =
      Merkle.vote keccak
        (with_abi W ("voteWithNullifier(bytes32,uint256,bytes32[],bytes32)" :: abi W)) req))
  /\
  (hasFn W "voteWithNullifier(bytes32,uint256)" = false ->
   (forall req,
      no_state_mutation (fst (Simple.vote keccak W req)) /\
      status (snd (Simple.vote keccak W req)) <> 200) /\
   (forall req p,
      snd (Simple.verify_and_derive keccak W req) = Value p ->
      snd (Simple.precheck_duplicate W p) = Value tt ->
      snd (Simple.vote keccak W req) =
        {| status := 500;
           body := Send "El contrato no tiene voteWithNullifier(bytes32,uint256). Redeploy y actualiza contract.json" |}) /\
   (forall req,
      Simple.vote keccak W req =
      match Simple_earlier_steps keccak W req with
      | (t, Value _) =>
          (t, {| status := 500;
                 body := Send "El contrato no tiene voteWithNullifier(bytes32,uint256). Redeploy y actualiza contract.json" |})
      | (t, Respond r) => (t, r)
      | (t, Raise e) =>
          (t, {| status := 400;
                 body := Send (or_str (exn_error_message e)
                                 (or_str (exn_reason e)
                                    (match exn_message e with
                                     | Some m => m
                                     | None => "Error del relayer"
                                     end))) |})
      end) /\
   (forall req,
      fails (Simple_earlier_steps keccak W req) ->
      Simple.vote keccak W req =
      Simple.vote keccak
        (with_abi W ("voteWithNullifier(bytes32,uint256)" :: abi W)) req))
  /\
  Merkle.startup
    (with_abi W ("voteWithNullifier(bytes32,uint256,bytes32[],bytes32)" :: abi W))
  = Merkle.startup W
  /\
  Simple.startup (with_abi W ("voteWithNullifier(bytes32,uint256)" :: abi W))
  = Simple.startup W
  /\
  (forall req,
     Merkle.vote keccak W req =
     match Merkle_earlier_steps keccak W req with
     | (t, Value p) =>
         if hasFn W "voteWithNullifier(bytes32,uint256,bytes32[],bytes32)" then
           let (u, r) :=
             tryCatch (Merkle.submit W req p)
               (fun e => {| status := 400;
                            body := Send (error_text e "Error del relayer") |})
           in (t ++ u, r)
         else
           (t, {| status := 500;
                  body := Send "El contrato no expone voteWithNullifier(bytes32,uint256,bytes32[],bytes32)" |})
     | (t, Respond r) => (t, r)
     | (t, Raise e) =>
         (t, {| status := 400; body := Send (error_text e "Error del relayer") |})
     end)
  /\
  (forall req,
     Simple.vote keccak W req =
     match Simple_earlier_steps keccak W req with
     | (t, Value p) =>
         if hasFn W "voteWithNullifier(bytes32,uint256)" then
           let (u, r) :=
             tryCatch (Simple.submit W req p)
               (fun e => {| status := 400;
                            body := Send (or_str (exn_error_message e)
                                            (or_str (exn_reason e)
                                               (match exn_message e with
                                                | Some m => m
                                                | None => "Error del relayer"
                                                end))) |})
           in (t ++ u, r)
         else
           (t, {| status := 500;
                  body := Send "El contrato no tiene voteWithNullifier(bytes32,uint256). Redeploy y actualiza contract.json" |})
     | (t, Respond r) => (t, r)
     | (t, Raise e) =>
         (t, {| status := 400;
                body := Send (or_str (exn_error_message e)
                                (or_str (exn_reason e)
                                   (match exn_message e with
                                    | Some m => m
                                    | None => "Error del relayer"
                                    end))) |})
     end).
Proof.
  split; [|split; [|split; [|split; [|split]]]].
  - intros Hv. split; [|split; [|split]].
    + intros req.
      destruct (@Merkle_vote_failed keccak W req (@Merkle_no_vote_fn_fails keccak W req Hv))
        as (Ht & Hs).
      split; [|assumption]. rewrite Ht. apply Merkle_before_submission_quiet.
    + intros req p Hp Hr Hd.
      rewrite (Merkle_vote_after_prepare _ _ _ Hp). cbn beta iota delta [bind].
      destruct (Merkle.validate_root W p) as [t1 x1]. simpl in Hr. subst x1.
      destruct (Merkle.precheck_duplicate W p) as [t2 x2]. simpl in Hd. subst x2.
      unfold Merkle.require_vote_fn. rewrite Hv. reflexivity.
    + intros req. rewrite Merkle_vote_by_steps, Hv. reflexivity.
    + intros req Hf. rewrite !Merkle_vote_by_steps.
      change (Merkle_earlier_steps keccak
                (with_abi W ("voteWithNullifier(bytes32,uint256,bytes32[],bytes32)" :: abi W))
                req)
        with (Merkle_earlier_steps keccak W req).
      destruct (Merkle_earlier_steps keccak W req) as [t [p|r|e]]; [|reflexivity ..].
      destruct (Hf p). reflexivity.
  - intros Hv. split; [|split; [|split]].
    + intros req.
      destruct (@Simple_vote_failed keccak W req (@Simple_no_vote_fn_fails keccak W req Hv))
        as (Ht & Hs).
      split; [|assumption]. rewrite Ht. apply Simple_before_submission_quiet.
    + intros req p Hp Hd.
      unfold Simple.vote, Simple.before_submission.
      destruct (Simple.verify_and_derive keccak W req) as [t x]. simpl in Hp. subst x.
      cbn beta iota delta [bind].
      destruct (Simple.precheck_duplicate W p) as [t2 x2]. simpl in Hd. subst x2.
      unfold Simple.require_vote_fn. rewrite Hv. reflexivity.
    + intros req. rewrite Simple_vote_by_steps, Hv. reflexivity.
    + intros req Hf. rewrite !Simple_vote_by_steps.
      change (Simple_earlier_steps keccak
                (with_abi W ("voteWithNullifier(bytes32,uint256)" :: abi W)) req)
        with (Simple_earlier_steps keccak W req).
      destruct (Simple_earlier_steps keccak W req) as [t [p|r|e]]; [|reflexivity ..].
      destruct (Hf p). reflexivity.
  - reflexivity.
  - reflexivity.
  - intros req. apply Merkle_vote_by_steps.
  - intros req. apply Simple_vote_by_steps.
Qed.

Lemma missing_vote_signature_rejects_each_request_witness :
  ((forall req,
      no_state_mutation (fst (Merkle.vote sample_hash world_no_vote_fn req)) /\
      status (snd (Merkle.vote sample_hash world_no_vote_fn req)) <> 200) /\
   snd (Merkle.vote sample_hash world_no_vote_fn sample_request) =
     {| status := 500;
        body := Send "El contrato no expone voteWithNullifier(bytes32,uint256,bytes32[],bytes32)" |} /\
   Merkle.vote sample_hash world_no_vote_fn stranger_request =
   Merkle.vote sample_hash
     (with_abi world_no_vote_fn
        ("voteWithNullifier(bytes32,uint256,bytes32[],bytes32)" :: abi world_no_vote_fn))
     stranger_request)
  /\
  ((forall req,
      no_state_mutation (fst (Simple.vote sample_hash world_no_vote_fn req)) /\
      status (snd (Simple.vote sample_hash world_no_vote_fn req)) <> 200) /\
   snd (Simple.vote sample_hash world_no_vote_fn sample_simple_request) =
     {| status := 500;
        body := Send "El contrato no tiene voteWithNullifier(bytes32,uint256). Redeploy y actualiza contract.json" |})
  /\
  Simple.vote sample_hash world_no_vote_fn_no_match sample_simple_request =
  Simple.vote sample_hash
    (with_abi world_no_vote_fn_no_match
       ("voteWithNullifier(bytes32,uint256)" :: abi world_no_vote_fn_no_match))
    sample_simple_request.
Proof.
  destruct (missing_vote_signature_rejects_each_request sample_hash world_no_vote_fn)
    as (M & S & _).
  destruct (missing_vote_signature_rejects_each_request sample_hash
              world_no_vote_fn_no_match) as (_ & S' & _).
  split; [|split].
  - destruct (M eq_refl) as (M1 & M2 & _ & M4). split; [exact M1|]. split.
    + apply (M2 sample_request sample_prepared); pick_event.
    + apply (M4 stranger_request). intros a. vm_compute. discriminate.
  - destruct (S eq_refl) as (S1 & S2 & _). split; [exact S1|].
    apply (S2 sample_simple_request
             {| Simple.p_eId := 1%N; Simple.p_nullifier := sample_nullifier |});
      pick_event.
  - destruct (S' eq_refl) as (_ & _ & _ & S4).
    apply (S4 sample_simple_request). intros a. vm_compute. discriminate.
Defined.

(** ** Further properties of the routes *)

(** *** Traces *)

Lemma Forall_trace_when (P : Event -> Prop) (c : bool) (s : nat) (text : string) :
  Forall P (fst (when_ c s text)).
Proof. destruct c; constructor. Qed.

Lemma Forall_trace_orThrow (P : Event -> Prop) {A} (o : option A) (msg : string) :
  Forall P (fst (orThrow o msg)).
Proof. destruct o; constructor. Qed.

Lemma Forall_trace_solidityKeccak256 (P : Event -> Prop) keccak vs :
  Forall P (fst (solidityKeccak256 keccak vs)).
Proof.
  unfold solidityKeccak256. destruct (solidityPack vs); constructor.
Qed.

(** Checks a property of every event along a chain of binds. *)
Ltac walk_trace :=
  cbv zeta;
  repeat first
    [ apply bind_trace_Forall; [ | intros ]
    | apply Forall_trace_when
    | apply Forall_trace_orThrow
    | apply Forall_trace_solidityKeccak256
    | match goal with
      | |- Forall _ (fst (if ?c then _ else _)) => destruct c
      | |- Forall _ (fst (match ?x with _ => _ end)) => destruct x
      end
    | solve [ repeat constructor ]
    | solve [ auto with handler ] ].

Lemma Merkle_before_submission_only_asks (keccak : Buffer -> Buffer) (W : World)
  (req : Merkle.VoteRequest) :
  Forall only_asks (fst (Merkle.before_submission keccak W req)).
Proof.
  unfold Merkle.before_submission, Merkle.verify_and_prove, Merkle.validate_root,
    Merkle.precheck_duplicate, Merkle.require_vote_fn, Merkle.computeGlobalTree,
    Merkle.getCurrentElectionIdSafe.
  walk_trace.
Qed.

Lemma Simple_before_submission_only_asks (keccak : Buffer -> Buffer) (W : World)
  (req : Simple.VoteRequest) :
  Forall only_asks (fst (Simple.before_submission keccak W req)).
Proof.
  unfold Simple.before_submission, Simple.verify_and_derive,
    Simple.precheck_duplicate, Simple.require_vote_fn,
    Simple.getCurrentElectionIdSafe.
  walk_trace.
Qed.

Lemma mutations_only_asks (t : list Event) : Forall only_asks t -> mutations t = [].
Proof.
  unfold mutations. induction 1 as [|e t He _ IH]; [reflexivity|].
  simpl. rewrite IH. destruct e; simpl in *; try reflexivity; contradiction.
Qed.

Lemma mutations_app (t u : list Event) : mutations (t ++ u) = mutations t ++ mutations u.
Proof. apply filter_app. Qed.

(** What the vote route of the accumulator variant does once every earlier
    step is through. *)
Lemma Merkle_vote_outcome (keccak : Buffer -> Buffer) (W : World)
  (req : Merkle.VoteRequest) (p : Merkle.Prepared) :
  snd (Merkle.before_submission keccak W req) = Value p ->
  let t := fst (Merkle.before_submission keccak W req) in
  let cid := match Merkle.candidateId req with Some c => c | None => 0%Z end in
  let send := SendVoteWithNullifier4 (Merkle.p_nullifier p) cid (Merkle.p_proof p)
                (Merkle.p_leaf p) in
  Merkle.vote keccak W req =
    match voteWithNullifier4 W (Merkle.p_nullifier p) cid (Merkle.p_proof p)
            (Merkle.p_leaf p) with
    | Throws e =>
        (t ++ [send],
         {| status := 400; body := Send (error_text e "Error del relayer") |})
    | Returns tx =>
        match tx_wait tx with
        | Throws e =>
            (t ++ [send; TxWait (tx_hash tx)],
             {| status := 400; body := Send (error_text e "Error del relayer") |})
        | Returns _ =>
            (t ++ [send; TxWait (tx_hash tx);
                   AppendParticipation (Merkle.dni req) (tx_hash tx)],
             {| status := 200; body := Json [("txHash", JString (tx_hash tx))] |})
        end
    end.
Proof.
  intros Hp t cid send. unfold Merkle.vote. subst t.
  destruct (Merkle.before_submission keccak W req) as [t x]. simpl in Hp. subst x.
  cbn [bind fst]. unfold Merkle.submit. fold cid. fold send.
  destruct (voteWithNullifier4 W _ _ _ _) as [tx|e]; cbn.
  - destruct (tx_wait tx); cbn; reflexivity.
  - reflexivity.
Qed.

Lemma Simple_vote_outcome (keccak : Buffer -> Buffer) (W : World)
  (req : Simple.VoteRequest) (p : Simple.Prepared) :
  snd (Simple.before_submission keccak W req) = Value p ->
  let t := fst (Simple.before_submission keccak W req) in
  let cid := match Simple.candidateId req with Some c => c | None => 0%Z end in
  let send := SendVoteWithNullifier2 (Simple.p_nullifier p) cid in
  let text e := or_str (exn_error_message e)
                  (or_str (exn_reason e)
                     (match exn_message e with
                      | Some m => m
                      | None => "Error del relayer"
                      end)) in
  Simple.vote keccak W req =
    match voteWithNullifier2 W (Simple.p_nullifier p) cid with
    | Throws e => (t ++ [send], {| status := 400; body := Send (text e) |})
    | Returns tx =>
        match tx_wait tx with
        | Throws e =>
            (t ++ [send; TxWait (tx_hash tx)],
             {| status := 400; body := Send (text e) |})
        | Returns _ =>
            (t ++ [send; TxWait (tx_hash tx);
                   AppendParticipation (Simple.dni req) (tx_hash tx)],
             {| status := 200; body := Json [("txHash", JString (tx_hash tx))] |})
        end
    end.
Proof.
  intros Hp t cid send text. unfold Simple.vote. subst t.
  destruct (Simple.before_submission keccak W req) as [t x]. simpl in Hp. subst x.
  cbn [bind fst]. unfold Simple.submit. fold cid. fold send.
  destruct (voteWithNullifier2 W _ _) as [tx|e]; cbn.
  - destruct (tx_wait tx); cbn; reflexivity.
  - reflexivity.
Qed.

(** *** Confirmation and the participation record *)

Lemma only_asks_not_participation (t : list Event) (d : JsValue) (h : string) :
  Forall only_asks t -> ~ In (AppendParticipation d h) t.
Proof.
  intros H Hin. rewrite Forall_forall in H. exact (H _ Hin).
Qed.

(** X1. In both vote routes a participation entry is written only for a
    confirmed vote: if the trace holds an entry, it is for the dni of the
    request and the hash of a transaction that was sent and whose wait
    returned, and the answer is 200 with that hash; conversely a 200 answer
    comes with the entry. *)
Theorem participation_iff_confirmed (keccak : Buffer -> Buffer) (W : World) :
  (forall req d h,
     In (AppendParticipation d h) (fst (Merkle.vote keccak W req)) ->
     d = Merkle.dni req /\
     snd (Merkle.vote keccak W req) =
       {| status := 200; body := Json [("txHash", JString h)] |} /\
     In (TxWait h) (fst (Merkle.vote keccak W req)) /\
     exists p tx rc,
       snd (Merkle.before_submission keccak W req) = Value p /\
       voteWithNullifier4 W (Merkle.p_nullifier p)
         (match Merkle.candidateId req with Some c => c | None => 0%Z end)
         (Merkle.p_proof p) (Merkle.p_leaf p) = Returns tx /\
       tx_hash tx = h /\ tx_wait tx = Returns rc)
  /\
  (forall req,
     status (snd (Merkle.vote keccak W req)) = 200 ->
     exists h, In (AppendParticipation (Merkle.dni req) h)
                 (fst (Merkle.vote keccak W req)))
  /\
  (forall req d h,
     In (AppendParticipation d h) (fst (Simple.vote keccak W req)) ->
     d = Simple.dni req /\
     snd (Simple.vote keccak W req) =
       {| status := 200; body := Json [("txHash", JString h)] |} /\
     In (TxWait h) (fst (Simple.vote keccak W req)) /\
     exists p tx rc,
       snd (Simple.before_submission keccak W req) = Value p /\
       voteWithNullifier2 W (Simple.p_nullifier p)
         (match Simple.candidateId req with Some c => c | None => 0%Z end)
         = Returns tx /\
       tx_hash tx = h /\ tx_wait tx = Returns rc)
  /\
  (forall req,
     status (snd (Simple.vote keccak W req)) = 200 ->
     exists h, In (AppendParticipation (Simple.dni req) h)
                 (fst (Simple.vote keccak W req))).
Proof.
  split; [|split; [|split]].
  - intros req d h Hin.
    pose proof (Merkle_before_submission_only_asks keccak W req) as Hask.
    destruct (snd (Merkle.before_submission keccak W req)) as [p|r|e] eqn:E.
    + rewrite (Merkle_vote_outcome _ _ _ E) in *. cbv zeta in *.
      destruct (voteWithNullifier4 W _ _ _ _) as [tx|x] eqn:Etx.
      * destruct (tx_wait tx) as [rc|x] eqn:Ew; cbn [fst snd] in *;
          apply in_app_or in Hin; destruct Hin as [Hin|Hin];
          try (exfalso; eapply only_asks_not_participation; eauto; fail).
        -- simpl in Hin. destruct Hin as [Hin|[Hin|[Hin|[]]]]; try discriminate.
           injection Hin as <- <-. repeat split; auto.
           ++ apply in_or_app. right. simpl. auto.
           ++ exists p, tx, rc. auto.
        -- simpl in Hin. destruct Hin as [Hin|[Hin|[]]]; discriminate.
      * cbn [fst snd] in *. apply in_app_or in Hin. destruct Hin as [Hin|Hin].
        -- exfalso; eapply only_asks_not_participation; eauto.
        -- simpl in Hin. destruct Hin as [Hin|[]]; discriminate.
    + exfalso. assert (Hf : fails (Merkle.before_submission keccak W req))
        by (intros a; congruence).
      destruct (@Merkle_vote_failed keccak W req Hf) as (Ht & _).
      rewrite Ht in Hin. eapply only_asks_not_participation; eauto.
    + exfalso. assert (Hf : fails (Merkle.before_submission keccak W req))
        by (intros a; congruence).
      destruct (@Merkle_vote_failed keccak W req Hf) as (Ht & _).
      rewrite Ht in Hin. eapply only_asks_not_participation; eauto.
  - intros req Hs.
    destruct (snd (Merkle.before_submission keccak W req)) as [p|r|e] eqn:E.
    + rewrite (Merkle_vote_outcome _ _ _ E) in *. cbv zeta in *.
      destruct (voteWithNullifier4 W _ _ _ _) as [tx|x]; [|discriminate].
      destruct (tx_wait tx) as [rc|x]; [|discriminate].
      exists (tx_hash tx). cbn [fst]. apply in_or_app. right. simpl. auto.
    + exfalso. assert (Hf : fails (Merkle.before_submission keccak W req))
        by (intros a; congruence).
      destruct (@Merkle_vote_failed keccak W req Hf) as (_ & Hn). contradiction.
    + exfalso. assert (Hf : fails (Merkle.before_submission keccak W req))
        by (intros a; congruence).
      destruct (@Merkle_vote_failed keccak W req Hf) as (_ & Hn). contradiction.
  - intros req d h Hin.
    pose proof (Simple_before_submission_only_asks keccak W req) as Hask.
    destruct (snd (Simple.before_submission keccak W req)) as [p|r|e] eqn:E.
    + rewrite (Simple_vote_outcome _ _ _ E) in *. cbv zeta in *.
      destruct (voteWithNullifier2 W _ _) as [tx|x] eqn:Etx.
      * destruct (tx_wait tx) as [rc|x] eqn:Ew; cbn [fst snd] in *;
          apply in_app_or in Hin; destruct Hin as [Hin|Hin];
          try (exfalso; eapply only_asks_not_participation; eauto; fail).
        -- simpl in Hin. destruct Hin as [Hin|[Hin|[Hin|[]]]]; try discriminate.
           injection Hin as <- <-. repeat split; auto.
           ++ apply in_or_app. right. simpl. auto.
           ++ exists p, tx, rc. auto.
        -- simpl in Hin. destruct Hin as [Hin|[Hin|[]]]; discriminate.
      * cbn [fst snd] in *. apply in_app_or in Hin. destruct Hin as [Hin|Hin].
        -- exfalso; eapply only_asks_not_participation; eauto.
        -- simpl in Hin. destruct Hin as [Hin|[]]; discriminate.
    + exfalso. assert (Hf : fails (Simple.before_submission keccak W req))
        by (intros a; congruence).
      destruct (@Simple_vote_failed keccak W req Hf) as (Ht & _).
      rewrite Ht in Hin. eapply only_asks_not_participation; eauto.
    + exfalso. assert (Hf : fails (Simple.before_submission keccak W req))
        by (intros a; congruence).
      destruct (@Simple_vote_failed keccak W req Hf) as (Ht & _).
      rewrite Ht in Hin. eapply only_asks_not_participation; eauto.
  - intros req Hs.
    destruct (snd (Simple.before_submission keccak W req)) as [p|r|e] eqn:E.
    + rewrite (Simple_vote_outcome _ _ _ E) in *. cbv zeta in *.
      destruct (voteWithNullifier2 W _ _) as [tx|x]; [|discriminate].
      destruct (tx_wait tx) as [rc|x]; [|discriminate].
      exists (tx_hash tx). cbn [fst]. apply in_or_app. right. simpl. auto.
    + exfalso. assert (Hf : fails (Simple.before_submission keccak W req))
        by (intros a; congruence).
      destruct (@Simple_vote_failed keccak W req Hf) as (_ & Hn). contradiction.
    + exfalso. assert (Hf : fails (Simple.before_submission keccak W req))
        by (intros a; congruence).
      destruct (@Simple_vote_failed keccak W req Hf) as (_ & Hn). contradiction.
Qed.

Lemma participation_iff_confirmed_witness :
  (JsStr sample_dni = Merkle.dni sample_request /\
   snd (Merkle.vote sample_hash world_synced sample_request) =
     {| status := 200; body := Json [("txHash", JString "0xfeed")] |} /\
   In (TxWait "0xfeed") (fst (Merkle.vote sample_hash world_synced sample_request)) /\
   exists p tx rc,
     snd (Merkle.before_submission sample_hash world_synced sample_request) = Value p /\
     voteWithNullifier4 world_synced (Merkle.p_nullifier p)
       (match Merkle.candidateId sample_request with Some c => c | None => 0%Z end)
       (Merkle.p_proof p) (Merkle.p_leaf p) = Returns tx /\
     tx_hash tx = "0xfeed" /\ tx_wait tx = Returns rc)
  /\
  (exists h, In (AppendParticipation (Merkle.dni sample_request) h)
               (fst (Merkle.vote sample_hash world_synced sample_request)))
  /\
  (JsStr sample_dni = Simple.dni sample_simple_request /\
   snd (Simple.vote sample_hash world_synced sample_simple_request) =
     {| status := 200; body := Json [("txHash", JString "0xfeed")] |} /\
   In (TxWait "0xfeed")
      (fst (Simple.vote sample_hash world_synced sample_simple_request)) /\
   exists p tx rc,
     snd (Simple.before_submission sample_hash world_synced sample_simple_request)
       = Value p /\
     voteWithNullifier2 world_synced (Simple.p_nullifier p)
       (match Simple.candidateId sample_simple_request with
        | Some c => c | None => 0%Z end)
       = Returns tx /\
     tx_hash tx = "0xfeed" /\ tx_wait tx = Returns rc)
  /\
  (exists h, In (AppendParticipation (Simple.dni sample_simple_request) h)
               (fst (Simple.vote sample_hash world_synced sample_simple_request))).
Proof.
  destruct (participation_iff_confirmed sample_hash world_synced) as (A & B & C & D).
  split; [|split; [|split]].
  - apply (A sample_request (JsStr sample_dni) "0xfeed"). pick_event.
  - apply (B sample_request). pick_event.
  - apply (C sample_simple_request (JsStr sample_dni) "0xfeed"). pick_event.
  - apply (D sample_simple_request). pick_event.
Defined.

(** *** One submission at most *)

Lemma ClientProof_vote_mutations (W : World) (req : ClientProof.VoteRequest) :
  mutations (fst (ClientProof.vote W req)) = [] \/
  exists c prf,
    ClientProof.proof req = Some prf /\
    mutations (fst (ClientProof.vote W req)) =
      [SendVoteWithNullifier4 HashZero c prf (ClientProof.leaf req)].
Proof.
  unfold ClientProof.vote, ClientProof.currentElectionNumber.
  rewrite tryCatch_trace.
  destruct (ClientProof.candidateId req) as [cid|]; [|left; reflexivity].
  destruct (str_truthy (ClientProof.leaf req));
    [|destruct (ClientProof.proof req); left; reflexivity].
  destruct (ClientProof.proof req) as [prf|]; [|left; reflexivity].
  destruct (currentElectionId W) as [n|e]; [|left; reflexivity].
  cbn [call bind]. destruct (toNumber n) as [eid|]; [|left; reflexivity].
  cbn [orThrow ret raise bind app fst snd].
  destruct (ClientProof.electionId req) as [e|].
  - destruct (negb (e =? 0)%Z && negb (e =? Z.of_N eid)%Z); [left; reflexivity|].
    cbn [ret bind app].
    destruct (merkleRootOf W eid) as [onchain|x]; [|left; reflexivity].
    cbn [call bind app].
    destruct (str_truthy (ClientProof.root req) && _); [left; reflexivity|].
    cbn [ret bind app].
    destruct (BigNumber_from cid) as [c|]; [|left; reflexivity].
    cbn [orThrow ret bind app].
    right. exists c, prf. split; [reflexivity|].
    destruct (voteWithNullifier4 W HashZero c prf (ClientProof.leaf req)) as [tx|x];
      [destruct (tx_wait tx)|]; reflexivity.
  - cbn [ret bind app].
    destruct (merkleRootOf W eid) as [onchain|x]; [|left; reflexivity].
    cbn [call bind app].
    destruct (str_truthy (ClientProof.root req) && _); [left; reflexivity|].
    cbn [ret bind app].
    destruct (BigNumber_from cid) as [c|]; [|left; reflexivity].
    cbn [orThrow ret bind app].
    right. exists c, prf. split; [reflexivity|].
    destruct (voteWithNullifier4 W HashZero c prf (ClientProof.leaf req)) as [tx|x];
      [destruct (tx_wait tx)|]; reflexivity.
Qed.

(** X2. Whatever the request and the world, a run of a vote route makes at
    most one state-mutating ledger call, and that call is the vote
    submission with the values the run prepared: a vote route never
    publishes a root and never submits twice. *)
Theorem vote_submits_at_most_once (keccak : Buffer -> Buffer) (W : World) :
  (forall req,
     mutations (fst (Merkle.vote keccak W req)) = [] \/
     exists p,
       snd (Merkle.before_submission keccak W req) = Value p /\
       mutations (fst (Merkle.vote keccak W req)) =
         [SendVoteWithNullifier4 (Merkle.p_nullifier p)
            (match Merkle.candidateId req with Some c => c | None => 0%Z end)
            (Merkle.p_proof p) (Merkle.p_leaf p)])
  /\
  (forall req,
     mutations (fst (Simple.vote keccak W req)) = [] \/
     exists p,
       snd (Simple.before_submission keccak W req) = Value p /\
       mutations (fst (Simple.vote keccak W req)) =
         [SendVoteWithNullifier2 (Simple.p_nullifier p)
            (match Simple.candidateId req with Some c => c | None => 0%Z end)])
  /\
  (forall req,
     mutations (fst (ClientProof.vote W req)) = [] \/
     exists c prf,
       ClientProof.proof req = Some prf /\
       mutations (fst (ClientProof.vote W req)) =
         [SendVoteWithNullifier4 HashZero c prf (ClientProof.leaf req)]).
Proof.
  split; [|split].
  - intros req.
    pose proof (Merkle_before_submission_only_asks keccak W req) as Hask.
    apply mutations_only_asks in Hask.
    destruct (snd (Merkle.before_submission keccak W req)) as [p|r|e] eqn:E.
    + right. exists p. split; [reflexivity|].
      rewrite (Merkle_vote_outcome _ _ _ E). cbv zeta.
      destruct (voteWithNullifier4 W _ _ _ _) as [tx|x];
        [destruct (tx_wait tx)|]; cbn [fst]; rewrite mutations_app, Hask; reflexivity.
    + left. assert (Hf : fails (Merkle.before_submission keccak W req))
        by (intros a; congruence).
      destruct (@Merkle_vote_failed keccak W req Hf) as (Ht & _).
      rewrite Ht. assumption.
    + left. assert (Hf : fails (Merkle.before_submission keccak W req))
        by (intros a; congruence).
      destruct (@Merkle_vote_failed keccak W req Hf) as (Ht & _).
      rewrite Ht. assumption.
  - intros req.
    pose proof (Simple_before_submission_only_asks keccak W req) as Hask.
    apply mutations_only_asks in Hask.
    destruct (snd (Simple.before_submission keccak W req)) as [p|r|e] eqn:E.
    + right. exists p. split; [reflexivity|].
      rewrite (Simple_vote_outcome _ _ _ E). cbv zeta.
      destruct (voteWithNullifier2 W _ _) as [tx|x];
        [destruct (tx_wait tx)|]; cbn [fst]; rewrite mutations_app, Hask; reflexivity.
    + left. assert (Hf : fails (Simple.before_submission keccak W req))
        by (intros a; congruence).
      destruct (@Simple_vote_failed keccak W req Hf) as (Ht & _).
      rewrite Ht. assumption.
    + left. assert (Hf : fails (Simple.before_submission keccak W req))
        by (intros a; congruence).
      destruct (@Simple_vote_failed keccak W req Hf) as (Ht & _).
      rewrite Ht. assumption.
  - apply ClientProof_vote_mutations.
Qed.

(** *** A voter who is not in the eligibility set *)

Lemma arrayify_truthy (s : string) (b : Buffer) :
  arrayify s = Some b -> str_truthy s = true.
Proof. destruct s; [discriminate | reflexivity]. Qed.

Lemma solidityKeccak256_leaf (keccak : Buffer -> Buffer) (saltHex : string)
  (key salt : Buffer) :
  arrayify saltHex = Some salt -> List.length salt = 32 ->
  List.length (keccak key) = 32 ->
  solidityKeccak256 keccak
    [bytes32 saltHex; bytes32 (utils_keccak256 keccak key)]
  = ([], Value (hexlify (keccak (salt ++ keccak key)))).
Proof.
  intros Hs Hl Hk. unfold solidityKeccak256, solidityPack, pack1, utils_keccak256.
  rewrite Hs, Hl, arrayify_hexlify, Hk. cbn. rewrite app_nil_r. reflexivity.
Qed.

(** X3. When the registry confirms the voter and hands out a salt, but the
    leaf derived from salt and dni (hashed from the bytes toUtf8Bytes
    returns for it) is not among the registry's leaves (up to letter case),
    the accumulator variant answers 401 "No está en el padrón" having asked
    only for the contract code, the verification and the leaves: no call on
    the ledger contract, nothing sent. *)
Theorem not_in_padron_is_rejected (keccak : Buffer -> Buffer) (W : World)
  (req : Merkle.VoteRequest) (c : Z) (code : string) (reply : VerifyReply)
  (salt key : Buffer) (lvs : list string) :
  truthy (Merkle.dni req) = true ->
  truthy (Merkle.fingerprint req) = true ->
  Merkle.candidateId req = Some c ->
  getCode W = Returns code -> str_truthy code = true -> code <> "0x" ->
  Merkle.fetchJSON (RNP_URL W ++ "/verify")%string
    (rnp_verify W (Merkle.dni req) (Merkle.fingerprint req)) = Returns reply ->
  verify_match reply = true ->
  arrayify (verify_salt reply) = Some salt -> List.length salt = 32 ->
  toUtf8Bytes (Merkle.dni req) = Returns key ->
  List.length (keccak key) = 32 ->
  Merkle.fetchJSON (RNP_URL W ++ "/leaves")%string (rnp_leaves W)
    = Returns {| reply_leaves := Some lvs |} ->
  existsb (fun x => String.eqb (Hex.toLowerCase x)
                      (Hex.toLowerCase (hexlify (keccak (salt ++ keccak key)))))
    lvs = false ->
  Merkle.vote keccak W req =
    ([ProviderGetCode; RegistryVerify (Merkle.dni req) (Merkle.fingerprint req);
      RegistryLeaves],
     {| status := 401; body := Send "No está en el padrón" |}).
Proof.
  intros Hd Hfp Hc Hcode Ht Hx Hr Hm Hs Hl Hb Hk Hlv Hnot.
  apply String.eqb_neq in Hx. pose proof (arrayify_truthy _ Hs) as Hst.
  unfold Merkle.vote, Merkle.before_submission, Merkle.verify_and_prove,
    Merkle.computeGlobalTree.
  rewrite Hd, Hfp, Hc, Hcode.
  cbn [negb orb when_ ret reject bind call fst snd app].
  rewrite Ht, Hx, Hr.
  cbn [negb orb when_ ret reject bind call fst snd app].
  rewrite Hm, Hst, Hlv.
  cbn [negb orb when_ ret reject bind call fst snd app reply_leaves].
  rewrite Hb.
  cbn [negb orb when_ ret reject bind call attempt fst snd app reply_leaves].
  rewrite (solidityKeccak256_leaf keccak _ _ Hs Hl Hk).
  cbn [negb orb when_ ret reject bind call fst snd app Merkle.leaves].
  rewrite Hnot. reflexivity.
Qed.

Lemma not_in_padron_is_rejected_witness :
  Merkle.vote sample_hash world_single_synced sample_request =
    ([ProviderGetCode;
      RegistryVerify (Merkle.dni sample_request) (Merkle.fingerprint sample_request);
      RegistryLeaves],
     {| status := 401; body := Send "No está en el padrón" |}).
Proof.
  apply (@not_in_padron_is_rejected sample_hash world_single_synced sample_request
           2%Z "0x6080" {| verify_match := true; verify_salt := sample_salt |}
           sample_salt_bytes (utf8 sample_dni) [single_leaf]);
    solve [ reflexivity | vm_compute; reflexivity | vm_compute; discriminate ].
Defined.

(** *** A registry that fails *)

Lemma excerpt_bounded (text : JsString) :
  List.length (excerpt text) <= 203 /\
  (List.length text <= 200 -> excerpt text = text).
Proof.
  unfold excerpt. split.
  - rewrite length_app, length_firstn.
    pose proof (Nat.le_min_l 200 (List.length text)) as Hm.
    destruct (Nat.ltb 200 (List.length text)).
    + change (List.length (ascii_units "...")) with 3. lia.
    + change (List.length (@nil N)) with 0. lia.
  - intros H. rewrite firstn_all2 by assumption.
    destruct (Nat.ltb_spec 200 (List.length text)); [lia|]. apply app_nil_r.
Qed.

(** X4. The diagnostic [fetchJSON] puts into its errors holds at most 203
    code units of the registry's answer (the answer itself when it has 200
    or fewer), counted as JavaScript counts them.  When the registry
    answers the verification with a failure status, the accumulator variant answers 400 with "HTTP", the status, the
    address and that diagnostic, the two-argument variant answers 502
    "RNP-mock no disponible", and neither goes further than the
    verification request; when the leaves cannot be fetched, GET
    /merkle-root answers 500. *)
Theorem registry_failure_is_surfaced (keccak : Buffer -> Buffer) (W : World) :
  (forall text,
     List.length (excerpt text) <= 203 /\
     (List.length text <= 200 -> excerpt text = text))
  /\
  (forall req c code r,
     truthy (Merkle.dni req) = true ->
     truthy (Merkle.fingerprint req) = true ->
     Merkle.candidateId req = Some c ->
     getCode W = Returns code -> str_truthy code = true -> code <> "0x" ->
     rnp_verify W (Merkle.dni req) (Merkle.fingerprint req) = Returns r ->
     http_ok r = false ->
     Merkle.vote keccak W req =
       ([ProviderGetCode; RegistryVerify (Merkle.dni req) (Merkle.fingerprint req)],
        {| status := 400;
           body := Send ("HTTP " ++ http_status r ++ " " ++ (RNP_URL W ++ "/verify")
                           ++ ": " ++ print (excerpt (http_text r)))%string |}))
  /\
  (forall req c code r,
     truthy (Simple.dni req) = true ->
     truthy (Simple.fingerprint req) = true ->
     Simple.candidateId req = Some c ->
     getCode W = Returns code -> str_truthy code = true -> code <> "0x" ->
     rnp_verify W (Simple.dni req) (Simple.fingerprint req) = Returns r ->
     http_ok r = false ->
     Simple.vote keccak W req =
       ([ProviderGetCode; RegistryVerify (Simple.dni req) (Simple.fingerprint req)],
        {| status := 502; body := Send "RNP-mock no disponible" |}))
  /\
  (forall r,
     rnp_leaves W = Returns r -> http_ok r = false ->
     Merkle.merkle_root keccak W =
       ([RegistryLeaves],
        {| status := 500; body := Send "No se pudo calcular la Merkle root" |})).
Proof.
  split; [|split; [|split]].
  - apply excerpt_bounded.
  - intros req c code r Hd Hfp Hc Hcode Ht Hx Hr Hok.
    apply String.eqb_neq in Hx.
    unfold Merkle.vote, Merkle.before_submission, Merkle.verify_and_prove,
      Merkle.fetchJSON.
    rewrite Hd, Hfp, Hc, Hcode.
    cbn [negb orb when_ ret reject bind call fst snd app].
    rewrite Ht, Hx, Hr, Hok.
    cbn [negb orb when_ ret reject bind call fst snd app tryCatch].
    reflexivity.
  - intros req c code r Hd Hfp Hc Hcode Ht Hx Hr Hok.
    apply String.eqb_neq in Hx.
    unfold Simple.vote, Simple.before_submission, Simple.verify_and_derive.
    rewrite Hd, Hfp, Hc, Hcode.
    cbn [negb orb when_ ret reject bind call fst snd app].
    rewrite Ht, Hx, Hr.
    cbn [negb orb when_ ret reject bind call fst snd app].
    rewrite Hok. reflexivity.
  - intros r Hr Hok.
    unfold Merkle.merkle_root, Merkle.computeGlobalTree, Merkle.fetchJSON.
    rewrite Hr, Hok. reflexivity.
Qed.

Lemma registry_failure_is_surfaced_witness :
  Merkle.vote sample_hash (registry_down world_synced) sample_request =
    ([ProviderGetCode;
      RegistryVerify (Merkle.dni sample_request) (Merkle.fingerprint sample_request)],
     {| status := 400;
        body := Send ("HTTP " ++ "503" ++ " "
                        ++ (RNP_URL (registry_down world_synced) ++ "/verify")
                        ++ ": " ++ "Service Unavailable")%string |})
  /\
  Simple.vote sample_hash (registry_down world_synced) sample_simple_request =
    ([ProviderGetCode;
      RegistryVerify (Simple.dni sample_simple_request)
        (Simple.fingerprint sample_simple_request)],
     {| status := 502; body := Send "RNP-mock no disponible" |})
  /\
  Merkle.merkle_root sample_hash (registry_down world_synced) =
    ([RegistryLeaves],
     {| status := 500; body := Send "No se pudo calcular la Merkle root" |})
  /\
  excerpt (ascii_units "Service Unavailable") = ascii_units "Service Unavailable".
Proof.
  destruct (registry_failure_is_surfaced sample_hash (registry_down world_synced))
    as (E & M & S & R).
  split; [|split; [|split]].
  - apply (M sample_request 2%Z "0x6080"
             {| http_ok := false; http_status := "503";
                http_text := ascii_units "Service Unavailable"; http_parsed := None |});
      solve [ reflexivity | vm_compute; discriminate ].
  - apply (S sample_simple_request 2%Z "0x6080"
             {| http_ok := false; http_status := "503";
                http_text := ascii_units "Service Unavailable"; http_parsed := None |});
      solve [ reflexivity | vm_compute; discriminate ].
  - apply (R {| http_ok := false; http_status := "503";
                http_text := ascii_units "Service Unavailable"; http_parsed := None |});
      reflexivity.
  - apply (proj2 (E (ascii_units "Service Unavailable"))). vm_compute. lia.
Defined.

(** *** No active election *)

(** X5. In the accumulator variant [getCurrentElectionIdSafe] yields
    election 0 without any call when the ABI has neither getter, and after
    one call when the getter fails with a CALL_EXCEPTION with empty data.
    Whenever it yields 0, POST /admin/sync-root answers 400 "No hay elección
    activa" without asking the registry, and the vote route sends nothing
    and answers with an error. *)
Theorem no_active_election_blocks (keccak : Buffer -> Buffer) (W : World) :
  (hasFn W "currentElectionId()" = false ->
   hasFn W "getCurrentElectionId()" = false ->
   Merkle.getCurrentElectionIdSafe W = ([], Value 0%N))
  /\
  (forall e,
     hasFn W "currentElectionId()" = true ->
     currentElectionId W = Throws e ->
     exn_code e = "CALL_EXCEPTION" -> exn_data e = "0x" ->
     Merkle.getCurrentElectionIdSafe W = ([CallCurrentElectionId], Value 0%N))
  /\
  (forall code,
     getCode W = Returns code -> str_truthy code = true -> code <> "0x" ->
     snd (Merkle.getCurrentElectionIdSafe W) = Value 0%N ->
     Merkle.sync_root keccak W =
       (ProviderGetCode :: fst (Merkle.getCurrentElectionIdSafe W),
        {| status := 400; body := Send "No hay elección activa" |}))
  /\
  (forall req,
     snd (Merkle.getCurrentElectionIdSafe W) = Value 0%N ->
     no_state_mutation (fst (Merkle.vote keccak W req)) /\
     status (snd (Merkle.vote keccak W req)) <> 200).
Proof.
  split; [|split; [|split]].
  - intros H1 H2. unfold Merkle.getCurrentElectionIdSafe. rewrite H1, H2. reflexivity.
  - intros e H1 He Hc Hd. unfold Merkle.getCurrentElectionIdSafe.
    rewrite H1, He, Hc, Hd. reflexivity.
  - intros code Hcode Ht Hx Hz. apply String.eqb_neq in Hx.
    unfold Merkle.sync_root. rewrite Hcode.
    cbn [negb orb when_ ret reject bind call fst snd app].
    rewrite Ht, Hx.
    cbn [negb orb when_ ret reject bind call fst snd app].
    destruct (Merkle.getCurrentElectionIdSafe W) as [t x]. simpl in Hz. subst x.
    cbn [bind when_ reject N.eqb fst snd app tryCatch].
    rewrite ?app_nil_r. reflexivity.
  - intros req Hz.
    assert (Hf : fails (Merkle.before_submission keccak W req)).
    { intros p Hp. unfold Merkle.before_submission in Hp.
      apply bind_value_inv in Hp. destruct Hp as (q & Hq & _).
      apply Merkle_prepared in Hq.
      destruct Hq as (reply & salt & g & key & _ & _ & _ & _ & _ & _ & _ & _ & _ & He & Hn & _).
      rewrite Hz in He. injection He as He. congruence. }
    destruct (@Merkle_vote_failed keccak W req Hf) as (Ht & Hs).
    split; [|assumption]. rewrite Ht. apply Merkle_before_submission_quiet.
Qed.

Lemma no_active_election_blocks_witness :
  Merkle.getCurrentElectionIdSafe (with_abi world_synced abi_without_election)
    = ([], Value 0%N)
  /\
  Merkle.getCurrentElectionIdSafe
    (with_election world_synced (Throws empty_call_exception))
    = ([CallCurrentElectionId], Value 0%N)
  /\
  Merkle.sync_root sample_hash
    (with_election world_synced (Throws empty_call_exception)) =
    (ProviderGetCode
       :: fst (Merkle.getCurrentElectionIdSafe
                 (with_election world_synced (Throws empty_call_exception))),
     {| status := 400; body := Send "No hay elección activa" |})
  /\
  (no_state_mutation
     (fst (Merkle.vote sample_hash (with_abi world_synced abi_without_election)
             sample_request)) /\
   status (snd (Merkle.vote sample_hash (with_abi world_synced abi_without_election)
                  sample_request)) <> 200).
Proof.
  split; [|split; [|split]].
  - apply (proj1 (no_active_election_blocks sample_hash
                    (with_abi world_synced abi_without_election))); reflexivity.
  - apply (proj1 (proj2 (no_active_election_blocks sample_hash
                           (with_election world_synced (Throws empty_call_exception))))
             empty_call_exception); reflexivity.
  - apply (proj1 (proj2 (proj2 (no_active_election_blocks sample_hash
                           (with_election world_synced (Throws empty_call_exception)))))
             "0x6080");
      solve [ reflexivity | vm_compute; discriminate ].
  - apply (proj2 (proj2 (proj2 (no_active_election_blocks sample_hash
                           (with_abi world_synced abi_without_election))))
             sample_request). reflexivity.
Defined.

(** *** Publishing a root *)

Lemma Merkle_getCurrentElectionIdSafe_only_asks (W : World) :
  Forall only_asks (fst (Merkle.getCurrentElectionIdSafe W)).
Proof. unfold Merkle.getCurrentElectionIdSafe. walk_trace. Qed.

Lemma Merkle_computeGlobalTree_only_asks (keccak : Buffer -> Buffer) (W : World) :
  Forall only_asks (fst (Merkle.computeGlobalTree keccak W)).
Proof. unfold Merkle.computeGlobalTree. walk_trace. Qed.

Lemma only_asks_not_publication (t : list Event) (r : string) :
  Forall only_asks t -> ~ In (SendSetCurrentElectionMerkleRoot r) t.
Proof.
  intros H Hin. rewrite Forall_forall in H. exact (H _ Hin).
Qed.

Lemma bind_in_inv {A B} (m : Handler A) (f : A -> Handler B) (x : Event) :
  In x (fst (bind m f)) ->
  In x (fst m) \/ exists a, snd m = Value a /\ In x (fst (f a)).
Proof.
  rewrite bind_trace. intros H. apply in_app_or in H. destruct H as [H|H]; auto.
  destruct (snd m) as [a|r|e]; try contradiction. eauto.
Qed.

Lemma bind_mutations {A B} (m : Handler A) (f : A -> Handler B) (a : A) :
  snd m = Value a ->
  mutations (fst (bind m f)) = mutations (fst m) ++ mutations (fst (f a)).
Proof. intros H. rewrite bind_trace, H, mutations_app. reflexivity. Qed.

(** Takes one step of a body apart: the event is in the step, which only
    asks, or in what follows it. *)
Ltac step_in H a Ha :=
  apply bind_in_inv in H; destruct H as [H | (a & Ha & H)];
  [ exfalso; eapply only_asks_not_publication; [ | exact H ];
    solve [ walk_trace
          | apply Merkle_getCurrentElectionIdSafe_only_asks
          | apply Merkle_computeGlobalTree_only_asks ]
  | cbv beta in H ].

(** A root publication in the trace of POST /admin/sync-root of the
    accumulator variant comes after every check, and carries the root of the
    tree just computed. *)
Lemma Merkle_sync_root_sent (keccak : Buffer -> Buffer) (W : World) (r : string) :
  In (SendSetCurrentElectionMerkleRoot r) (fst (Merkle.sync_root keccak W)) ->
  exists code eid g,
    getCode W = Returns code /\ str_truthy code = true /\ code <> "0x" /\
    snd (Merkle.getCurrentElectionIdSafe W) = Value eid /\ eid <> 0%N /\
    snd (Merkle.computeGlobalTree keccak W) = Value g /\
    hasFn W "setCurrentElectionMerkleRoot(bytes32)" = true /\
    r = Merkle.root g /\
    mutations (fst (Merkle.sync_root keccak W)) =
      [SendSetCurrentElectionMerkleRoot r].
Proof.
  intros Hin. unfold Merkle.sync_root in *. rewrite tryCatch_trace in *.
  step_in Hin code Hc. step_in Hin u1 Hu1. step_in Hin eid He.
  step_in Hin u2 Hu2. step_in Hin g Hg. step_in Hin u3 Hu3.
  assert (Hr : r = Merkle.root g).
  { apply bind_in_inv in Hin. destruct Hin as [Hin | (tx & Htx & Hin)].
    - destruct Hin as [Hin|[]]. injection Hin as Hin. auto.
    - apply bind_in_inv in Hin. destruct Hin as [Hin | (rc & Hrc & Hin)].
      + destruct Hin as [Hin|[]]. discriminate.
      + destruct Hin. }
  subst r.
  rewrite (bind_mutations _ _ Hc), (bind_mutations _ _ Hu1), (bind_mutations _ _ He),
    (bind_mutations _ _ Hu2), (bind_mutations _ _ Hg), (bind_mutations _ _ Hu3).
  rewrite (mutations_only_asks (Merkle_getCurrentElectionIdSafe_only_asks W)),
    (mutations_only_asks (Merkle_computeGlobalTree_only_asks keccak W)),
    !(mutations_only_asks (Forall_trace_when only_asks _ _ _)).
  assert (Hcode : mutations (fst (call ProviderGetCode (getCode W))) = [])
    by (destruct (getCode W); reflexivity).
  rewrite Hcode. cbn [app].
  apply call_value in Hc. apply when_value in Hu1, Hu2, Hu3.
  apply orb_false_iff in Hu1. destruct Hu1 as (Ht & Hx).
  apply negb_false_iff in Ht, Hu3. apply String.eqb_neq in Hx. apply N.eqb_neq in Hu2.
  exists code, eid, g. repeat split; auto.
  destruct (setCurrentElectionMerkleRoot W (Merkle.root g)) as [tx|x];
    cbn [call bind fst snd]; [|reflexivity].
  destruct (tx_wait tx); reflexivity.
Qed.

(** X6. When POST /admin/sync-root of the accumulator variant sends a root,
    it is its only state-mutating call, the contract is deployed, an election
    is active, the ABI has the setter, and the root sent is the root of the
    tree over the registry's current leaves: the one GET /merkle-root
    reports in the same world. *)
Theorem sync_root_publishes_computed_root (keccak : Buffer -> Buffer) (W : World)
  (r : string) :
  In (SendSetCurrentElectionMerkleRoot r) (fst (Merkle.sync_root keccak W)) ->
  mutations (fst (Merkle.sync_root keccak W)) = [SendSetCurrentElectionMerkleRoot r] /\
  hasFn W "setCurrentElectionMerkleRoot(bytes32)" = true /\
  exists code eid g,
    getCode W = Returns code /\ str_truthy code = true /\ code <> "0x" /\
    snd (Merkle.getCurrentElectionIdSafe W) = Value eid /\ eid <> 0%N /\
    snd (Merkle.computeGlobalTree keccak W) = Value g /\
    r = Merkle.root g /\
    snd (Merkle.merkle_root keccak W) =
      {| status := 200;
         body := Json [("merkleRoot", JString r);
                       ("count", JNumber (Z.of_nat (List.length (Merkle.leaves g))))] |}.
Proof.
  intros Hin. apply Merkle_sync_root_sent in Hin.
  destruct Hin as (code & eid & g & Hc & Ht & Hx & He & Hz & Hg & Hs & -> & Hm).
  repeat split; auto.
  exists code, eid, g. repeat split; auto.
  unfold Merkle.merkle_root.
  destruct (Merkle.computeGlobalTree keccak W) as [t x]. simpl in Hg. subst x.
  reflexivity.
Qed.

Lemma sync_root_publishes_computed_root_witness :
  mutations (fst (Merkle.sync_root sample_hash world_root_stale))
    = [SendSetCurrentElectionMerkleRoot sample_root] /\
  hasFn world_root_stale "setCurrentElectionMerkleRoot(bytes32)" = true /\
  exists code eid g,
    getCode world_root_stale = Returns code /\ str_truthy code = true /\
    code <> "0x" /\
    snd (Merkle.getCurrentElectionIdSafe world_root_stale) = Value eid /\
    eid <> 0%N /\
    snd (Merkle.computeGlobalTree sample_hash world_root_stale) = Value g /\
    sample_root = Merkle.root g /\
    snd (Merkle.merkle_root sample_hash world_root_stale) =
      {| status := 200;
         body := Json [("merkleRoot", JString sample_root);
                       ("count", JNumber (Z.of_nat (List.length (Merkle.leaves g))))] |}.
Proof.
  apply (@sync_root_publishes_computed_root sample_hash world_root_stale sample_root).
  pick_event.
Defined.

(** X7. A published root reconciles.  If POST /admin/sync-root sent root [r]
    (not the zero hash) and the ledger then holds [r], the root check of the
    vote route passes for every request that gets through verification and
    membership against the same registry. *)
Theorem published_root_reconciles (keccak : Buffer -> Buffer) (W : World)
  (r : string) (req : Merkle.VoteRequest) (p : Merkle.Prepared) :
  In (SendSetCurrentElectionMerkleRoot r) (fst (Merkle.sync_root keccak W)) ->
  r <> HashZero ->
  hasFn W "merkleRootOf(uint256)" = true ->
  snd (Merkle.verify_and_prove keccak (with_merkleRootOf W (fun _ => Returns r)) req)
    = Value p ->
  Merkle.validate_root (with_merkleRootOf W (fun _ => Returns r)) p =
    ([CallMerkleRootOf (Merkle.p_eId p)], Value tt).
Proof.
  intros Hin Hr Hfn Hp. apply Merkle_sync_root_sent in Hin.
  destruct Hin as (code & eid & g & _ & _ & _ & _ & _ & Hg & _ & -> & _).
  apply Merkle_prepared in Hp.
  destruct Hp as (reply & salt & g' & key & _ & _ & _ & _ & Hg' & Hroot & _).
  change (Merkle.computeGlobalTree keccak (with_merkleRootOf W (fun _ => Returns (Merkle.root g))))
    with (Merkle.computeGlobalTree keccak W) in Hg'.
  assert (g' = g) by congruence. subst g'.
  unfold Merkle.validate_root.
  change (hasFn (with_merkleRootOf W (fun _ => Returns (Merkle.root g))) "merkleRootOf(uint256)")
    with (hasFn W "merkleRootOf(uint256)").
  rewrite Hfn. cbn [negb andb when_ ret bind call merkleRootOf with_merkleRootOf app].
  apply String.eqb_neq in Hr. rewrite Hr, Hroot, String.eqb_refl. reflexivity.
Qed.

Lemma published_root_reconciles_witness :
  Merkle.validate_root
    (with_merkleRootOf world_root_stale (fun _ => Returns sample_root)) sample_prepared =
    ([CallMerkleRootOf (Merkle.p_eId sample_prepared)], Value tt).
Proof.
  apply (@published_root_reconciles sample_hash world_root_stale sample_root
           sample_request sample_prepared);
    solve [ pick_event | vm_compute; discriminate ].
Defined.

(** *** src/index.js: what a submission implies *)



(** *** src/index.js: publishing twice *)

Lemma ClientProof_sync_root_mutations (W : World) :
  mutations (fst (ClientProof.sync_root W)) = [] \/
  exists r, mutations (fst (ClientProof.sync_root W))
            = [SendSetCurrentElectionMerkleRoot r].
Proof.
  unfold ClientProof.sync_root, ClientProof.currentElectionNumber.
  rewrite tryCatch_trace.
  destruct (currentElectionId W) as [n|e]; [|left; reflexivity].
  cbn [call bind]. destruct (toNumber n) as [eid|]; [|left; reflexivity].
  cbn [orThrow ret raise bind app fst snd].
  destruct (N.eqb eid 0); [left; reflexivity|].
  cbn [ret bind app].
  destruct (ClientProof.fetchJSON_root (rnp_root W eid)) as [reply|x];
    [|left; reflexivity].
  cbn [call bind app].
  destruct (negb (str_truthy (reply_root reply))); [left; reflexivity|].
  cbn [ret bind app].
  destruct (merkleRootOf W eid) as [onchain|x]; [|left; reflexivity].
  cbn [call bind app].
  destruct (negb (String.eqb (Hex.toLowerCase onchain)
                    (Hex.toLowerCase (reply_root reply)))); [|left; reflexivity].
  right. exists (reply_root reply).
  destruct (setCurrentElectionMerkleRoot W (reply_root reply)) as [tx|x];
    [destruct (tx_wait tx)|]; reflexivity.
Qed.

(** X9. When POST /admin/sync-root of src/index.js sends a root, that root is
    the one the registry reports for the current election, it differs (up to
    letter case) from the one the ledger held, and it is the only
    state-mutating call of the run; and a second run against a ledger that
    now holds the root sent sends nothing and answers [synced: false]. *)
Theorem ClientProof_sync_root_settles (W : World) (r : string) :
  In (SendSetCurrentElectionMerkleRoot r) (fst (ClientProof.sync_root W)) ->
  exists eid resp onchain,
    currentElectionId W = Returns eid /\ (eid <? 2 ^ 53)%N = true /\ eid <> 0%N /\
    rnp_root W eid = Returns resp /\
    http_parsed resp = Some {| reply_root := r |} /\
    merkleRootOf W eid = Returns onchain /\
    Hex.toLowerCase onchain <> Hex.toLowerCase r /\
    mutations (fst (ClientProof.sync_root W)) = [SendSetCurrentElectionMerkleRoot r] /\
    ClientProof.sync_root (with_merkleRootOf W (fun _ => Returns r)) =
      ([CallCurrentElectionId; RegistryRoot eid; CallMerkleRootOf eid],
       {| status := 200;
          body := Json [("synced", JBool false);
                        ("electionId", JNumber (Z.of_N eid));
                        ("root", JString r)] |}).
Proof.
  intros H.
  assert (Hfacts : exists eid resp onchain,
    currentElectionId W = Returns eid /\ toNumber eid = Some eid /\ eid <> 0%N /\
    rnp_root W eid = Returns resp /\
    http_parsed resp = Some {| reply_root := r |} /\ str_truthy r = true /\
    merkleRootOf W eid = Returns onchain /\
    Hex.toLowerCase onchain <> Hex.toLowerCase r).
  { unfold ClientProof.sync_root, ClientProof.currentElectionNumber in H.
    rewrite tryCatch_trace in H.
    apply bind_in_inv in H. destruct H as [H | (eid & He & H)].
    { exfalso. apply bind_in_inv in H. destruct H as [H | (x & _ & H)].
      - destruct H as [H|[]]. discriminate.
      - destruct (toNumber x); destruct H. }
    apply bind_value_inv in He. destruct He as (cur & Hcur & He).
    apply call_value in Hcur. apply orThrow_value in He.
    assert (cur = eid).
    { unfold toNumber in He. destruct (cur <? 2 ^ 53)%N; congruence. }
    subst cur.
    apply bind_in_inv in H. destruct H as [H | (u1 & Hu1 & H)].
    { exfalso. destruct (N.eqb eid 0); destruct H. }
    apply bind_in_inv in H. destruct H as [H | (reply & Hr & H)].
    { exfalso. destruct H as [H|[]]. discriminate. }
    apply call_value in Hr. cbv zeta in H.
    apply bind_in_inv in H. destruct H as [H | (u2 & Hu2 & H)].
    { exfalso. destruct (negb (str_truthy (reply_root reply))); destruct H. }
    apply bind_in_inv in H. destruct H as [H | (onchain & Ho & H)].
    { exfalso. destruct H as [H|[]]. discriminate. }
    apply call_value in Ho.
    destruct (N.eqb eid 0) eqn:Hz; [discriminate|]. apply N.eqb_neq in Hz.
    destruct (str_truthy (reply_root reply)) eqn:Ht; [|discriminate].
    destruct (String.eqb (Hex.toLowerCase onchain) (Hex.toLowerCase (reply_root reply)))
      eqn:Hb; cbn [negb] in H; [destruct H|].
    apply String.eqb_neq in Hb.
    assert (Hroot : r = reply_root reply).
    { apply bind_in_inv in H. destruct H as [H | (tx & _ & H)].
      - destruct H as [H|[]]. injection H as H. auto.
      - apply bind_in_inv in H. destruct H as [H | (rc & _ & H)].
        + destruct H as [H|[]]. discriminate.
        + destruct H. }
    subst r.
    unfold ClientProof.fetchJSON_root in Hr.
    destruct (rnp_root W eid) as [resp|x] eqn:Hresp; [|discriminate].
    destruct (http_parsed resp) as [j|] eqn:Hj.
    - injection Hr as ->. exists eid, resp, onchain.
      destruct reply as [root0]. repeat split; auto.
    - injection Hr as <-. discriminate. }
  destruct Hfacts as (eid & resp & onchain & He & Hn & Hz & Hr & Hp & Ht & Ho & Hb).
  assert (Hlt : (eid <? 2 ^ 53)%N = true).
  { unfold toNumber in Hn. destruct (eid <? 2 ^ 53)%N; [reflexivity | discriminate]. }
  exists eid, resp, onchain. repeat split; auto.
  - assert (Hin : In (SendSetCurrentElectionMerkleRoot r)
                    (mutations (fst (ClientProof.sync_root W))))
      by (apply filter_In; split; [assumption | reflexivity]).
    destruct (ClientProof_sync_root_mutations W) as [E | (r' & E)];
      rewrite E in Hin; [destruct Hin|].
    destruct Hin as [Hin|[]]. rewrite E, Hin. reflexivity.
  - apply (proj1 (@ClientProof_sync_root_idempotent
                    (with_merkleRootOf W (fun _ => Returns r)) eid resp r r
                    He Hlt Hz Hr Hp Ht eq_refl)).
    reflexivity.
Qed.

Lemma ClientProof_sync_root_settles_witness :
  exists eid resp onchain,
    currentElectionId (with_merkleRootOf world_synced (fun _ => Returns stale_root))
      = Returns eid /\
    (eid <? 2 ^ 53)%N = true /\ eid <> 0%N /\
    rnp_root (with_merkleRootOf world_synced (fun _ => Returns stale_root)) eid
      = Returns resp /\
    http_parsed resp = Some {| reply_root := sample_root |} /\
    merkleRootOf (with_merkleRootOf world_synced (fun _ => Returns stale_root)) eid
      = Returns onchain /\
    Hex.toLowerCase onchain <> Hex.toLowerCase sample_root /\
    mutations
      (fst (ClientProof.sync_root
              (with_merkleRootOf world_synced (fun _ => Returns stale_root))))
      = [SendSetCurrentElectionMerkleRoot sample_root] /\
    ClientProof.sync_root
      (with_merkleRootOf
         (with_merkleRootOf world_synced (fun _ => Returns stale_root))
         (fun _ => Returns sample_root)) =
      ([CallCurrentElectionId; RegistryRoot eid; CallMerkleRootOf eid],
       {| status := 200;
          body := Json [("synced", JBool false);
                        ("electionId", JNumber (Z.of_N eid));
                        ("root", JString sample_root)] |}).
Proof.
  apply (@ClientProof_sync_root_settles
           (with_merkleRootOf world_synced (fun _ => Returns stale_root)) sample_root).
  pick_event.
Defined.

(** *** Reading hexadecimal spellings *)

Lemma unhex_lower (c : ascii) : Hex.unhex (Hex.lower_char c) = Hex.unhex c.
Proof. destruct c as [[] [] [] [] [] [] [] []]; reflexivity. Qed.

Lemma string_pair_ind (P : string -> Prop) :
  P EmptyString -> (forall a, P (String a EmptyString)) ->
  (forall a b s, P s -> P (String a (String b s))) ->
  forall s, P s.
Proof.
  intros H0 H1 H2.
  assert (H : forall s, P s /\ forall a, P (String a s)).
  { induction s as [|b s [IHa IHb]]; split; auto. }
  intros s. apply H.
Qed.

Lemma decode_lenient_lower (s : string) :
  Hex.decode_lenient (Hex.toLowerCase s) = Hex.decode_lenient s.
Proof.
  induction s as [| a | a b s IH] using string_pair_ind; try reflexivity.
  cbn [Hex.toLowerCase Hex.decode_lenient]. rewrite !unhex_lower, IH. reflexivity.
Qed.

Lemma decode_lenient_length (s : string) :
  2 * List.length (Hex.decode_lenient s) <= String.length s.
Proof.
  induction s as [| a | a b s IH] using string_pair_ind; simpl; try lia.
  destruct (Hex.unhex a); [|simpl; lia].
  destruct (Hex.unhex b); simpl; lia.
Qed.

Lemma strip0x_cases (s : string) :
  (exists rest, s = String "0" (String "x" rest) /\ Hex.strip0x s = rest) \/
  ((forall rest, s <> String "0" (String "x" rest)) /\ Hex.strip0x s = s).
Proof.
  destruct s as [|a [|b rest]];
    try (right; split; [intros; discriminate | reflexivity]).
  - right. split; [intros; discriminate|].
    destruct a as [[] [] [] [] [] [] [] []]; reflexivity.
  - destruct (ascii_dec a "0") as [->|Ha].
    + destruct (ascii_dec b "x") as [->|Hb].
      * left. exists rest. split; reflexivity.
      * right. split; [intros r [= E]; contradiction|].
        destruct b as [[] [] [] [] [] [] [] []]; try reflexivity. contradiction.
    + right. split; [intros r [= E]; contradiction|].
      destruct a as [[] [] [] [] [] [] [] []]; try reflexivity. contradiction.
Qed.

Lemma lower_char_zero (c : ascii) : Hex.lower_char c = "0"%char -> c = "0"%char.
Proof.
  destruct c as [[] [] [] [] [] [] [] []]; vm_compute; intros H;
    first [ reflexivity | discriminate ].
Qed.

Lemma lower_char_x (c : ascii) :
  Hex.lower_char c = "x"%char -> c = "x"%char \/ c = "X"%char.
Proof.
  destruct c as [[] [] [] [] [] [] [] []]; vm_compute; intros H;
    first [ left; reflexivity | right; reflexivity | discriminate ].
Qed.

Lemma strip0x_lower (s : string) :
  upper_prefixed s = false ->
  Hex.strip0x (Hex.toLowerCase s) = Hex.toLowerCase (Hex.strip0x s).
Proof.
  intros Hu.
  destruct (strip0x_cases s) as [(rest & -> & E) | (Hn & E)].
  - rewrite E. reflexivity.
  - rewrite E.
    destruct (strip0x_cases (Hex.toLowerCase s)) as [(rest & El & E') | (_ & E')];
      [|assumption].
    exfalso. destruct s as [|a [|b r]]; try discriminate.
    cbn [Hex.toLowerCase] in El. injection El as Ha Hb _.
    apply lower_char_zero in Ha. apply lower_char_x in Hb. subst a.
    destruct Hb as [-> | ->]; [|discriminate].
    apply (Hn r). reflexivity.
Qed.

Lemma toBuf_of_lower (s : string) :
  upper_prefixed s = false -> toBuf (Hex.toLowerCase s) = toBuf s.
Proof.
  intros Hu. unfold toBuf. rewrite (strip0x_lower _ Hu). apply decode_lenient_lower.
Qed.

Lemma toBuf_same_up_to_case (x y : string) :
  Hex.toLowerCase x = Hex.toLowerCase y ->
  upper_prefixed x = false -> upper_prefixed y = false ->
  toBuf x = toBuf y.
Proof.
  intros E Hx Hy. rewrite <- (toBuf_of_lower _ Hx), <- (toBuf_of_lower _ Hy), E.
  reflexivity.
Qed.

Lemma upper_prefixed_inv (s : string) :
  upper_prefixed s = true -> exists r, s = String "0" (String "X" r).
Proof.
  destruct s as [|a [|b r]]; [discriminate | |].
  - destruct a as [[] [] [] [] [] [] [] []]; discriminate.
  - intros H. exists r.
    destruct (ascii_dec a "0") as [->|Ha].
    + destruct (ascii_dec b "X") as [->|Hb]; [reflexivity|].
      exfalso. destruct b as [[] [] [] [] [] [] [] []]; try discriminate. contradiction.
    + exfalso. destruct a as [[] [] [] [] [] [] [] []]; try discriminate. contradiction.
Qed.

Lemma upper_prefixed_empty (s : string) : upper_prefixed s = true -> toBuf s = [].
Proof.
  intros H. apply upper_prefixed_inv in H. destruct H as (r & ->). reflexivity.
Qed.

(** X10. [toBuf] undoes hexadecimal printing, with or without the "0x" in
    front; it yields at most one byte for two characters; it reads upper- and
    lower-case digits alike, so two spellings that agree up to letter case
    give the same bytes, except that a spelling starting with an upper-case
    "0X" is not taken for a prefix and gives the empty buffer. *)
Theorem toBuf_reads_hex :
  (forall b, toBuf (bufferToHex b) = b /\ toBuf (Hex.encode b) = b)
  /\
  (forall s, 2 * List.length (toBuf s) <= String.length s)
  /\
  (forall x y,
     Hex.toLowerCase x = Hex.toLowerCase y ->
     upper_prefixed x = false -> upper_prefixed y = false ->
     toBuf x = toBuf y)
  /\
  (forall s, upper_prefixed s = true -> toBuf s = []).
Proof.
  split; [|split; [|split]].
  - intros b. split; [apply toBuf_bufferToHex|].
    unfold toBuf.
    destruct (strip0x_cases (Hex.encode b)) as [(rest & E & _) | (_ & ->)];
      [|apply decode_lenient_encode].
    exfalso. destruct b as [|x b]; [discriminate|].
    cbn [Hex.encode] in E. injection E as _ E _.
    destruct x; discriminate.
  - intros s. unfold toBuf.
    pose proof (decode_lenient_length (Hex.strip0x s)) as H.
    destruct (strip0x_cases s) as [(rest & -> & E) | (_ & E)]; rewrite E in *.
    + simpl. lia.
    + assumption.
  - apply toBuf_same_up_to_case.
  - apply upper_prefixed_empty.
Qed.

Lemma toBuf_reads_hex_witness :
  toBuf "0xAbCd" = toBuf "0xabcd" /\ toBuf "0XABCD" = [].
Proof.
  destruct toBuf_reads_hex as (_ & _ & C & E).
  split.
  - apply C; reflexivity.
  - apply E. reflexivity.
Defined.

(** *** The proof that goes out with a vote *)

Lemma Merkle_computeGlobalTree_value (keccak : Buffer -> Buffer) (W : World)
  (g : Merkle.GlobalTree) :
  snd (Merkle.computeGlobalTree keccak W) = Value g ->
  Merkle.tree g = MerkleTreeJs.newMerkleTree keccak (map toBuf (Merkle.leaves g)) /\
  Merkle.root g = bufferToHex (MerkleTreeJs.getRoot (Merkle.tree g)).
Proof.
  unfold Merkle.computeGlobalTree. intros H.
  apply bind_value_inv in H. destruct H as (reply & _ & H).
  destruct (reply_leaves reply) as [lvs|]; [|discriminate].
  injection H as <-. split; reflexivity.
Qed.

Lemma Merkle_validate_root_value (W : World) (p : Merkle.Prepared) (u : unit) :
  snd (Merkle.validate_root W p) = Value u ->
  hasFn W "merkleRootOf(uint256)" = true /\
  exists onchain,
    merkleRootOf W (Merkle.p_eId p) = Returns onchain /\
    onchain <> HashZero /\
    Hex.toLowerCase onchain = Hex.toLowerCase (Merkle.p_root p).
Proof.
  unfold Merkle.validate_root. intros H. peel H.
  apply when_value in Ha1, H.
  apply String.eqb_neq in Ha1. apply negb_false_iff, String.eqb_eq in H.
  destruct (hasFn W "merkleRootOf(uint256)").
  - split; [reflexivity|]. apply call_value in Ha0. exists a0. auto.
  - injection Ha0 as <-. contradiction.
Qed.

(** X11. The proof that goes out with a vote checks against the root the
    ledger holds.  For a vote transaction in the trace of the accumulator
    variant, the ledger's root for the current election equals, up to letter
    case, the root of the tree over the registry's leaves; and, provided no
    leaf of the registry is spelled with an upper-case "0X", folding the
    proof sent from the leaf sent with sorted-pair hashing gives exactly that
    root. *)
Theorem sent_proof_recomputes_ledger_root (keccak : Buffer -> Buffer) (W : World)
  (req : Merkle.VoteRequest) n cid prf lf :
  In (SendVoteWithNullifier4 n cid prf lf) (fst (Merkle.vote keccak W req)) ->
  exists g eId onchain,
    snd (Merkle.computeGlobalTree keccak W) = Value g /\
    snd (Merkle.getCurrentElectionIdSafe W) = Value eId /\
    merkleRootOf W eId = Returns onchain /\
    Hex.toLowerCase onchain = Hex.toLowerCase (Merkle.root g) /\
    ((forall x, In x (Merkle.leaves g) -> upper_prefixed x = false) ->
     bufferToHex (MerkleTreeJs.foldProof keccak (map toBuf prf) (toBuf lf))
       = Merkle.root g).
Proof.
  intros H. apply Merkle_vote_sent in H. destruct H as (p & Hp & _ & -> & ->).
  unfold Merkle.before_submission in Hp. apply bind_value_inv in Hp.
  destruct Hp as (q & Hq & Hp). peel Hp. injection Hp as <-.
  apply Merkle_validate_root_value in Ha.
  destruct Ha as (_ & onchain & Ho & _ & Hlow).
  apply Merkle_prepared in Hq.
  destruct Hq as (reply & salt & g & key & _ & _ & _ & _ & Hg & Hroot & _ & Hl & Hprf & He & _ & Hin & _).
  exists g, (Merkle.p_eId q), onchain. rewrite <- Hroot. repeat split; auto.
  intros Hspell.
  destruct (Merkle_computeGlobalTree_value _ _ Hg) as (Htree & Hr).
  apply existsb_exists in Hin. destruct Hin as (x & Hx & Hxl).
  apply String.eqb_eq in Hxl.
  assert (Hb : toBuf x = toBuf (Merkle.p_leaf q)).
  { apply toBuf_same_up_to_case; auto. rewrite Hl. reflexivity. }
  rewrite Hprf, Hroot, Hr, Htree. unfold MerkleTreeJs.getHexProof.
  rewrite map_map.
  rewrite (map_ext _ (fun b => b)) by (intros; apply toBuf_bufferToHex).
  rewrite map_id, getProof_sound; [reflexivity|].
  rewrite <- Hb. apply in_map. assumption.
Qed.

Lemma sent_proof_recomputes_ledger_root_witness :
  exists g eId onchain,
    snd (Merkle.computeGlobalTree sample_hash world_synced) = Value g /\
    snd (Merkle.getCurrentElectionIdSafe world_synced) = Value eId /\
    merkleRootOf world_synced eId = Returns onchain /\
    Hex.toLowerCase onchain = Hex.toLowerCase (Merkle.root g) /\
    ((forall x, In x (Merkle.leaves g) -> upper_prefixed x = false) ->
     bufferToHex
       (MerkleTreeJs.foldProof sample_hash
          (map toBuf
             [ "0x2222222222222222222222222222222222222222222222222222222222222222";
               "0x3333333333333333333333333333333333333333333333333333333333333333" ])
          (toBuf sample_leaf))
       = Merkle.root g).
Proof.
  apply (@sent_proof_recomputes_ledger_root sample_hash world_synced sample_request
           sample_nullifier 2%Z
           [ "0x2222222222222222222222222222222222222222222222222222222222222222";
             "0x3333333333333333333333333333333333333333333333333333333333333333" ]
           sample_leaf).
  pick_event.
Defined.

(** *** The duplicate pre-check *)

Lemma not_hasVoted_in (t : list Event) (e : N) (n : string) :
  Forall not_hasVoted t -> ~ In (CallHasVoted e n) t.
Proof.
  intros H Hin. rewrite Forall_forall in H. exact (H _ Hin).
Qed.

Lemma Merkle_verify_and_prove_not_hasVoted (keccak : Buffer -> Buffer) (W : World)
  (req : Merkle.VoteRequest) :
  Forall not_hasVoted (fst (Merkle.verify_and_prove keccak W req)).
Proof.
  unfold Merkle.verify_and_prove, Merkle.computeGlobalTree,
    Merkle.getCurrentElectionIdSafe.
  walk_trace.
Qed.

Lemma Merkle_validate_root_not_hasVoted (W : World) (p : Merkle.Prepared) :
  Forall not_hasVoted (fst (Merkle.validate_root W p)).
Proof. unfold Merkle.validate_root. walk_trace. Qed.

Lemma Simple_verify_and_derive_not_hasVoted (keccak : Buffer -> Buffer) (W : World)
  (req : Simple.VoteRequest) :
  Forall not_hasVoted (fst (Simple.verify_and_derive keccak W req)).
Proof.
  unfold Simple.verify_and_derive, Simple.getCurrentElectionIdSafe. walk_trace.
Qed.

Lemma Merkle_submit_not_hasVoted (W : World) (req : Merkle.VoteRequest)
  (p : Merkle.Prepared) :
  Forall not_hasVoted (fst (Merkle.submit W req p)).
Proof. unfold Merkle.submit, emit. walk_trace. Qed.

Lemma Simple_submit_not_hasVoted (W : World) (req : Simple.VoteRequest)
  (p : Simple.Prepared) :
  Forall not_hasVoted (fst (Simple.submit W req p)).
Proof. unfold Simple.submit, emit. walk_trace. Qed.

Lemma Simple_vote_after_derive (keccak : Buffer -> Buffer) (W : World)
  (req : Simple.VoteRequest) (p : Simple.Prepared) :
  snd (Simple.verify_and_derive keccak W req) = Value p ->
  fst (Simple.vote keccak W req) =
    fst (Simple.verify_and_derive keccak W req)
      ++ fst (Simple.precheck_duplicate W p ;; Simple.require_vote_fn W ;;
              Simple.submit W req p)%handler /\
  snd (Simple.vote keccak W req) =
    snd (tryCatch
           (Simple.precheck_duplicate W p ;; Simple.require_vote_fn W ;;
            Simple.submit W req p)%handler
           (fun e => {| status := 400;
                        body := Send (or_str (exn_error_message e)
                                        (or_str (exn_reason e)
                                           (match exn_message e with
                                            | Some m => m
                                            | None => "Error del relayer"
                                            end))) |})).
Proof.
  intros H. unfold Simple.vote, Simple.before_submission.
  destruct (Simple.verify_and_derive keccak W req) as [t x]. simpl in H. subst x.
  rewrite bind_assoc. cbn [bind fst].
  rewrite ?bind_assoc.
  destruct (Simple.precheck_duplicate W p) as [t1 [[]|r|e]]; cbn [bind]; auto.
  rewrite ?bind_assoc.
  destruct (Simple.require_vote_fn W) as [t2 [[]|r|e]]; cbn [bind]; auto.
  rewrite bind_ret_l.
  destruct (Simple.submit W req p) as [t3 [r|r|e]]; cbn; auto.
Qed.

(** X13. The duplicate pre-check asks hasVoted, when the ABI has it, for
    exactly the election id and the nullifier the submission would carry.
    When the ledger answers that the nullifier was used, the route answers
    409 "Ya votaste en esta elección" and sends nothing. *)
Theorem duplicate_precheck_blocks (keccak : Buffer -> Buffer) (W : World) :
  (forall req e n,
     In (CallHasVoted e n) (fst (Merkle.vote keccak W req)) ->
     hasFn W "hasVoted(uint256,bytes32)" = true /\
     exists p, snd (Merkle.verify_and_prove keccak W req) = Value p /\
               e = Merkle.p_eId p /\ n = Merkle.p_nullifier p)
  /\
  (forall req p,
     snd (Merkle.verify_and_prove keccak W req) = Value p ->
     snd (Merkle.validate_root W p) = Value tt ->
     hasFn W "hasVoted(uint256,bytes32)" = true ->
     hasVoted W (Merkle.p_eId p) (Merkle.p_nullifier p) = Returns true ->
     snd (Merkle.vote keccak W req) =
       {| status := 409; body := Send "Ya votaste en esta elección" |} /\
     no_state_mutation (fst (Merkle.vote keccak W req)))
  /\
  (forall req e n,
     In (CallHasVoted e n) (fst (Simple.vote keccak W req)) ->
     hasFn W "hasVoted(uint256,bytes32)" = true /\
     exists p, snd (Simple.verify_and_derive keccak W req) = Value p /\
               e = Simple.p_eId p /\ n = Simple.p_nullifier p)
  /\
  (forall req p,
     snd (Simple.verify_and_derive keccak W req) = Value p ->
     hasFn W "hasVoted(uint256,bytes32)" = true ->
     hasVoted W (Simple.p_eId p) (Simple.p_nullifier p) = Returns true ->
     snd (Simple.vote keccak W req) =
       {| status := 409; body := Send "Ya votaste en esta elección" |} /\
     no_state_mutation (fst (Simple.vote keccak W req))).
Proof.
  split; [|split; [|split]].
  - intros req e n Hin.
    destruct (snd (Merkle.verify_and_prove keccak W req)) as [p|r|x] eqn:E.
    + rewrite (Merkle_vote_after_prepare _ _ _ E), tryCatch_trace in Hin.
      apply bind_in_inv in Hin. cbn [fst snd] in Hin.
      destruct Hin as [Hin | (q & Hq & Hin)];
        [exfalso; eapply not_hasVoted_in;
           [apply (Merkle_verify_and_prove_not_hasVoted keccak W req) | exact Hin]|].
      injection Hq as <-.
      apply bind_in_inv in Hin. destruct Hin as [Hin | (u1 & _ & Hin)];
        [exfalso; eapply not_hasVoted_in;
           [apply (Merkle_validate_root_not_hasVoted W p) | exact Hin]|].
      apply bind_in_inv in Hin. destruct Hin as [Hin | (u2 & _ & Hin)].
      * unfold Merkle.precheck_duplicate in Hin.
        destruct (hasFn W "hasVoted(uint256,bytes32)"); [|destruct Hin].
        split; [reflexivity|]. exists p. split; [reflexivity|].
        apply bind_in_inv in Hin. destruct Hin as [Hin | (u & _ & Hin)].
        -- destruct Hin as [Hin|[]]. injection Hin as <- <-. auto.
        -- destruct u; destruct Hin.
      * exfalso. apply bind_in_inv in Hin. destruct Hin as [Hin | (u3 & _ & Hin)].
        -- unfold Merkle.require_vote_fn in Hin.
           destruct (negb (hasFn W _)); destruct Hin.
        -- eapply not_hasVoted_in; [apply (Merkle_submit_not_hasVoted W req p) | exact Hin].
    + exfalso.
      unfold Merkle.vote, Merkle.before_submission in Hin.
      rewrite tryCatch_trace, bind_assoc, bind_trace, E in Hin.
      rewrite app_nil_r in Hin.
      eapply not_hasVoted_in;
        [apply (Merkle_verify_and_prove_not_hasVoted keccak W req) | exact Hin].
    + exfalso.
      unfold Merkle.vote, Merkle.before_submission in Hin.
      rewrite tryCatch_trace, bind_assoc, bind_trace, E in Hin.
      rewrite app_nil_r in Hin.
      eapply not_hasVoted_in;
        [apply (Merkle_verify_and_prove_not_hasVoted keccak W req) | exact Hin].
  - intros req p Hp Hr Hf Hv.
    pose proof (Merkle_verify_and_prove_quiet keccak W req) as Hq1.
    pose proof (Merkle_validate_root_quiet W p) as Hq2.
    unfold quiet in *.
    rewrite (Merkle_vote_after_prepare _ _ _ Hp). cbn beta iota delta [bind].
    destruct (Merkle.validate_root W p) as [t1 x1]. simpl in Hr. subst x1.
    unfold Merkle.precheck_duplicate. rewrite Hf, Hv.
    cbn [call when_ reject bind fst snd app tryCatch].
    split; [reflexivity|].
    apply Forall_app. split; [assumption|].
    apply Forall_app. split; [assumption | repeat constructor].
  - intros req e n Hin.
    destruct (snd (Simple.verify_and_derive keccak W req)) as [p|r|x] eqn:E.
    + rewrite (proj1 (Simple_vote_after_derive _ _ _ E)) in Hin.
      apply in_app_or in Hin.
      destruct Hin as [Hin | Hin];
        [exfalso; eapply not_hasVoted_in;
           [apply (Simple_verify_and_derive_not_hasVoted keccak W req) | exact Hin]|].
      apply bind_in_inv in Hin. destruct Hin as [Hin | (u2 & _ & Hin)].
      * unfold Simple.precheck_duplicate in Hin.
        destruct (hasFn W "hasVoted(uint256,bytes32)"); [|destruct Hin].
        split; [reflexivity|]. exists p. split; [reflexivity|].
        apply bind_in_inv in Hin. destruct Hin as [Hin | (u & _ & Hin)].
        -- destruct Hin as [Hin|[]]. injection Hin as <- <-. auto.
        -- destruct u; destruct Hin.
      * exfalso. apply bind_in_inv in Hin. destruct Hin as [Hin | (u3 & _ & Hin)].
        -- unfold Simple.require_vote_fn in Hin.
           destruct (negb (hasFn W _)); destruct Hin.
        -- eapply not_hasVoted_in; [apply (Simple_submit_not_hasVoted W req p) | exact Hin].
    + exfalso.
      unfold Simple.vote, Simple.before_submission in Hin.
      rewrite tryCatch_trace, bind_assoc, bind_trace, E in Hin.
      rewrite app_nil_r in Hin.
      eapply not_hasVoted_in;
        [apply (Simple_verify_and_derive_not_hasVoted keccak W req) | exact Hin].
    + exfalso.
      unfold Simple.vote, Simple.before_submission in Hin.
      rewrite tryCatch_trace, bind_assoc, bind_trace, E in Hin.
      rewrite app_nil_r in Hin.
      eapply not_hasVoted_in;
        [apply (Simple_verify_and_derive_not_hasVoted keccak W req) | exact Hin].
  - intros req p Hp Hf Hv.
    pose proof (Simple_verify_and_derive_not_hasVoted keccak W req) as Hn.
    destruct (Simple_vote_after_derive _ _ _ Hp) as (Et & Es).
    rewrite Et, Es. unfold Simple.precheck_duplicate. rewrite Hf, Hv.
    cbn [call when_ reject bind fst snd app tryCatch].
    split; [reflexivity|].
    apply Forall_app. split; [|repeat constructor].
    assert (Hq : quiet (Simple.verify_and_derive keccak W req)).
    { unfold Simple.verify_and_derive. walk @quiet_bind.
      apply Simple_getCurrentElectionIdSafe_quiet. }
    exact Hq.
Qed.

Lemma duplicate_precheck_blocks_witness :
  (hasFn world_synced "hasVoted(uint256,bytes32)" = true /\
   exists p, snd (Merkle.verify_and_prove sample_hash world_synced sample_request)
               = Value p /\
             1%N = Merkle.p_eId p /\ sample_nullifier = Merkle.p_nullifier p)
  /\
  (snd (Merkle.vote sample_hash (already_voted world_synced) sample_request) =
     {| status := 409; body := Send "Ya votaste en esta elección" |} /\
   no_state_mutation
     (fst (Merkle.vote sample_hash (already_voted world_synced) sample_request)))
  /\
  (hasFn world_synced "hasVoted(uint256,bytes32)" = true /\
   exists p, snd (Simple.verify_and_derive sample_hash world_synced
                    sample_simple_request) = Value p /\
             1%N = Simple.p_eId p /\ sample_nullifier = Simple.p_nullifier p)
  /\
  (snd (Simple.vote sample_hash (already_voted world_synced) sample_simple_request) =
     {| status := 409; body := Send "Ya votaste en esta elección" |} /\
   no_state_mutation
     (fst (Simple.vote sample_hash (already_voted world_synced)
             sample_simple_request))).
Proof.
  split; [|split; [|split]].
  - apply (proj1 (duplicate_precheck_blocks sample_hash world_synced)
             sample_request 1%N sample_nullifier).
    pick_event.
  - apply (proj1 (proj2 (duplicate_precheck_blocks sample_hash
                           (already_voted world_synced)))
             sample_request sample_prepared); pick_event.
  - apply (proj1 (proj2 (proj2 (duplicate_precheck_blocks sample_hash world_synced)))
             sample_simple_request 1%N sample_nullifier).
    pick_event.
  - apply (proj2 (proj2 (proj2 (duplicate_precheck_blocks sample_hash
                                  (already_voted world_synced))))
             sample_simple_request
             {| Simple.p_eId := 1%N; Simple.p_nullifier := sample_nullifier |});
      pick_event.
Defined.

(** *** The two-argument variant and the current election *)

(** X12. The two-argument variant does not check that an election is
    active.  When the ABI has neither getter, the votes it sends carry the
    nullifier of election 0: the hash over the word 0, the salt and the
    bytes ethers finds in the identity key, which for a key sent as
    well-formed text is the nullifier the protocol gives that text in
    election 0.  When the getter throws, whatever the error,
    the error goes to the caller: the answer is 400 with its text, after the
    contract-code check, the verification and that one call, and nothing is
    sent. *)
Theorem Simple_has_no_election_guard (keccak : Buffer -> Buffer) (W : World) :
  (forall req n cid,
     hasFn W "currentElectionId()" = false ->
     hasFn W "getCurrentElectionId()" = false ->
     In (SendVoteWithNullifier2 n cid) (fst (Simple.vote keccak W req)) ->
     exists vr reply salt,
       rnp_verify W (Simple.dni req) (Simple.fingerprint req) = Returns vr /\
       http_parsed vr = Some reply /\
       arrayify (verify_salt reply) = Some salt /\
       (exists key, toUtf8Bytes (Simple.dni req) = Returns key /\
                    n = hexlify (keccak (be_bytes 32 0 ++ keccak (salt ++ keccak key)))) /\
       (proper_text (Simple.dni req) = true ->
        n = hexlify (spec_nullifier keccak 0 salt (hashed_text (Simple.dni req)))))
  /\
  (forall req c code vr reply e,
     truthy (Simple.dni req) = true ->
     truthy (Simple.fingerprint req) = true ->
     Simple.candidateId req = Some c ->
     getCode W = Returns code -> str_truthy code = true -> code <> "0x" ->
     rnp_verify W (Simple.dni req) (Simple.fingerprint req) = Returns vr ->
     http_ok vr = true -> http_parsed vr = Some reply ->
     verify_match reply = true -> str_truthy (verify_salt reply) = true ->
     hasFn W "currentElectionId()" = true ->
     currentElectionId W = Throws e ->
     Simple.vote keccak W req =
       ([ProviderGetCode; RegistryVerify (Simple.dni req) (Simple.fingerprint req);
         CallCurrentElectionId],
        {| status := 400;
           body := Send (or_str (exn_error_message e)
                           (or_str (exn_reason e)
                              (match exn_message e with
                               | Some m => m
                               | None => "Error del relayer"
                               end))) |})).
Proof.
  split.
  - intros req n cid H1 H2 Hin.
    apply Simple_vote_nullifier in Hin.
    destruct Hin as (vr & reply & salt & eId & key & Hv & Hp & Hs & He & Hk & ->).
    unfold Simple.getCurrentElectionIdSafe in He. rewrite H1, H2 in He.
    injection He as <-. exists vr, reply, salt. repeat split; auto; [eauto|].
    intros Hq. rewrite (toUtf8Bytes_proper _ Hk Hq). reflexivity.
  - intros req c code vr reply e Hd Hfp Hc Hcode Ht Hx Hr Hok Hp Hm Hs Hf He.
    apply String.eqb_neq in Hx.
    unfold Simple.vote, Simple.before_submission, Simple.verify_and_derive,
      Simple.getCurrentElectionIdSafe.
    rewrite Hd, Hfp, Hc, Hcode.
    cbn [negb orb when_ ret reject bind call fst snd app].
    rewrite Ht, Hx, Hr.
    cbn [negb orb when_ ret reject bind call fst snd app].
    rewrite Hok, Hp.
    cbn [negb orb when_ ret reject bind call fst snd app orThrow].
    rewrite Hm, Hs, Hf, He. reflexivity.
Qed.

Lemma Simple_has_no_election_guard_witness :
  (exists vr reply salt,
     rnp_verify (with_abi world_synced abi_vote_only)
       (Simple.dni sample_simple_request) (Simple.fingerprint sample_simple_request)
       = Returns vr /\
     http_parsed vr = Some reply /\
     arrayify (verify_salt reply) = Some salt /\
     (exists key, toUtf8Bytes (Simple.dni sample_simple_request) = Returns key /\
                  sample_nullifier_0 =
                    hexlify (sample_hash (be_bytes 32 0
                                            ++ sample_hash (salt ++ sample_hash key)))) /\
     (proper_text (Simple.dni sample_simple_request) = true ->
      sample_nullifier_0 = hexlify (spec_nullifier sample_hash 0 salt sample_dni)))
  /\
  Simple.vote sample_hash (with_election world_synced (Throws empty_call_exception))
    sample_simple_request =
    ([ProviderGetCode;
      RegistryVerify (Simple.dni sample_simple_request)
        (Simple.fingerprint sample_simple_request);
      CallCurrentElectionId],
     {| status := 400;
        body := Send (or_str (exn_error_message empty_call_exception)
                        (or_str (exn_reason empty_call_exception)
                           (match exn_message empty_call_exception with
                            | Some m => m
                            | None => "Error del relayer"
                            end))) |}).
Proof.
  split.
  - apply (proj1 (Simple_has_no_election_guard sample_hash
                    (with_abi world_synced abi_vote_only))
             sample_simple_request sample_nullifier_0 2%Z); pick_event.
  - apply (proj2 (Simple_has_no_election_guard sample_hash
                    (with_election world_synced (Throws empty_call_exception)))
             sample_simple_request 2%Z "0x6080"
             {| http_ok := true; http_status := "200"; http_text := [];
                http_parsed := Some {| verify_match := true;
                                       verify_salt := sample_salt |} |}
             {| verify_match := true; verify_salt := sample_salt |}
             empty_call_exception);
      solve [ reflexivity | vm_compute; discriminate ].
Defined.

(** *** The participation file *)

Lemma Participation_read_listed (d : Participation.Disk) (l : list Participation.Item) :
  Participation.get_participation d = Participation.Items l ->
  Participation.read (Participation.file d) = Some (Some l).
Proof.
  unfold Participation.get_participation.
  destruct (Participation.file d); cbn; intros H; try discriminate;
    injection H as <-; reflexivity.
Qed.

Lemma Participation_write_append (d : Participation.Disk) (dni : JsValue)
  (h now : string) :
  Participation.write (Participation.appendParticipation d dni h now)
    = Participation.write d.
Proof.
  unfold Participation.appendParticipation.
  destruct (Participation.read (Participation.file d)) as [[arr|]|]; try reflexivity.
  destruct (Participation.write d) eqn:E; cbn [Participation.write]; congruence.
Qed.

Lemma Participation_append_cases (d : Participation.Disk) (dni : JsValue)
  (h now : string) (l : list Participation.Item) :
  Participation.get_participation d = Participation.Items l ->
  (Participation.appendParticipation d dni h now = d) \/
  (Participation.writable d = true /\
   Participation.get_participation (Participation.appendParticipation d dni h now) =
     Participation.Items (l ++ [Participation.Entry dni h now])) \/
  (exists p, Participation.write d = Participation.Torn p).
Proof.
  intros H. apply Participation_read_listed in H.
  unfold Participation.appendParticipation, Participation.writable. rewrite H.
  destruct (Participation.write d) as [| |p].
  - right; left. split; reflexivity.
  - left. reflexivity.
  - right; right. exists p. reflexivity.
Qed.

Lemma Participation_append_writable (d : Participation.Disk) (dni : JsValue)
  (h now : string) (l : list Participation.Item) :
  Participation.writable d = true ->
  Participation.get_participation d = Participation.Items l ->
  Participation.get_participation (Participation.appendParticipation d dni h now) =
    Participation.Items (l ++ [Participation.Entry dni h now]).
Proof.
  intros Hw H. apply Participation_read_listed in H.
  unfold Participation.appendParticipation, Participation.writable in *. rewrite H.
  destruct (Participation.write d); try discriminate. reflexivity.
Qed.

Lemma Participation_torn_append (d : Participation.Disk) (dni : JsValue)
  (h now : string) (l : list Participation.Item) (p : bool) :
  Participation.get_participation d = Participation.Items l ->
  Participation.write d = Participation.Torn p ->
  Participation.appendParticipation d dni h now = torn_disk p.
Proof.
  intros H Hw. apply Participation_read_listed in H.
  unfold Participation.appendParticipation, torn_disk. rewrite H, Hw. reflexivity.
Qed.

Lemma Participation_torn_stays (t : list Event) (clock : nat -> string) (n : nat)
  (p : bool) :
  Participation.replay t clock n (torn_disk p) = torn_disk p.
Proof.
  revert n. induction t as [|e t IH]; intros n; [reflexivity|].
  destruct e; cbn [Participation.replay]; try apply IH.
  replace (Participation.appendParticipation (torn_disk p) dni txHash (clock n))
    with (torn_disk p) by (destruct p; reflexivity).
  apply IH.
Qed.

Lemma Participation_torn_replay (t : list Event) (clock : nat -> string) (n : nat)
  (d : Participation.Disk) (l : list Participation.Item) (p : bool)
  (dni : JsValue) (h : string) :
  Participation.get_participation d = Participation.Items l ->
  Participation.write d = Participation.Torn p ->
  In (AppendParticipation dni h) t ->
  Participation.replay t clock n d = torn_disk p.
Proof.
  intros Hd Hw. revert n. induction t as [|e t IH]; intros n Hin; [destruct Hin|].
  destruct Hin as [->|Hin].
  - cbn [Participation.replay].
    rewrite (@Participation_torn_append d _ _ _ l p Hd Hw). apply Participation_torn_stays.
  - destruct e; cbn [Participation.replay]; try (apply IH; exact Hin).
    rewrite (@Participation_torn_append d _ _ _ l p Hd Hw). apply Participation_torn_stays.
Qed.

Lemma Participation_replay_app (t u : list Event) (clock : nat -> string) (n : nat)
  (d : Participation.Disk) :
  Participation.replay (t ++ u) clock n d =
  Participation.replay u clock (n + List.length t) (Participation.replay t clock n d).
Proof.
  revert n d. induction t as [|e t IH]; intros n d.
  - cbn. rewrite Nat.add_0_r. reflexivity.
  - cbn [app List.length]. rewrite Nat.add_succ_r.
    destruct e; cbn [Participation.replay]; apply IH.
Qed.

Lemma Participation_replay_only_asks (t : list Event) (clock : nat -> string) (n : nat)
  (d : Participation.Disk) :
  Forall only_asks t -> Participation.replay t clock n d = d.
Proof.
  intros H. revert n. induction H as [|e t He _ IH]; intros n; [reflexivity|].
  destruct e; cbn [Participation.replay]; try apply IH. destruct He.
Qed.

(** X14. The participation file under any run.  As long as no write is
    torn (each one either puts the whole text on the disk or leaves the file
    untouched), the file is append-only: if it lists [l] before, then after
    the participation events of any trace it lists [l] followed by entries
    of that trace, each one an entry written by this code; no earlier
    element is removed, changed or moved.  A write that fails after the file
    was opened loses the list: after a trace with a participation event the
    file is empty, and GET /participation lists nothing, or holds a first
    part of the text and GET /participation answers 500. *)
Theorem participation_log_is_append_only (t : list Event) (clock : nat -> string)
  (n : nat) (d : Participation.Disk) (l : list Participation.Item) :
  Participation.get_participation d = Participation.Items l ->
  ((forall p, Participation.write d <> Participation.Torn p) ->
   exists l',
     Participation.get_participation (Participation.replay t clock n d) =
       Participation.Items (l ++ l') /\
     forall it, In it l' ->
       exists dni h now,
         it = Participation.Entry dni h now /\ In (AppendParticipation dni h) t)
  /\
  (forall p dni h,
     Participation.write d = Participation.Torn p ->
     In (AppendParticipation dni h) t ->
     Participation.file (Participation.replay t clock n d) =
       (if p then Participation.Garbage else Participation.Blank) /\
     Participation.get_participation (Participation.replay t clock n d) =
       (if p then Participation.Error500 else Participation.Items [])).
Proof.
  intros Hd. split.
  - intros Hw. revert n d l Hd Hw. induction t as [|e t IH]; intros n d l Hd Hw.
    + exists []. rewrite app_nil_r. split; [exact Hd|]. intros it [].
    + assert (Hskip :
        exists l', Participation.get_participation (Participation.replay t clock (S n) d)
                   = Participation.Items (l ++ l') /\
          forall it, In it l' -> exists dni h now,
            it = Participation.Entry dni h now /\ In (AppendParticipation dni h) (e :: t)).
      { destruct (IH (S n) d l Hd Hw) as (l' & Hl & Hin). exists l'. split; [exact Hl|].
        intros it Hit. destruct (Hin it Hit) as (a & b & c & -> & Hc).
        exists a, b, c. split; [reflexivity|right; exact Hc]. }
      destruct e; cbn [Participation.replay]; try exact Hskip.
      destruct (Participation_append_cases d dni txHash (clock n) Hd)
        as [Hsame|[(_ & Happ)|(p & Hp)]].
      * rewrite Hsame. exact Hskip.
      * assert (Hw' : forall p,
                  Participation.write
                    (Participation.appendParticipation d dni txHash (clock n))
                  <> Participation.Torn p)
          by (intros p; rewrite Participation_write_append; apply Hw).
        destruct (IH (S n) _ _ Happ Hw') as (l' & Hl & Hin).
        exists (Participation.Entry dni txHash (clock n) :: l').
        rewrite <- app_assoc in Hl. split; [exact Hl|].
        intros it [<-|Hit].
        -- exists dni, txHash, (clock n). split; [reflexivity|left; reflexivity].
        -- destruct (Hin it Hit) as (a & b & c & -> & Hc).
           exists a, b, c. split; [reflexivity|right; exact Hc].
      * destruct (Hw p Hp).
  - intros p dni h Hw Hin.
    rewrite (@Participation_torn_replay t clock n d l p dni h Hd Hw Hin).
    destruct p; split; reflexivity.
Qed.

Lemma participation_log_is_append_only_witness :
  (exists l',
     Participation.get_participation
       (Participation.replay (fst (Merkle.vote sample_hash world_synced sample_request))
          (fun _ => "2024-01-01T00:00:00.000Z") 0
          {| Participation.file :=
               Participation.Array [Participation.Foreign "null"];
             Participation.write := Participation.Written |}) =
       Participation.Items ([Participation.Foreign "null"] ++ l') /\
     forall it, In it l' ->
       exists dni h now,
         it = Participation.Entry dni h now /\
         In (AppendParticipation dni h)
            (fst (Merkle.vote sample_hash world_synced sample_request)))
  /\
  Participation.get_participation
    (Participation.replay (fst (Merkle.vote sample_hash world_synced sample_request))
       (fun _ => "2024-01-01T00:00:00.000Z") 0
       {| Participation.file :=
            Participation.Array [Participation.Foreign "null"];
          Participation.write := Participation.Torn false |}) =
    Participation.Items [].
Proof.
  split.
  - apply (proj1 (participation_log_is_append_only
                    (fst (Merkle.vote sample_hash world_synced sample_request))
                    (fun _ => "2024-01-01T00:00:00.000Z") 0
                    {| Participation.file :=
                         Participation.Array [Participation.Foreign "null"];
                       Participation.write := Participation.Written |}
                    (l := [Participation.Foreign "null"]) eq_refl)).
    intros p H. discriminate H.
  - apply (proj2 (participation_log_is_append_only
                    (fst (Merkle.vote sample_hash world_synced sample_request))
                    (fun _ => "2024-01-01T00:00:00.000Z") 0
                    {| Participation.file :=
                         Participation.Array [Participation.Foreign "null"];
                       Participation.write := Participation.Torn false |}
                    (l := [Participation.Foreign "null"]) eq_refl)
             false (Merkle.dni sample_request) "0xfeed" eq_refl).
    pick_event.
Defined.

(** X15. A vote and the participation list, end to end, in both vote routes
    that keep the file: when the file is writable and lists [l], a vote
    answered with 200 and a transaction hash leaves a file that lists [l]
    followed by exactly one new entry, for the dni of the request and that
    hash; a vote answered with anything else leaves the disk as it was. *)
Theorem vote_is_recorded_once (keccak : Buffer -> Buffer) (W : World)
  (clock : nat -> string) (d : Participation.Disk) (l : list Participation.Item) :
  Participation.writable d = true ->
  Participation.get_participation d = Participation.Items l ->
  (forall req,
     (status (snd (Merkle.vote keccak W req)) = 200 ->
      exists h now,
        snd (Merkle.vote keccak W req) =
          {| status := 200; body := Json [("txHash", JString h)] |} /\
        Participation.get_participation
          (Participation.replay (fst (Merkle.vote keccak W req)) clock 0 d) =
          Participation.Items (l ++ [Participation.Entry (Merkle.dni req) h now])) /\
     (status (snd (Merkle.vote keccak W req)) <> 200 ->
      Participation.replay (fst (Merkle.vote keccak W req)) clock 0 d = d))
  /\
  (forall req,
     (status (snd (Simple.vote keccak W req)) = 200 ->
      exists h now,
        snd (Simple.vote keccak W req) =
          {| status := 200; body := Json [("txHash", JString h)] |} /\
        Participation.get_participation
          (Participation.replay (fst (Simple.vote keccak W req)) clock 0 d) =
          Participation.Items (l ++ [Participation.Entry (Simple.dni req) h now])) /\
     (status (snd (Simple.vote keccak W req)) <> 200 ->
      Participation.replay (fst (Simple.vote keccak W req)) clock 0 d = d)).
Proof.
  intros Hw Hd. split.
  - intros req.
    pose proof (Merkle_before_submission_only_asks keccak W req) as Hask.
    destruct (snd (Merkle.before_submission keccak W req)) as [p|r|e] eqn:E.
    + rewrite (Merkle_vote_outcome _ _ _ E). cbv zeta.
      destruct (voteWithNullifier4 W _ _ _ _) as [tx|x].
      * destruct (tx_wait tx) as [rc|x]; cbn [fst snd status]; split;
          try (intros H; discriminate H); try (intros H; exfalso; apply H; reflexivity).
        -- intros _. eexists (tx_hash tx), _. split; [reflexivity|].
           rewrite Participation_replay_app.
           rewrite (Participation_replay_only_asks _ _ _ Hask).
           cbn [Participation.replay].
           apply Participation_append_writable; assumption.
        -- intros _. rewrite Participation_replay_app.
           rewrite (Participation_replay_only_asks _ _ _ Hask). reflexivity.
      * cbn [fst snd status]; split; [intros H; discriminate H|].
        intros _. rewrite Participation_replay_app.
        rewrite (Participation_replay_only_asks _ _ _ Hask). reflexivity.
    + assert (Hf : fails (Merkle.before_submission keccak W req))
        by (intros a; congruence).
      destruct (@Merkle_vote_failed keccak W req Hf) as (Ht & Hn).
      split; [intros H; contradiction|]. intros _. rewrite Ht.
      apply Participation_replay_only_asks. exact Hask.
    + assert (Hf : fails (Merkle.before_submission keccak W req))
        by (intros a; congruence).
      destruct (@Merkle_vote_failed keccak W req Hf) as (Ht & Hn).
      split; [intros H; contradiction|]. intros _. rewrite Ht.
      apply Participation_replay_only_asks. exact Hask.
  - intros req.
    pose proof (Simple_before_submission_only_asks keccak W req) as Hask.
    destruct (snd (Simple.before_submission keccak W req)) as [p|r|e] eqn:E.
    + rewrite (Simple_vote_outcome _ _ _ E). cbv zeta.
      destruct (voteWithNullifier2 W _ _) as [tx|x].
      * destruct (tx_wait tx) as [rc|x]; cbn [fst snd status]; split;
          try (intros H; discriminate H); try (intros H; exfalso; apply H; reflexivity).
        -- intros _. eexists (tx_hash tx), _. split; [reflexivity|].
           rewrite Participation_replay_app.
           rewrite (Participation_replay_only_asks _ _ _ Hask).
           cbn [Participation.replay].
           apply Participation_append_writable; assumption.
        -- intros _. rewrite Participation_replay_app.
           rewrite (Participation_replay_only_asks _ _ _ Hask). reflexivity.
      * cbn [fst snd status]; split; [intros H; discriminate H|].
        intros _. rewrite Participation_replay_app.
        rewrite (Participation_replay_only_asks _ _ _ Hask). reflexivity.
    + assert (Hf : fails (Simple.before_submission keccak W req))
        by (intros a; congruence).
      destruct (@Simple_vote_failed keccak W req Hf) as (Ht & Hn).
      split; [intros H; contradiction|]. intros _. rewrite Ht.
      apply Participation_replay_only_asks. exact Hask.
    + assert (Hf : fails (Simple.before_submission keccak W req))
        by (intros a; congruence).
      destruct (@Simple_vote_failed keccak W req Hf) as (Ht & Hn).
      split; [intros H; contradiction|]. intros _. rewrite Ht.
      apply Participation_replay_only_asks. exact Hask.
Qed.

Lemma vote_is_recorded_once_witness :
  exists h now,
    snd (Merkle.vote sample_hash world_synced sample_request) =
      {| status := 200; body := Json [("txHash", JString h)] |} /\
    Participation.get_participation
      (Participation.replay (fst (Merkle.vote sample_hash world_synced sample_request))
         (fun _ => "2024-01-01T00:00:00.000Z") 0
         {| Participation.file := Participation.Absent;
            Participation.write := Participation.Written |}) =
      Participation.Items
        ([] ++ [Participation.Entry (Merkle.dni sample_request) h now]).
Proof.
  destruct (vote_is_recorded_once sample_hash world_synced
              (fun _ => "2024-01-01T00:00:00.000Z")
              {| Participation.file := Participation.Absent;
                 Participation.write := Participation.Written |} (l := [])
              eq_refl eq_refl) as (A & _).
  apply (A sample_request). vm_compute. reflexivity.
Defined.

(** *** Numbers *)

Lemma N_size_safe (n : N) : (n < 2 ^ 53)%N -> (N.size n <=? 53)%N = true.
Proof.
  intros H. apply N.leb_le. destruct (N.eq_dec n 0) as [->|Hn]; [cbn; lia|].
  rewrite N.size_log2 by exact Hn.
  assert (N.log2 n < 53)%N by (apply N.log2_lt_pow2; lia). lia.
Qed.

Lemma Number_of_safe (n : N) : (n < 2 ^ 53)%N -> Number_of n = n.
Proof.
  intros H. unfold Number_of. cbv zeta. rewrite (N_size_safe H). reflexivity.
Qed.

Lemma toNumber_some (n m : N) : toNumber n = Some m -> m = n /\ (n < 2 ^ 53)%N.
Proof.
  unfold toNumber. destruct (n <? 2 ^ 53)%N eqn:E; [|discriminate].
  intros H. injection H as <-. split; [reflexivity|]. apply N.ltb_lt. exact E.
Qed.

Lemma toNumber_safe (n : N) : (n < 2 ^ 53)%N -> toNumber n = Some n.
Proof.
  intros H. unfold toNumber. apply N.ltb_lt in H. rewrite H. reflexivity.
Qed.

(** *** GET /info *)

Lemma Merkle_getCurrentElectionIdSafe_exit (W : World) :
  (exists n, snd (Merkle.getCurrentElectionIdSafe W) = Value n) \/
  (exists e, snd (Merkle.getCurrentElectionIdSafe W) = Raise e).
Proof.
  unfold Merkle.getCurrentElectionIdSafe.
  destruct (hasFn W "currentElectionId()").
  - destruct (currentElectionId W) as [n|e]; cbn; [left; eauto|].
    destruct (_ && _); cbn; [left|right]; eauto.
  - destruct (hasFn W "getCurrentElectionId()"); [|left; cbn; eauto].
    destruct (getCurrentElectionId W) as [n|e]; cbn; [left; eauto|].
    destruct (_ && _); cbn; [left|right]; eauto.
Qed.

(** X16. GET /info only asks, and a failing root getter never fails it.
    Without contract code it asks nothing of the contract and reports
    [exists: false], election 0 and root "0x".  With code and an election
    getter that yields [eid], the answer is 200 with the number nearest to
    [eid] ([eid] itself below 2^53) and, as root, what merkleRootOf answers
    for [eid], or "0x" when the ABI lacks it or the call throws.  The answer
    is 500 only when the code cannot be read or the election getter
    throws. *)
Theorem info_survives_root_failure (W : World) :
  Forall only_asks (fst (MerkleViews.info W))
  /\
  (forall code,
     getCode W = Returns code ->
     str_truthy code && negb (String.eqb code "0x") = false ->
     MerkleViews.info W =
       ([ProviderGetCode],
        {| status := 200;
           body := Json [("address", JString (voting_address W));
                         ("network", JString (PROVIDER_URL W));
                         ("exists", JBool false);
                         ("currentElectionId", JNumber 0);
                         ("merkleRoot", JString "0x")] |}))
  /\
  (forall code eid,
     getCode W = Returns code ->
     str_truthy code && negb (String.eqb code "0x") = true ->
     snd (Merkle.getCurrentElectionIdSafe W) = Value eid ->
     snd (MerkleViews.info W) =
       {| status := 200;
          body := Json [("address", JString (voting_address W));
                        ("network", JString (PROVIDER_URL W));
                        ("exists", JBool true);
                        ("currentElectionId", JNumber (Z.of_N (Number_of eid)));
                        ("merkleRoot",
                         JString (if hasFn W "merkleRootOf(uint256)" then
                                    match merkleRootOf W eid with
                                    | Returns r => r
                                    | Throws _ => "0x"
                                    end
                                  else "0x"))] |} /\
     ((eid < 2 ^ 53)%N -> Number_of eid = eid))
  /\
  (status (snd (MerkleViews.info W)) <> 200 ->
   snd (MerkleViews.info W) = {| status := 500; body := Send "Error leyendo contrato" |} /\
   ((exists e, getCode W = Throws e) \/
    (exists e, snd (Merkle.getCurrentElectionIdSafe W) = Raise e))).
Proof.
  unfold MerkleViews.info. split; [|split; [|split]].
  - rewrite tryCatch_trace.
    apply bind_trace_Forall; [destruct (getCode W); repeat constructor|].
    intros code. cbv zeta.
    apply bind_trace_Forall.
    { destruct (_ && _); [apply Merkle_getCurrentElectionIdSafe_only_asks|constructor]. }
    intros eid. apply bind_trace_Forall; [|intros; constructor].
    destruct (_ && _); [|constructor].
    destruct (merkleRootOf W eid); repeat constructor.
  - intros code Hc Hx. rewrite Hc. cbn [call bind]. cbv zeta. rewrite Hx.
    reflexivity.
  - intros code eid Hc Hx He. split; [|apply Number_of_safe].
    rewrite Hc. cbn [call bind]. cbv zeta. rewrite Hx.
    destruct (Merkle.getCurrentElectionIdSafe W) as [t x]. cbn [snd] in He. subst x.
    cbn [bind andb]. destruct (hasFn W "merkleRootOf(uint256)"); [|reflexivity].
    destruct (merkleRootOf W eid); reflexivity.
  - destruct (getCode W) as [code|e]; [|intros _; split; [reflexivity|left; eauto]].
    cbn [call bind]. cbv zeta.
    destruct (str_truthy code && negb (String.eqb code "0x")) eqn:Hx.
    + destruct (Merkle_getCurrentElectionIdSafe_exit W) as [(n & Hn)|(e & He)].
      * destruct (Merkle.getCurrentElectionIdSafe W) as [t x]. cbn [snd] in Hn. subst x.
        cbn [bind andb]. destruct (hasFn W "merkleRootOf(uint256)");
          [destruct (merkleRootOf W n)|]; intros H; exfalso; apply H; reflexivity.
      * intros _. split; [|right; eauto].
        destruct (Merkle.getCurrentElectionIdSafe W) as [t x]. cbn [snd] in He. subst x.
        reflexivity.
    + intros H; exfalso; apply H; reflexivity.
Qed.

Lemma info_survives_root_failure_witness :
  snd (MerkleViews.info (with_merkleRootOf world_synced
                           (fun _ => Throws empty_call_exception))) =
    {| status := 200;
       body := Json [("address", JString (voting_address world_synced));
                     ("network", JString (PROVIDER_URL world_synced));
                     ("exists", JBool true);
                     ("currentElectionId", JNumber (Z.of_N (Number_of 1)));
                     ("merkleRoot", JString "0x")] |} /\
  ((1 < 2 ^ 53)%N -> Number_of 1 = 1%N).
Proof.
  destruct (info_survives_root_failure
              (with_merkleRootOf world_synced (fun _ => Throws empty_call_exception)))
    as (_ & _ & C & _).
  apply (C "0x6080" 1%N); reflexivity.
Defined.

(** *** The candidate lists *)

Lemma row_shows (t : Candidates.Candidate) (r : Candidates.Row) :
  Candidates.row t = Some r <-> shows t r.
Proof.
  unfold Candidates.row, shows. split.
  - destruct (toNumber (Candidates.c_id t)) as [i|] eqn:Ei; [|discriminate].
    destruct (toNumber (Candidates.c_voteCount t)) as [v|] eqn:Ev; [|discriminate].
    intros H. injection H as <-. cbn.
    destruct (toNumber_some _ Ei) as (-> & Hi).
    destruct (toNumber_some _ Ev) as (-> & Hv). auto.
  - intros (Hi & Hn & Hv & Hbi & Hbv).
    rewrite (toNumber_safe Hbi), (toNumber_safe Hbv).
    destruct r as [i n v]. cbn in *. subst. reflexivity.
Qed.

Lemma rows_Forall2 (l : list Candidates.Candidate) (out : list Candidates.Row) :
  Candidates.rows l = Some out <-> Forall2 shows l out.
Proof.
  revert out. induction l as [|t l IH]; intros out; cbn.
  - split; [intros H; injection H as <-; constructor|].
    intros H; inversion H; reflexivity.
  - split.
    + destruct (Candidates.row t) as [r|] eqn:Er; [|discriminate].
      destruct (Candidates.rows l) as [o|]; [|discriminate].
      intros H. injection H as <-. constructor; [apply row_shows; exact Er|].
      apply IH. reflexivity.
    + intros H. inversion H as [|t' r l' o Hs Hrest]; subst.
      apply row_shows in Hs. rewrite Hs.
      apply IH in Hrest. rewrite Hrest. reflexivity.
Qed.

Lemma rounds_spec {A} (f : N -> option A) (n : nat) (i : N) (out : list A) :
  rounds f n i = Some out <->
  List.length out = n /\
  forall k, k < n -> f (i + N.of_nat k)%N = nth_error out k /\ f (i + N.of_nat k)%N <> None.
Proof.
  revert i out. induction n as [|n IH]; intros i out; cbn [rounds].
  - split.
    + intros H. injection H as <-. split; [reflexivity|]. intros k Hk. lia.
    + intros (Hl & _). destruct out; [reflexivity|discriminate].
  - split.
    + destruct (f i) as [r|] eqn:Er; [|discriminate].
      destruct (rounds f n (i + 1)) as [o|] eqn:Eo; [|discriminate].
      intros H. injection H as <-.
      apply IH in Eo. destruct Eo as (Hl & Hk). split; [cbn; lia|].
      intros [|k] Hlt.
      * cbn. rewrite N.add_0_r, Er. split; [reflexivity|discriminate].
      * replace (i + N.of_nat (S k))%N with (i + 1 + N.of_nat k)%N by lia.
        cbn [nth_error]. apply Hk. lia.
    + intros (Hl & Hk). destruct out as [|r o]; [discriminate|].
      destruct (Hk 0 ltac:(lia)) as (H0 & _). cbn in H0. rewrite N.add_0_r in H0.
      rewrite H0.
      assert (Ho : rounds f n (i + 1) = Some o).
      { apply IH. split; [cbn in Hl; lia|]. intros k Hlt.
        replace (i + 1 + N.of_nat k)%N with (i + N.of_nat (S k))%N by lia.
        apply (Hk (S k)). lia. }
      rewrite Ho. reflexivity.
Qed.

Lemma collect_rounds (L : Candidates.Ledger) (n : nat) (i : N) :
  Candidates.collect L n i = rounds (collect_round L) n i.
Proof.
  revert i. induction n as [|n IH]; intros i; [reflexivity|].
  cbn [Candidates.collect rounds]. unfold collect_round at 1.
  destruct (Candidates.getCandidate L i) as [t|e]; [|reflexivity].
  destruct (Candidates.row t); [|reflexivity]. rewrite IH. reflexivity.
Qed.

Lemma counted_rounds (W : World) (L : Candidates.Ledger) (n : nat) (i : N) :
  Candidates.counted W L n i = rounds (Candidates.counted_round W L) n i.
Proof.
  revert i. induction n as [|n IH]; intros i; [reflexivity|].
  cbn [Candidates.counted rounds].
  destruct (Candidates.counted_round W L i); [|reflexivity]. rewrite IH. reflexivity.
Qed.

Lemma collect_round_shows (L : Candidates.Ledger) (i : N) (r : Candidates.Row) :
  collect_round L i = Some r <->
  exists t, Candidates.getCandidate L i = Returns t /\ shows t r.
Proof.
  unfold collect_round. split.
  - destruct (Candidates.getCandidate L i) as [t|e]; [|discriminate].
    intros H. exists t. split; [reflexivity|]. apply row_shows. exact H.
  - intros (t & -> & Hs). apply row_shows. exact Hs.
Qed.

(** X17. GET /candidates of the accumulator variant lists the ledger's
    candidates or nothing.  With getAllCandidates() in the ABI the answer is
    a list exactly when the call returns candidates whose ids and counts are
    safe integers, and then it shows them one for one, in the ledger's
    order.  Without it, the answer is a list exactly when the count can be
    read (0 when the ABI has no getCandidatesCount()) and every candidate
    below the count can be read and shown; the list then has as many rows as
    the count, and row k shows candidate k.  The only other answer is 500:
    a failure never gives a shorter list. *)
Theorem candidates_lists_ledger (W : World) (L : Candidates.Ledger)
  (out : list Candidates.Row) :
  (hasFn W "getAllCandidates()" = true ->
   (Candidates.candidates W L = Candidates.Rows out <->
    exists l, Candidates.getAllCandidates L = Returns l /\ Forall2 shows l out))
  /\
  (hasFn W "getAllCandidates()" = false ->
   (Candidates.candidates W L = Candidates.Rows out <->
    exists cnt,
      (if hasFn W "getCandidatesCount()"
       then Candidates.getCandidatesCount L = Returns cnt /\ (cnt < 2 ^ 53)%N
       else cnt = 0%N) /\
      List.length out = N.to_nat cnt /\
      forall k, k < N.to_nat cnt ->
        exists t r, Candidates.getCandidate L (N.of_nat k) = Returns t /\
                    nth_error out k = Some r /\ shows t r)).
Proof.
  split.
  - intros Hall. unfold Candidates.candidates, Candidates.all. rewrite Hall.
    destruct (Candidates.getAllCandidates L) as [l|e].
    + destruct (Candidates.rows l) as [o|] eqn:Er.
      * split.
        -- intros H. injection H as <-. exists l. split; [reflexivity|].
           apply rows_Forall2. exact Er.
        -- intros (l' & Hl & HF). injection Hl as <-.
           apply rows_Forall2 in HF. congruence.
      * split; [discriminate|].
        intros (l' & Hl & HF). injection Hl as <-.
        apply rows_Forall2 in HF. congruence.
    + split; [discriminate|]. intros (l' & Hl & _). discriminate.
  - intros Hall. unfold Candidates.candidates. rewrite Hall. cbv zeta.
    assert (Hloop : forall cnt,
      Candidates.collect L (N.to_nat cnt) 0 = Some out <->
      List.length out = N.to_nat cnt /\
      forall k, k < N.to_nat cnt ->
        exists t r, Candidates.getCandidate L (N.of_nat k) = Returns t /\
                    nth_error out k = Some r /\ shows t r).
    { intros cnt. rewrite collect_rounds, rounds_spec. split.
      - intros (Hl & Hk). split; [exact Hl|]. intros k Hlt.
        destruct (Hk k Hlt) as (Heq & Hne). rewrite N.add_0_l in *.
        destruct (collect_round L (N.of_nat k)) as [r|] eqn:Er; [|congruence].
        apply collect_round_shows in Er. destruct Er as (t & Ht & Hs).
        exists t, r. auto.
      - intros (Hl & Hk). split; [exact Hl|]. intros k Hlt.
        destruct (Hk k Hlt) as (t & r & Ht & Hn & Hs). rewrite N.add_0_l.
        assert (Er : collect_round L (N.of_nat k) = Some r)
          by (apply collect_round_shows; eauto).
        rewrite Er, Hn. split; [reflexivity|discriminate]. }
    destruct (hasFn W "getCandidatesCount()").
    + destruct (Candidates.getCandidatesCount L) as [c|e].
      * destruct (toNumber c) as [cnt|] eqn:Ec.
        -- destruct (toNumber_some _ Ec) as (-> & Hb).
           destruct (Candidates.collect L (N.to_nat c) 0) as [o|] eqn:Eo.
           ++ split.
              ** intros H. injection H as <-. exists c. split; [auto|].
                 apply Hloop. exact Eo.
              ** intros (cnt & (Hc & _) & Hrest). injection Hc as <-.
                 apply Hloop in Hrest. congruence.
           ++ split; [discriminate|].
              intros (cnt & (Hc & _) & Hrest). injection Hc as <-.
              apply Hloop in Hrest. congruence.
        -- split; [discriminate|].
           intros (cnt & (Hc & Hb) & _). injection Hc as <-.
           rewrite (toNumber_safe Hb) in Ec. discriminate.
      * split; [discriminate|]. intros (cnt & (Hc & _) & _). discriminate.
    + destruct (Candidates.collect L (N.to_nat 0) 0) as [o|] eqn:Eo.
      * split.
        -- intros H. injection H as <-. exists 0%N. split; [reflexivity|].
           apply Hloop. exact Eo.
        -- intros (cnt & -> & Hrest). apply Hloop in Hrest. congruence.
      * split; [discriminate|].
        intros (cnt & -> & Hrest). apply Hloop in Hrest. congruence.
Qed.

Lemma candidates_lists_ledger_witness :
  Candidates.candidates (with_abi world_synced ["getCandidatesCount()"])
    sample_candidate_ledger =
  Candidates.Rows
    [ {| Candidates.id := 0; Candidates.name := "Ada"; Candidates.voteCount := 7 |};
      {| Candidates.id := 1; Candidates.name := "Berta"; Candidates.voteCount := 0 |};
      {| Candidates.id := 2; Candidates.name := "Carla"; Candidates.voteCount := 3 |} ]%N
  <->
  exists cnt,
    (if hasFn (with_abi world_synced ["getCandidatesCount()"]) "getCandidatesCount()"
     then Candidates.getCandidatesCount sample_candidate_ledger = Returns cnt /\
          (cnt < 2 ^ 53)%N
     else cnt = 0%N) /\
    List.length
      [ {| Candidates.id := 0; Candidates.name := "Ada"; Candidates.voteCount := 7 |};
        {| Candidates.id := 1; Candidates.name := "Berta"; Candidates.voteCount := 0 |};
        {| Candidates.id := 2; Candidates.name := "Carla"; Candidates.voteCount := 3 |} ]%N
      = N.to_nat cnt /\
    forall k, k < N.to_nat cnt ->
      exists t r, Candidates.getCandidate sample_candidate_ledger (N.of_nat k) = Returns t /\
                  nth_error
                    [ {| Candidates.id := 0; Candidates.name := "Ada";
                         Candidates.voteCount := 7 |};
                      {| Candidates.id := 1; Candidates.name := "Berta";
                         Candidates.voteCount := 0 |};
                      {| Candidates.id := 2; Candidates.name := "Carla";
                         Candidates.voteCount := 3 |} ]%N k = Some r /\
                  shows t r.
Proof.
  destruct (candidates_lists_ledger (with_abi world_synced ["getCandidatesCount()"])
              sample_candidate_ledger
              [ {| Candidates.id := 0; Candidates.name := "Ada";
                   Candidates.voteCount := 7 |};
                {| Candidates.id := 1; Candidates.name := "Berta";
                   Candidates.voteCount := 0 |};
                {| Candidates.id := 2; Candidates.name := "Carla";
                   Candidates.voteCount := 3 |} ]%N) as (_ & B).
  apply B. reflexivity.
Defined.

Lemma probe_spec (L : Candidates.Ledger) (n : nat) (i : N) :
  List.length (Candidates.probe L n i) <= n /\
  (forall k, k < List.length (Candidates.probe L n i) ->
     collect_round L (i + N.of_nat k)%N = nth_error (Candidates.probe L n i) k) /\
  (List.length (Candidates.probe L n i) < n ->
     collect_round L (i + N.of_nat (List.length (Candidates.probe L n i)))%N = None).
Proof.
  revert i. induction n as [|n IH]; intros i; cbn [Candidates.probe].
  - cbn. split; [lia|]. split; intros; lia.
  - unfold collect_round.
    destruct (Candidates.getCandidate L i) as [t|e] eqn:Eg.
    + destruct (Candidates.row t) as [r|] eqn:Er.
      * destruct (IH (i + 1)%N) as (Hl & Hk & Hend). cbn [List.length].
        split; [lia|]. split.
        -- intros [|k] Hlt.
           ++ cbn. rewrite N.add_0_r, Eg. exact Er.
           ++ replace (i + N.of_nat (S k))%N with (i + 1 + N.of_nat k)%N by lia.
              cbn [nth_error]. apply Hk. lia.
        -- intros Hlt.
           replace (i + N.of_nat (S (List.length (Candidates.probe L n (i + 1)))))%N
             with (i + 1 + N.of_nat (List.length (Candidates.probe L n (i + 1))))%N by lia.
           apply Hend. lia.
      * cbn. split; [lia|]. split; [intros; lia|].
        intros _. rewrite N.add_0_r, Eg. exact Er.
    + cbn. split; [lia|]. split; [intros; lia|].
      intros _. rewrite N.add_0_r, Eg. reflexivity.
Qed.

(** X18. The last resort of GET /candidates in the two-argument variant
    never fails and never lists more than ten.  When the ABI has neither
    getAllCandidates() nor a count with a way to read one candidate, the
    answer is always a list; it has at most ten rows, row k shows candidate
    k, and when it has fewer than ten rows the next candidate could not be
    read or shown: the list stops at the first failure. *)
Theorem Simple_candidates_probe_stops (W : World) (L : Candidates.Ledger) :
  hasFn W "getAllCandidates()" = false ->
  hasFn W "getCandidatesCount()"
    && (hasFn W "getCandidate(uint256)" || hasFn W "candidates(uint256)") = false ->
  exists out,
    Candidates.candidates_simple W L = Candidates.Rows out /\
    List.length out <= 10 /\
    (forall k, k < List.length out ->
       exists t r, Candidates.getCandidate L (N.of_nat k) = Returns t /\
                   nth_error out k = Some r /\ shows t r) /\
    (List.length out < 10 ->
     forall t, Candidates.getCandidate L (N.of_nat (List.length out)) = Returns t ->
               Candidates.row t = None).
Proof.
  intros Hall Hcnt. unfold Candidates.candidates_simple. rewrite Hall, Hcnt.
  exists (Candidates.probe L 10 0). split; [reflexivity|].
  destruct (probe_spec L 10 0) as (Hl & Hk & Hend). split; [exact Hl|]. split.
  - intros k Hlt. specialize (Hk k Hlt). rewrite N.add_0_l in Hk.
    destruct (nth_error (Candidates.probe L 10 0) k) as [r|] eqn:En.
    + apply collect_round_shows in Hk. destruct Hk as (t & Ht & Hs).
      exists t, r. auto.
    + apply nth_error_None in En. lia.
  - intros Hlt t Ht. specialize (Hend Hlt). rewrite N.add_0_l in Hend.
    unfold collect_round in Hend. rewrite Ht in Hend. exact Hend.
Qed.

Lemma Simple_candidates_probe_stops_witness :
  exists out,
    Candidates.candidates_simple (with_abi world_synced ["getCandidate(uint256)"])
      sample_candidate_ledger = Candidates.Rows out /\
    List.length out <= 10 /\
    (forall k, k < List.length out ->
       exists t r, Candidates.getCandidate sample_candidate_ledger (N.of_nat k)
                     = Returns t /\
                   nth_error out k = Some r /\ shows t r) /\
    (List.length out < 10 ->
     forall t, Candidates.getCandidate sample_candidate_ledger
                 (N.of_nat (List.length out)) = Returns t ->
               Candidates.row t = None).
Proof.
  apply (@Simple_candidates_probe_stops
           (with_abi world_synced ["getCandidate(uint256)"]) sample_candidate_ledger);
    reflexivity.
Defined.

(** X19. When the two-argument variant lists the candidates by index
    (a count and candidates(i) in the ABI, but neither getAllCandidates()
    nor getCandidate(i)), a list has as many rows as the count, and row k
    carries k itself as id, what candidates(k) answers as name, and as count
    the number nearest to what getVotes(k) answers, or 0 when the ABI has no
    getVotes. *)
Theorem Simple_candidates_by_index (W : World) (L : Candidates.Ledger)
  (out : list Candidates.Row) :
  hasFn W "getAllCandidates()" = false ->
  hasFn W "getCandidatesCount()" = true ->
  hasFn W "getCandidate(uint256)" = false ->
  hasFn W "candidates(uint256)" = true ->
  Candidates.candidates_simple W L = Candidates.Rows out ->
  exists cnt,
    Candidates.getCandidatesCount L = Returns cnt /\ (cnt < 2 ^ 53)%N /\
    List.length out = N.to_nat cnt /\
    forall k, k < N.to_nat cnt ->
      exists nm r,
        Candidates.candidates_at L (N.of_nat k) = Returns nm /\
        nth_error out k = Some r /\
        Candidates.id r = N.of_nat k /\
        Candidates.name r = nm /\
        (hasFn W "getVotes(uint256)" = false -> Candidates.voteCount r = 0%N) /\
        (hasFn W "getVotes(uint256)" = true ->
         exists vc, Candidates.getVotes L (N.of_nat k) = Returns vc /\
                    Candidates.voteCount r = Number_of vc).
Proof.
  intros Hall Hcnt Hget Hidx. unfold Candidates.candidates_simple.
  rewrite Hall, Hcnt, Hget, Hidx. cbn [andb orb].
  destruct (Candidates.getCandidatesCount L) as [c|e]; [|discriminate].
  destruct (toNumber c) as [cnt|] eqn:Ec; [|discriminate].
  destruct (toNumber_some _ Ec) as (-> & Hb).
  destruct (Candidates.counted W L (N.to_nat c) 0) as [o|] eqn:Eo; [|discriminate].
  intros H. injection H as <-. exists c. split; [reflexivity|]. split; [exact Hb|].
  rewrite counted_rounds in Eo. apply rounds_spec in Eo. destruct Eo as (Hl & Hk).
  split; [exact Hl|]. intros k Hlt.
  destruct (Hk k Hlt) as (Heq & Hne). rewrite N.add_0_l in *.
  unfold Candidates.counted_round in Heq, Hne. rewrite Hget in Heq, Hne.
  destruct (Candidates.candidates_at L (N.of_nat k)) as [nm|e]; [|congruence].
  destruct (hasFn W "getVotes(uint256)").
  - destruct (Candidates.getVotes L (N.of_nat k)) as [vc|e]; [|congruence].
    eexists nm, _. split; [reflexivity|]. split; [symmetry; exact Heq|].
    cbn. repeat split; try discriminate. intros _. exists vc. auto.
  - eexists nm, _. split; [reflexivity|]. split; [symmetry; exact Heq|].
    cbn. repeat split; try discriminate.
Qed.

Lemma Simple_candidates_by_index_witness :
  exists cnt,
    Candidates.getCandidatesCount sample_candidate_ledger = Returns cnt /\
    (cnt < 2 ^ 53)%N /\
    List.length
      [ {| Candidates.id := 0; Candidates.name := "Ada"; Candidates.voteCount := 0 |};
        {| Candidates.id := 1; Candidates.name := "Berta"; Candidates.voteCount := 0 |};
        {| Candidates.id := 2; Candidates.name := "Carla"; Candidates.voteCount := 0 |} ]%N
      = N.to_nat cnt /\
    forall k, k < N.to_nat cnt ->
      exists nm r,
        Candidates.candidates_at sample_candidate_ledger (N.of_nat k) = Returns nm /\
        nth_error
          [ {| Candidates.id := 0; Candidates.name := "Ada"; Candidates.voteCount := 0 |};
            {| Candidates.id := 1; Candidates.name := "Berta";
               Candidates.voteCount := 0 |};
            {| Candidates.id := 2; Candidates.name := "Carla";
               Candidates.voteCount := 0 |} ]%N k = Some r /\
        Candidates.id r = N.of_nat k /\
        Candidates.name r = nm /\
        (hasFn (with_abi world_synced ["getCandidatesCount()"; "candidates(uint256)"])
           "getVotes(uint256)" = false -> Candidates.voteCount r = 0%N) /\
        (hasFn (with_abi world_synced ["getCandidatesCount()"; "candidates(uint256)"])
           "getVotes(uint256)" = true ->
         exists vc, Candidates.getVotes sample_candidate_ledger (N.of_nat k) = Returns vc /\
                    Candidates.voteCount r = Number_of vc).
Proof.
  apply (@Simple_candidates_by_index
           (with_abi world_synced ["getCandidatesCount()"; "candidates(uint256)"])
           sample_candidate_ledger
           [ {| Candidates.id := 0; Candidates.name := "Ada"; Candidates.voteCount := 0 |};
             {| Candidates.id := 1; Candidates.name := "Berta";
                Candidates.voteCount := 0 |};
             {| Candidates.id := 2; Candidates.name := "Carla";
                Candidates.voteCount := 0 |} ]%N);
    reflexivity.
Defined.

(** *** The vote lists *)

Lemma BigNumber_from_some (z z' : Z) : BigNumber_from z = Some z' -> z' = z.
Proof.
  unfold BigNumber_from. destruct (_ && _); [|discriminate]. congruence.
Qed.

Lemma uint_arg_returns (L : Votes.Ledger) (n : Votes.JsNumber) (s : N) :
  Votes.uint_arg L n = Returns s -> n = Votes.Int (Z.of_N s).
Proof.
  unfold Votes.uint_arg. destruct n as [| | |z|f]; try discriminate.
  destruct (BigNumber_from z) as [z'|] eqn:E; [|discriminate].
  apply BigNumber_from_some in E. subst z'.
  destruct (0 <=? z)%Z eqn:Ez; [|discriminate].
  intros H. injection H as <-. apply Z.leb_le in Ez. rewrite Z2N.id by exact Ez.
  reflexivity.
Qed.

Lemma clamp_cases (n : Votes.JsNumber) (lo hi : Z) :
  (lo <= hi)%Z ->
  (n = Votes.NaN /\ Votes.clamp n lo hi = Votes.NaN) \/
  (exists z, Votes.clamp n lo hi = Votes.Int z /\ (lo <= z <= hi)%Z) \/
  (exists f, n = Votes.Frac f /\ Votes.clamp n lo hi = Votes.Frac f /\ (lo <= f < hi)%Z).
Proof.
  intros Hle. unfold Votes.clamp, Votes.Math_min, Votes.Math_max.
  destruct n as [| | |z|f].
  - left. auto.
  - right. left. exists lo. split; [reflexivity|lia].
  - right. left. exists (Z.max lo hi). split; [reflexivity|lia].
  - right. left. exists (Z.max lo (Z.min hi z)). split; [reflexivity|lia].
  - destruct (f <? hi)%Z eqn:Eh.
    + destruct (lo <=? f)%Z eqn:El.
      * right. right. exists f. apply Z.ltb_lt in Eh. apply Z.leb_le in El.
        repeat split; lia.
      * right. left. exists lo. split; [reflexivity|lia].
    + right. left. exists (Z.max lo hi). split; [reflexivity|lia].
Qed.

(** X20. [clamp] with bounds lo <= hi: the result is NaN exactly for NaN;
    otherwise it lies within the bounds, an integer within [lo, hi] or the
    number itself when that lies strictly between two integers within the
    bounds; the infinities are cut to the bounds; a number within the
    bounds is left as it is; clamping twice is clamping once. *)
Theorem clamp_keeps_within_bounds (n : Votes.JsNumber) (lo hi : Z) :
  (lo <= hi)%Z ->
  (Votes.clamp n lo hi = Votes.NaN <-> n = Votes.NaN) /\
  (forall z, Votes.clamp n lo hi = Votes.Int z -> (lo <= z <= hi)%Z) /\
  (forall f, Votes.clamp n lo hi = Votes.Frac f -> n = Votes.Frac f /\ (lo <= f < hi)%Z) /\
  Votes.clamp n lo hi <> Votes.Infinity /\
  Votes.clamp n lo hi <> Votes.NegInfinity /\
  Votes.clamp Votes.Infinity lo hi = Votes.Int hi /\
  Votes.clamp Votes.NegInfinity lo hi = Votes.Int lo /\
  (forall z, (lo <= z <= hi)%Z -> Votes.clamp (Votes.Int z) lo hi = Votes.Int z) /\
  Votes.clamp (Votes.clamp n lo hi) lo hi = Votes.clamp n lo hi.
Proof.
  intros Hle.
  assert (Hfix : forall z, (lo <= z <= hi)%Z -> Votes.clamp (Votes.Int z) lo hi = Votes.Int z).
  { intros z Hz. cbn. f_equal. lia. }
  assert (Hinf : Votes.clamp Votes.Infinity lo hi = Votes.Int hi) by (cbn; f_equal; lia).
  assert (Hneg : Votes.clamp Votes.NegInfinity lo hi = Votes.Int lo) by reflexivity.
  destruct (clamp_cases n Hle) as [(Hn & Hc)|[(z & Hc & Hz)|(f & Hn & Hc & Hf)]];
    rewrite Hc.
  - split; [tauto|]. split; [discriminate|]. split; [discriminate|].
    split; [discriminate|]. split; [discriminate|]. auto.
  - split; [split; [discriminate|intros ->; discriminate]|].
    split; [intros z' H; injection H as <-; exact Hz|]. split; [discriminate|].
    split; [discriminate|]. split; [discriminate|]. auto.
  - split; [split; [discriminate|intros ->; discriminate]|].
    split; [discriminate|].
    split; [intros f' H; injection H as <-; split; [exact Hn|exact Hf]|].
    split; [discriminate|]. split; [discriminate|].
    split; [exact Hinf|]. split; [exact Hneg|]. split; [exact Hfix|].
    subst n. exact Hc.
Qed.

Lemma clamp_keeps_within_bounds_witness :
  (Votes.clamp (Votes.Int 5000) 0 1000 = Votes.NaN <-> Votes.Int 5000 = Votes.NaN) /\
  (forall z, Votes.clamp (Votes.Int 5000) 0 1000 = Votes.Int z -> (0 <= z <= 1000)%Z) /\
  (forall f, Votes.clamp (Votes.Int 5000) 0 1000 = Votes.Frac f ->
             Votes.Int 5000 = Votes.Frac f /\ (0 <= f < 1000)%Z) /\
  Votes.clamp (Votes.Int 5000) 0 1000 <> Votes.Infinity /\
  Votes.clamp (Votes.Int 5000) 0 1000 <> Votes.NegInfinity /\
  Votes.clamp Votes.Infinity 0 1000 = Votes.Int 1000 /\
  Votes.clamp Votes.NegInfinity 0 1000 = Votes.Int 0 /\
  (forall z, (0 <= z <= 1000)%Z -> Votes.clamp (Votes.Int z) 0 1000 = Votes.Int z) /\
  Votes.clamp (Votes.clamp (Votes.Int 5000) 0 1000) 0 1000 =
    Votes.clamp (Votes.Int 5000) 0 1000.
Proof.
  apply (@clamp_keeps_within_bounds (Votes.Int 5000) 0 1000). lia.
Defined.

Ltac crack H :=
  repeat match type of H with
         | context [match ?x with _ => _ end] =>
             lazymatch x with
             | context [match _ with _ => _ end] => fail
             | _ => destruct x eqn:?; try discriminate H
             end
         end.

Lemma N_le_of_Z (s : N) (b : Z) (bN : N) :
  Z.of_N bN = b -> (0 <= Z.of_N s <= b)%Z -> (s <= bN)%N.
Proof. intros <- H. lia. Qed.

(** X21. A page of votes is bounded and comes from one range call.  When
    GET /votes or GET /votes/by-candidate answers with a page, its start
    and limit are the clamped query values (0 and 50 when absent), integers
    with start <= 10^9 and limit <= 1000; its items are the votes one range
    call returned for exactly that start and limit, in the ledger's order,
    and its total is the count the ledger gave.  Without electionId the
    page of GET /votes carries the number of the current election and the
    votes of getVotesRange(start, limit); with it, those of that election. *)
Theorem vote_pages_are_bounded (W : World) (L : Votes.Ledger) (q : Votes.Query)
  (e : N) (c : option N) (s l total : N) (items : list Votes.Item) :
  (Votes.votes W L q = Votes.Page e c s l total items ->
   c = None /\
   Votes.clamp (Votes.orDefault 0 (Votes.q_start q)) 0 (10 ^ 9) = Votes.Int (Z.of_N s) /\
   (s <= 10 ^ 9)%N /\
   Votes.clamp (Votes.orDefault 50 (Votes.q_limit q)) 0 1000 = Votes.Int (Z.of_N l) /\
   (l <= 1000)%N /\
   exists arr,
     items = map Votes.mapVote arr /\
     ((Votes.q_electionId q = None /\
       (exists eId, Votes.getCurrentElectionIdSafe W = Returns eId /\ e = Number_of eId) /\
       Votes.counted L (Votes.getVotesCount0 L) = Returns total /\
       Votes.getVotesRange2 L s l = Returns arr)
      \/
      (Votes.q_electionId q = Some (Votes.Int (Z.of_N e)) /\
       Votes.counted L (Votes.getVotesCount1 L e) = Returns total /\
       Votes.getVotesRange3 L e s l = Returns arr)))
  /\
  (Votes.votes_by_candidate W L q = Votes.Page e c s l total items ->
   exists cid,
     c = Some cid /\
     Votes.q_electionId q = Some (Votes.Int (Z.of_N e)) /\
     Votes.q_candidateId q = Some (Votes.Int (Z.of_N cid)) /\
     Votes.clamp (Votes.orDefault 0 (Votes.q_start q)) 0 (10 ^ 9) = Votes.Int (Z.of_N s) /\
     (s <= 10 ^ 9)%N /\
     Votes.clamp (Votes.orDefault 50 (Votes.q_limit q)) 0 1000 = Votes.Int (Z.of_N l) /\
     (l <= 1000)%N /\
     exists arr,
       items = map Votes.mapVote arr /\
       Votes.counted L (Votes.getVotesByCandidateCount L e cid) = Returns total /\
       Votes.getVotesByCandidateRange L e cid s l = Returns arr).
Proof.
  assert (Hs : forall n, Votes.uint_arg L (Votes.clamp n 0 (10 ^ 9)) = Returns s ->
                 Votes.clamp n 0 (10 ^ 9) = Votes.Int (Z.of_N s) /\ (s <= 10 ^ 9)%N).
  { intros n H. apply uint_arg_returns in H. split; [exact H|].
    destruct (@clamp_cases n 0 (10 ^ 9) ltac:(lia)) as [(_ & Hc)|[(z & Hc & Hz)|(f & _ & Hc & _)]];
      rewrite Hc in H; try discriminate.
    injection H as ->. apply N_le_of_Z with (b := (10 ^ 9)%Z); [reflexivity|exact Hz]. }
  assert (Hl : forall n, Votes.uint_arg L (Votes.clamp n 0 1000) = Returns l ->
                 Votes.clamp n 0 1000 = Votes.Int (Z.of_N l) /\ (l <= 1000)%N).
  { intros n H. apply uint_arg_returns in H. split; [exact H|].
    destruct (@clamp_cases n 0 1000 ltac:(lia)) as [(_ & Hc)|[(z & Hc & Hz)|(f & _ & Hc & _)]];
      rewrite Hc in H; try discriminate.
    injection H as ->. lia. }
  split.
  - intros H. unfold Votes.votes, Votes.catch, Votes.andThen in H. cbv zeta in H.
    destruct (getCode W) as [code|x]; [|discriminate].
    destruct (negb (str_truthy code) || String.eqb code "0x"); [discriminate|].
    destruct (Votes.q_electionId q) as [eidNum|] eqn:Eq.
    + destruct (Votes.uint_arg L eidNum) as [e'|x] eqn:Ee;
        [|destruct eidNum; discriminate].
      destruct (Votes.counted L (Votes.getVotesCount1 L e')) as [t|x] eqn:Et;
        [|destruct eidNum; discriminate].
      destruct (Votes.uint_arg L (Votes.clamp _ 0 (10 ^ 9))) as [s'|x] eqn:Es;
        [|destruct eidNum; discriminate].
      destruct (Votes.uint_arg L (Votes.clamp _ 0 1000)) as [l'|x] eqn:El;
        [|destruct eidNum; discriminate].
      destruct (Votes.getVotesRange3 L e' s' l') as [arr|x] eqn:Ea;
        [|destruct eidNum; discriminate].
      assert (H' : Votes.Page e' None s' l' t (map Votes.mapVote arr) =
                   Votes.Page e c s l total items) by (destruct eidNum; try discriminate; exact H).
      injection H' as -> <- -> -> -> <-.
      apply uint_arg_returns in Ee. subst eidNum.
      destruct (Hs _ Es) as (? & ?). destruct (Hl _ El) as (? & ?).
      repeat (split; [assumption || reflexivity|]).
      exists arr. split; [reflexivity|]. right. auto.
    + destruct (Votes.getCurrentElectionIdSafe W) as [eId|x] eqn:Ee; [|discriminate].
      destruct (Votes.counted L (Votes.getVotesCount0 L)) as [t|x] eqn:Et; [|discriminate].
      destruct (Votes.uint_arg L (Votes.clamp _ 0 (10 ^ 9))) as [s'|x] eqn:Es; [|discriminate].
      destruct (Votes.uint_arg L (Votes.clamp _ 0 1000)) as [l'|x] eqn:El; [|discriminate].
      destruct (Votes.getVotesRange2 L s' l') as [arr|x] eqn:Ea; [|discriminate].
      injection H as <- <- -> -> -> <-.
      destruct (Hs _ Es) as (? & ?). destruct (Hl _ El) as (? & ?).
      repeat (split; [assumption || reflexivity|]).
      exists arr. split; [reflexivity|]. left. eauto 6.
  - intros H. unfold Votes.votes_by_candidate, Votes.catch, Votes.andThen in H.
    cbv zeta in H.
    destruct (getCode W) as [code|x]; [|discriminate].
    destruct (negb (str_truthy code) || String.eqb code "0x"); [discriminate|].
    destruct (Votes.orNaN (Votes.q_electionId q)) as [| | |ze|fe] eqn:Ee0;
      destruct (Votes.orNaN (Votes.q_candidateId q)) as [| | |zc|fc] eqn:Ec0;
      try discriminate H; crack H;
      repeat match goal with
             | Hx : Votes.uint_arg L Votes.NegInfinity = Returns _ |- _ =>
                 apply uint_arg_returns in Hx; discriminate Hx
             | Hx : Votes.uint_arg L Votes.Infinity = Returns _ |- _ =>
                 apply uint_arg_returns in Hx; discriminate Hx
             | Hx : Votes.uint_arg L (Votes.Frac _) = Returns _ |- _ =>
                 apply uint_arg_returns in Hx; discriminate Hx
             end.
    injection H as -> <- -> -> -> <-.
    match goal with
    | Hx : Votes.uint_arg L (Votes.clamp _ 0 (10 ^ 9)) = Returns _ |- _ =>
        destruct (Hs _ Hx) as (? & ?)
    end.
    match goal with
    | Hx : Votes.uint_arg L (Votes.clamp _ 0 1000) = Returns _ |- _ =>
        destruct (Hl _ Hx) as (? & ?)
    end.
    repeat match goal with
           | Hx : Votes.uint_arg L (Votes.Int _) = Returns _ |- _ =>
               apply uint_arg_returns in Hx; injection Hx as ->
           end.
    eexists. split; [reflexivity|].
    split; [destruct (Votes.q_electionId q); cbn in Ee0; congruence|].
    split; [destruct (Votes.q_candidateId q); cbn in Ec0; congruence|].
    repeat (split; [assumption|]).
    eexists. split; [reflexivity|]. split; assumption.
Qed.

Lemma vote_pages_are_bounded_witness :
  @None N = None /\
  Votes.clamp (Votes.orDefault 0 (Votes.q_start sample_query)) 0 (10 ^ 9)
    = Votes.Int (Z.of_N 1) /\
  (1 <= 10 ^ 9)%N /\
  Votes.clamp (Votes.orDefault 50 (Votes.q_limit sample_query)) 0 1000
    = Votes.Int (Z.of_N 1000) /\
  (1000 <= 1000)%N /\
  exists arr,
    map Votes.mapVote (skipn 1 sample_votes) = map Votes.mapVote arr /\
    ((Votes.q_electionId sample_query = None /\
      (exists eId, Votes.getCurrentElectionIdSafe world_synced = Returns eId /\
                   1%N = Number_of eId) /\
      Votes.counted sample_vote_ledger (Votes.getVotesCount0 sample_vote_ledger)
        = Returns 3%N /\
      Votes.getVotesRange2 sample_vote_ledger 1 1000 = Returns arr)
     \/
     (Votes.q_electionId sample_query = Some (Votes.Int (Z.of_N 1)) /\
      Votes.counted sample_vote_ledger (Votes.getVotesCount1 sample_vote_ledger 1)
        = Returns 3%N /\
      Votes.getVotesRange3 sample_vote_ledger 1 1 1000 = Returns arr)).
Proof.
  destruct (vote_pages_are_bounded world_synced sample_vote_ledger sample_query
              1 None 1 1000 3 (map Votes.mapVote (skipn 1 sample_votes))) as (A & _).
  apply A. vm_compute. reflexivity.
Defined.

(** *** The vote list of src/index.js *)

Lemma insert_perm (x : Votes.Item) (l : list Votes.Item) :
  Permutation (ClientViews.insert x l) (x :: l).
Proof.
  induction l as [|y l IH]; cbn; [reflexivity|].
  destruct (Votes.id x <=? Votes.id y)%N; [reflexivity|].
  rewrite IH. apply perm_swap.
Qed.

Lemma sort_perm (l : list Votes.Item) : Permutation (ClientViews.sort l) l.
Proof.
  induction l as [|x l IH]; cbn; [reflexivity|].
  rewrite insert_perm. constructor. exact IH.
Qed.

Lemma insert_hd (x a : Votes.Item) (l : list Votes.Item) :
  by_id a x -> HdRel by_id a l -> HdRel by_id a (ClientViews.insert x l).
Proof.
  intros Hax Hl. destruct l as [|y l]; cbn; [constructor; exact Hax|].
  destruct (Votes.id x <=? Votes.id y)%N; constructor; [exact Hax|].
  inversion Hl; assumption.
Qed.

Lemma insert_sorted (x : Votes.Item) (l : list Votes.Item) :
  Sorted by_id l -> Sorted by_id (ClientViews.insert x l).
Proof.
  induction 1 as [|y l Hs IH Hhd]; cbn; [repeat constructor|].
  destruct (Votes.id x <=? Votes.id y)%N eqn:E.
  - apply N.leb_le in E. repeat constructor; assumption.
  - apply N.leb_gt in E. constructor; [exact IH|].
    apply insert_hd; [unfold by_id; lia|exact Hhd].
Qed.

Lemma sort_sorted (l : list Votes.Item) : Sorted by_id (ClientViews.sort l).
Proof.
  induction l as [|x l IH]; cbn; [constructor|]. apply insert_sorted. exact IH.
Qed.

Lemma item_of_log_shows (l : ClientViews.Log) (it : Votes.Item) :
  ClientViews.item_of_log l = Some it <-> shows_log l it.
Proof.
  unfold ClientViews.item_of_log, shows_log. split.
  - destruct (toNumber (ClientViews.voteId l)) as [i|] eqn:Ei; [|discriminate].
    destruct (toNumber (ClientViews.candidateId l)) as [c|] eqn:Ec; [|discriminate].
    intros H. injection H as <-. cbn.
    destruct (toNumber_some _ Ei) as (-> & Hi).
    destruct (toNumber_some _ Ec) as (-> & Hc). auto.
  - intros (Hi & Hc & Ht & Hbi & Hbc).
    rewrite (toNumber_safe Hbi), (toNumber_safe Hbc).
    destruct it as [i c t]. cbn in *. subst. reflexivity.
Qed.

Lemma items_of_logs_Forall2 (logs : list ClientViews.Log) (its : list Votes.Item) :
  ClientViews.items_of_logs logs = Some its <-> Forall2 shows_log logs its.
Proof.
  revert its. induction logs as [|l logs IH]; intros its; cbn.
  - split; [intros H; injection H as <-; constructor|].
    intros H; inversion H; reflexivity.
  - split.
    + destruct (ClientViews.item_of_log l) as [it|] eqn:El; [|discriminate].
      destruct (ClientViews.items_of_logs logs) as [o|]; [|discriminate].
      intros H. injection H as <-. constructor; [apply item_of_log_shows; exact El|].
      apply IH. reflexivity.
    + intros H. inversion H as [|l' it logs' o Hs Hrest]; subst.
      apply item_of_log_shows in Hs. rewrite Hs.
      apply IH in Hrest. rewrite Hrest. reflexivity.
Qed.

Lemma fallback_rounds (L : ClientViews.Ledger) (n : nat) (i : N)
  (out : list Votes.Item) :
  ClientViews.fallback L n i = Returns out <-> rounds (fallback_round L) n i = Some out.
Proof.
  revert i out. induction n as [|n IH]; intros i out; cbn [ClientViews.fallback rounds].
  - split; intros H; injection H as <-; reflexivity.
  - unfold fallback_round at 1.
    destruct (ClientViews.getVote1 L i) as [v|e]; [|split; discriminate].
    destruct (ClientViews.fallback L n (i + 1)) as [o|e] eqn:Ef.
    + assert (Hr : rounds (fallback_round L) n (i + 1) = Some o) by (apply IH; exact Ef).
      rewrite Hr. split; intros H; injection H as <-; reflexivity.
    + destruct (rounds (fallback_round L) n (i + 1)) as [o|] eqn:Er;
        [|split; discriminate].
      apply IH in Er. congruence.
Qed.

(** X22. The vote list of src/index.js.  A listing carries the number of
    the current election and as total the number of its items.  When the
    logs can be read and shown, the items are exactly the logs' votes, each
    once, in ascending order of vote id.  Otherwise (the log query throws or
    an id is no safe integer) the items are the votes getVote(0), ...,
    getVote(n-1) for the count n of getVotesCount(), in index order. *)
Theorem ClientProof_votes_listing (W : World) (L : ClientViews.Ledger)
  (r : ClientViews.Listing) :
  ClientViews.getAllVotesCurrentElection W L = Returns r ->
  currentElectionId W = Returns (ClientViews.electionId r) /\
  (ClientViews.electionId r < 2 ^ 53)%N /\
  ClientViews.total r = List.length (ClientViews.items r) /\
  ((exists logs its,
      ClientViews.queryFilter L (ClientViews.electionId r) = Returns logs /\
      Forall2 shows_log logs its /\
      Permutation its (ClientViews.items r) /\
      Sorted by_id (ClientViews.items r))
   \/
   ((forall logs its,
       ClientViews.queryFilter L (ClientViews.electionId r) = Returns logs ->
       ~ Forall2 shows_log logs its) /\
    exists n,
      ClientViews.getVotesCount0 L = Returns n /\ (n < 2 ^ 53)%N /\
      List.length (ClientViews.items r) = N.to_nat n /\
      forall k, k < N.to_nat n ->
        exists v, ClientViews.getVote1 L (N.of_nat k) = Returns v /\
                  nth_error (ClientViews.items r) k = Some (Votes.mapVote v))).
Proof.
  unfold ClientViews.getAllVotesCurrentElection.
  destruct (currentElectionId W) as [c|e]; [|discriminate].
  destruct (toNumber c) as [eid|] eqn:Ec; [|discriminate].
  destruct (toNumber_some _ Ec) as (-> & Hb). cbv zeta.
  destruct (ClientViews.queryFilter L c) as [logs|e] eqn:Eq.
  - destruct (ClientViews.items_of_logs logs) as [its|] eqn:Ei.
    + intros H. injection H as <-. cbn. repeat (split; [reflexivity || assumption|]).
      left. exists logs, its. split; [exact Eq|].
      split; [apply items_of_logs_Forall2; exact Ei|].
      split; [symmetry; apply sort_perm|apply sort_sorted].
    + destruct (ClientViews.getVotesCount0 L) as [n|e]; [|discriminate].
      destruct (toNumber n) as [n'|] eqn:En; [|discriminate].
      destruct (toNumber_some _ En) as (-> & Hn).
      destruct (ClientViews.fallback L (N.to_nat n) 0) as [out|e] eqn:Ef; [|discriminate].
      intros H. injection H as <-. cbn. repeat (split; [reflexivity || assumption|]).
      right. split.
      * intros logs' its Hq HF. rewrite Eq in Hq. injection Hq as <-.
        apply items_of_logs_Forall2 in HF. congruence.
      * exists n. split; [reflexivity|]. split; [exact Hn|].
        apply fallback_rounds in Ef. apply rounds_spec in Ef.
        destruct Ef as (Hl & Hk). split; [exact Hl|]. intros k Hlt.
        destruct (Hk k Hlt) as (Heq & Hne). rewrite N.add_0_l in *.
        unfold fallback_round in Heq, Hne.
        destruct (ClientViews.getVote1 L (N.of_nat k)) as [v|e]; [|congruence].
        exists v. split; [reflexivity|]. symmetry. exact Heq.
  - destruct (ClientViews.getVotesCount0 L) as [n|e']; [|discriminate].
    destruct (toNumber n) as [n'|] eqn:En; [|discriminate].
    destruct (toNumber_some _ En) as (-> & Hn).
    destruct (ClientViews.fallback L (N.to_nat n) 0) as [out|e'] eqn:Ef; [|discriminate].
    intros H. injection H as <-. cbn. repeat (split; [reflexivity || assumption|]).
    right. split.
    + intros logs' its Hq. rewrite Eq in Hq. discriminate.
    + exists n. split; [reflexivity|]. split; [exact Hn|].
      apply fallback_rounds in Ef. apply rounds_spec in Ef.
      destruct Ef as (Hl & Hk). split; [exact Hl|]. intros k Hlt.
      destruct (Hk k Hlt) as (Heq & Hne). rewrite N.add_0_l in *.
      unfold fallback_round in Heq, Hne.
      destruct (ClientViews.getVote1 L (N.of_nat k)) as [v|e']; [|congruence].
      exists v. split; [reflexivity|]. symmetry. exact Heq.
Qed.

Lemma ClientProof_votes_listing_witness :
  currentElectionId world_synced = Returns (ClientViews.electionId sample_listing) /\
  (ClientViews.electionId sample_listing < 2 ^ 53)%N /\
  ClientViews.total sample_listing = List.length (ClientViews.items sample_listing) /\
  ((exists logs its,
      ClientViews.queryFilter sample_client_ledger (ClientViews.electionId sample_listing)
        = Returns logs /\
      Forall2 shows_log logs its /\
      Permutation its (ClientViews.items sample_listing) /\
      Sorted by_id (ClientViews.items sample_listing))
   \/
   ((forall logs its,
       ClientViews.queryFilter sample_client_ledger
         (ClientViews.electionId sample_listing) = Returns logs ->
       ~ Forall2 shows_log logs its) /\
    exists n,
      ClientViews.getVotesCount0 sample_client_ledger = Returns n /\ (n < 2 ^ 53)%N /\
      List.length (ClientViews.items sample_listing) = N.to_nat n /\
      forall k, k < N.to_nat n ->
        exists v, ClientViews.getVote1 sample_client_ledger (N.of_nat k) = Returns v /\
                  nth_error (ClientViews.items sample_listing) k
                    = Some (Votes.mapVote v))).
Proof.
  apply (@ClientProof_votes_listing world_synced sample_client_ledger sample_listing).
  vm_compute. reflexivity.
Defined.

(** X23. A failing log query alone never fails GET /votes of src/index.js.
    When the current election can be read and is a safe integer, the count
    can be read and is a safe integer, and every vote below the count can be
    read, the route answers with a listing, whatever the log query does; and
    when the log query throws, that listing holds the votes
    getVote(0), ..., getVote(n-1) in index order. *)
Theorem ClientProof_votes_falls_back (W : World) (L : ClientViews.Ledger) (eid n : N) :
  currentElectionId W = Returns eid -> (eid < 2 ^ 53)%N ->
  ClientViews.getVotesCount0 L = Returns n -> (n < 2 ^ 53)%N ->
  (forall k, k < N.to_nat n ->
     exists v, ClientViews.getVote1 L (N.of_nat k) = Returns v) ->
  exists r,
    ClientViews.votes W L = ClientViews.Data r /\
    ClientViews.electionId r = eid /\
    ((exists e, ClientViews.queryFilter L eid = Throws e) ->
     ClientViews.total r = N.to_nat n /\
     List.length (ClientViews.items r) = N.to_nat n /\
     forall k, k < N.to_nat n ->
       exists v, ClientViews.getVote1 L (N.of_nat k) = Returns v /\
                 nth_error (ClientViews.items r) k = Some (Votes.mapVote v)).
Proof.
  intros He Hbe Hn Hbn Hall.
  assert (Hf : exists out, ClientViews.fallback L (N.to_nat n) 0 = Returns out).
  { assert (G : forall m i, (forall k, k < m ->
                 exists v, ClientViews.getVote1 L (i + N.of_nat k)%N = Returns v) ->
               exists out, ClientViews.fallback L m i = Returns out).
    { induction m as [|m IH]; intros i Hm; [exists []; reflexivity|].
      cbn [ClientViews.fallback].
      destruct (Hm 0 ltac:(lia)) as (v & Hv). rewrite N.add_0_r in Hv. rewrite Hv.
      destruct (IH (i + 1)%N) as (out & Ho).
      { intros k Hk. destruct (Hm (S k) ltac:(lia)) as (v' & Hv'). exists v'.
        replace (i + 1 + N.of_nat k)%N with (i + N.of_nat (S k))%N by lia. exact Hv'. }
      rewrite Ho. eauto. }
    apply G. intros k Hk. rewrite N.add_0_l. apply Hall. exact Hk. }
  destruct Hf as (out & Hout).
  unfold ClientViews.votes, ClientViews.getAllVotesCurrentElection.
  rewrite He, (toNumber_safe Hbe). cbv zeta.
  rewrite Hn, (toNumber_safe Hbn), Hout.
  destruct (ClientViews.queryFilter L eid) as [logs|e].
  - destruct (ClientViews.items_of_logs logs) as [its|].
    + eexists. split; [reflexivity|]. split; [reflexivity|].
      intros (e & Hq). discriminate.
    + eexists. split; [reflexivity|]. split; [reflexivity|].
      intros (e & Hq). discriminate.
  - eexists. split; [reflexivity|]. split; [reflexivity|]. intros _. cbn.
    apply fallback_rounds in Hout. apply rounds_spec in Hout.
    destruct Hout as (Hl & Hk). split; [exact Hl|]. split; [exact Hl|].
    intros k Hlt. destruct (Hk k Hlt) as (Heq & Hne). rewrite N.add_0_l in *.
    unfold fallback_round in Heq, Hne.
    destruct (ClientViews.getVote1 L (N.of_nat k)) as [v|e']; [|congruence].
    exists v. split; [reflexivity|]. symmetry. exact Heq.
Qed.

Lemma ClientProof_votes_falls_back_witness :
  exists r,
    ClientViews.votes world_synced
      {| ClientViews.queryFilter := fun _ => Throws empty_call_exception;
         ClientViews.getVotesCount0 := Returns 3%N;
         ClientViews.getVote1 := ClientViews.getVote1 sample_client_ledger |}
      = ClientViews.Data r /\
    ClientViews.electionId r = 1%N /\
    ((exists e, (fun _ : N => @Throws (list ClientViews.Log) empty_call_exception) 1%N
                = Throws e) ->
     ClientViews.total r = N.to_nat 3 /\
     List.length (ClientViews.items r) = N.to_nat 3 /\
     forall k, k < N.to_nat 3 ->
       exists v, ClientViews.getVote1 sample_client_ledger (N.of_nat k) = Returns v /\
                 nth_error (ClientViews.items r) k = Some (Votes.mapVote v)).
Proof.
  apply (@ClientProof_votes_falls_back world_synced
           {| ClientViews.queryFilter := fun _ => Throws empty_call_exception;
              ClientViews.getVotesCount0 := Returns 3%N;
              ClientViews.getVote1 := ClientViews.getVote1 sample_client_ledger |}
           1%N 3%N); try reflexivity.
  intros k Hk. change (N.to_nat 3) with 3 in Hk.
  destruct k as [|[|[|k]]]; [eexists; reflexivity ..|lia].
Defined.



(** *** The order of a vote *)

Lemma in_order_nil (lo hi : nat) : lo <= hi -> in_order lo hi [].
Proof. intros H. repeat split; [exact H|constructor|constructor]. Qed.

Lemma in_order_one (lo hi : nat) (e : Event) :
  lo <= protocol_step e < hi -> in_order lo hi [e].
Proof.
  intros H. repeat split; [lia|repeat constructor|repeat constructor; lia].
Qed.

Lemma in_order_weaken (a b a' b' : nat) (t : list Event) :
  in_order a b t -> a' <= a -> b <= b' -> in_order a' b' t.
Proof.
  intros (Hab & Hs & Hf) Ha Hb. repeat split; [lia|exact Hs|].
  eapply Forall_impl; [|exact Hf]. cbn. intros e He. lia.
Qed.

Lemma in_order_app (a b c : nat) (t u : list Event) :
  in_order a b t -> in_order b c u -> in_order a c (t ++ u).
Proof.
  intros (Hab & Hs & Hf) (Hbc & Hs' & Hf'). repeat split; [lia| |].
  - rewrite map_app. induction t as [|e t IH]; [exact Hs'|].
    cbn in *. inversion Hs as [|x l Hsl Hx]; subst. inversion Hf as [|y l' He Hft]; subst.
    constructor; [apply IH; assumption|].
    apply Forall_app. split; [exact Hx|].
    rewrite Forall_map. eapply Forall_impl; [|exact Hf']. cbn. intros e' He'. lia.
  - apply Forall_app. split; (eapply Forall_impl; [|eassumption]); cbn; intros e He; lia.
Qed.

Lemma in_order_bind {A B} (a b c : nat) (m : Handler A) (f : A -> Handler B) :
  in_order a b (fst m) -> b <= c -> (forall x, in_order b c (fst (f x))) ->
  in_order a c (fst (bind m f)).
Proof.
  intros Hm Hbc Hf. destruct m as [t [x|r|e]]; cbn in *.
  - specialize (Hf x). destruct (f x) as [t' y]. cbn in *.
    eapply in_order_app; eassumption.
  - eapply in_order_weaken; [exact Hm|lia|exact Hbc].
  - eapply in_order_weaken; [exact Hm|lia|exact Hbc].
Qed.

Lemma in_order_call {A} (lo hi : nat) (ev : Event) (o : Outcome A) :
  lo <= protocol_step ev < hi -> in_order lo hi (fst (call ev o)).
Proof. apply in_order_one. Qed.

Lemma in_order_emit (lo hi : nat) (ev : Event) :
  lo <= protocol_step ev < hi -> in_order lo hi (fst (emit ev)).
Proof. apply in_order_one. Qed.

Lemma in_order_when (lo hi : nat) (c : bool) (s : nat) (text : string) :
  lo <= hi -> in_order lo hi (fst (when_ c s text)).
Proof. intros H. destruct c; apply in_order_nil; exact H. Qed.

Lemma in_order_orThrow {A} (lo hi : nat) (o : option A) (msg : string) :
  lo <= hi -> in_order lo hi (fst (orThrow o msg)).
Proof. intros H. destruct o; apply in_order_nil; exact H. Qed.

Lemma in_order_attempt {A} (lo hi : nat) (o : Outcome A) :
  lo <= hi -> in_order lo hi (fst (attempt o)).
Proof. intros H. destruct o; apply in_order_nil; exact H. Qed.

Lemma in_order_solidityKeccak256 (lo hi : nat) keccak vs :
  lo <= hi -> in_order lo hi (fst (solidityKeccak256 keccak vs)).
Proof.
  intros H. unfold solidityKeccak256. destruct (solidityPack vs); apply in_order_nil; exact H.
Qed.

(** One stage of a chain of binds, up to step [k]. *)
Ltac stage k :=
  apply in_order_bind with (b := k); [ | cbn; lia | intros ].

Ltac stage_done :=
  first [ apply in_order_call; cbn; lia
        | apply in_order_emit; cbn; lia
        | apply in_order_when; lia
        | apply in_order_orThrow; lia
        | apply in_order_attempt; lia
        | apply in_order_solidityKeccak256; lia
        | apply in_order_nil; lia ].

Lemma Merkle_getCurrentElectionIdSafe_in_order (W : World) :
  in_order 3 4 (fst (Merkle.getCurrentElectionIdSafe W)).
Proof.
  unfold Merkle.getCurrentElectionIdSafe.
  destruct (hasFn W "currentElectionId()").
  - destruct (currentElectionId W) as [n|e]; [apply in_order_one; cbn; lia|].
    cbn. destruct (_ && _); apply in_order_one; cbn; lia.
  - destruct (hasFn W "getCurrentElectionId()"); [|apply in_order_nil; lia].
    destruct (getCurrentElectionId W) as [n|e]; [apply in_order_one; cbn; lia|].
    cbn. destruct (_ && _); apply in_order_one; cbn; lia.
Qed.

Lemma Simple_getCurrentElectionIdSafe_in_order (W : World) :
  in_order 3 4 (fst (Simple.getCurrentElectionIdSafe W)).
Proof.
  unfold Simple.getCurrentElectionIdSafe.
  destruct (hasFn W "currentElectionId()"); [stage_done|].
  destruct (hasFn W "getCurrentElectionId()"); stage_done.
Qed.

Lemma Merkle_computeGlobalTree_in_order (keccak : Buffer -> Buffer) (W : World) :
  in_order 2 3 (fst (Merkle.computeGlobalTree keccak W)).
Proof.
  unfold Merkle.computeGlobalTree. stage 3; [stage_done|].
  destruct (reply_leaves x); stage_done.
Qed.

Lemma Merkle_before_submission_in_order (keccak : Buffer -> Buffer) (W : World)
  (req : Merkle.VoteRequest) :
  in_order 0 6 (fst (Merkle.before_submission keccak W req)).
Proof.
  unfold Merkle.before_submission.
  stage 4.
  { unfold Merkle.verify_and_prove.
    stage 0; [stage_done|]. stage 1; [stage_done|]. stage 1; [stage_done|].
    stage 2; [stage_done|]. stage 2; [stage_done|]. stage 2; [stage_done|].
    stage 3; [apply Merkle_computeGlobalTree_in_order|].
    stage 3; [stage_done|]. cbv zeta.
    stage 3; [stage_done|]. stage 3; [stage_done|].
    stage 4; [apply Merkle_getCurrentElectionIdSafe_in_order|].
    stage 4; [stage_done|]. stage 4; [stage_done|]. stage 4; [stage_done|].
    stage_done. }
  stage 5.
  { unfold Merkle.validate_root.
    stage 4; [stage_done|]. stage 5; [destruct (hasFn W _); stage_done|].
    stage 5; [stage_done|]. stage_done. }
  stage 6.
  { unfold Merkle.precheck_duplicate. destruct (hasFn W _); [|stage_done].
    stage 6; [stage_done|]. stage_done. }
  stage 6; [unfold Merkle.require_vote_fn; stage_done|]. stage_done.
Qed.

Lemma Simple_before_submission_in_order (keccak : Buffer -> Buffer) (W : World)
  (req : Simple.VoteRequest) :
  in_order 0 6 (fst (Simple.before_submission keccak W req)) /\
  Forall (fun e => protocol_step e <> 2 /\ protocol_step e <> 4)
    (fst (Simple.before_submission keccak W req)).
Proof.
  split.
  - unfold Simple.before_submission.
    stage 4.
    { unfold Simple.verify_and_derive.
      stage 0; [stage_done|]. stage 1; [stage_done|]. stage 1; [stage_done|].
      stage 2; [stage_done|]. stage 2; [stage_done|]. stage 2; [stage_done|].
      stage 2; [stage_done|]. stage 3; [stage_done|].
      stage 4; [apply Simple_getCurrentElectionIdSafe_in_order|].
      stage 4; [stage_done|]. cbv zeta.
      stage 4; [stage_done|]. stage 4; [stage_done|]. stage_done. }
    stage 6.
    { unfold Simple.precheck_duplicate. destruct (hasFn W _); [|stage_done].
      stage 6; [stage_done|]. stage_done. }
    stage 6; [unfold Simple.require_vote_fn; stage_done|]. stage_done.
  - unfold Simple.before_submission, Simple.verify_and_derive,
      Simple.precheck_duplicate, Simple.require_vote_fn,
      Simple.getCurrentElectionIdSafe.
    walk_trace; repeat constructor; cbn; lia.
Qed.

Lemma in_order_sorted (lo hi : nat) (t : list Event) :
  in_order lo hi t -> StronglySorted lt (map protocol_step t).
Proof. intros (_ & H & _). exact H. Qed.

(** X25. A vote run asks each party at most once and in one order.  In each
    of the three vote routes the steps of the trace are strictly ascending:
    contract code, verification, the registry's leaves, current election,
    ledger root, duplicate pre-check, transaction, its confirmation,
    participation entry.  So the verification comes before every call on the
    ledger contract, the root and the duplicate pre-check come before the
    transaction, and nothing is asked twice.  The two-argument variant never
    asks for the registry's leaves or root nor for the ledger's root. *)
Theorem vote_follows_protocol_order (keccak : Buffer -> Buffer) (W : World) :
  (forall req, StronglySorted lt (map protocol_step (fst (Merkle.vote keccak W req))))
  /\
  (forall req,
     StronglySorted lt (map protocol_step (fst (Simple.vote keccak W req))) /\
     Forall (fun e => protocol_step e <> 2 /\ protocol_step e <> 4)
       (fst (Simple.vote keccak W req)))
  /\
  (forall req, StronglySorted lt (map protocol_step (fst (ClientProof.vote W req)))).
Proof.
  split; [|split].
  - intros req. apply in_order_sorted with (lo := 0) (hi := 9).
    unfold Merkle.vote. rewrite tryCatch_trace.
    stage 6; [apply Merkle_before_submission_in_order|].
    unfold Merkle.submit. cbv zeta.
    stage 7; [stage_done|]. stage 8; [stage_done|]. stage 9; [stage_done|].
    stage_done.
  - intros req. destruct (Simple_before_submission_in_order keccak W req) as (Ho & Hn).
    split.
    + apply in_order_sorted with (lo := 0) (hi := 9).
      unfold Simple.vote. rewrite tryCatch_trace.
      stage 6; [exact Ho|].
      unfold Simple.submit. cbv zeta.
      stage 7; [stage_done|]. stage 8; [stage_done|]. stage 9; [stage_done|].
      stage_done.
    + unfold Simple.vote. rewrite tryCatch_trace.
      apply bind_trace_Forall; [exact Hn|]. intros p.
      unfold Simple.submit. walk_trace; repeat constructor; cbn; lia.
  - intros req. apply in_order_sorted with (lo := 0) (hi := 9).
    unfold ClientProof.vote, ClientProof.currentElectionNumber.
    rewrite tryCatch_trace.
    destruct (ClientProof.candidateId req) as [cid|]; [|stage_done].
    destruct (str_truthy (ClientProof.leaf req));
      [|destruct (ClientProof.proof req); stage_done].
    destruct (ClientProof.proof req) as [prf|]; [|stage_done].
    stage 4; [stage 4; stage_done|].
    stage 4.
    { destruct (ClientProof.electionId req) as [e|]; [|stage_done].
      destruct (_ && _); stage_done. }
    stage 5; [stage_done|].
    stage 5; [destruct (_ && _); stage_done|].
    stage 5; [stage_done|]. stage 7; [stage_done|]. stage 8; [stage_done|].
    stage_done.
Qed.

(** The two spellings of [getCurrentElectionIdSafe] of the accumulator
    variant, with and without trace, end alike. *)
Lemma Votes_getCurrentElectionIdSafe_agrees (W : World) :
  snd (Merkle.getCurrentElectionIdSafe W) =
  match Votes.getCurrentElectionIdSafe W with
  | Returns n => Value n
  | Throws e => Raise e
  end.
Proof.
  unfold Merkle.getCurrentElectionIdSafe, Votes.getCurrentElectionIdSafe.
  destruct (hasFn W "currentElectionId()").
  - destruct (currentElectionId W) as [n|e]; [reflexivity|].
    cbn. destruct (_ && _); reflexivity.
  - destruct (hasFn W "getCurrentElectionId()"); [|reflexivity].
    destruct (getCurrentElectionId W) as [n|e]; [reflexivity|].
    cbn. destruct (_ && _); reflexivity.
Qed.
